(** * HiitHero: the interval-timer state machine and its page controller

    A shallow embedding of [createTimer] (the timer state machine) and of
    the application controller (settings, callbacks and event handlers),
    together with the properties of the specification that can be settled
    on them.

    Conventions of the embedding.
    - Milliseconds and frame timestamps are integers ([Z]), as in the data
      model of the specification ([timeRemainingMs] is an integer). The
      code computes in doubles: on whole numbers within the safe integers
      (up to 2^53 - 1) its arithmetic is the integer arithmetic used
      here. A property that the rounding of fractional timestamps or
      numbers beyond that range could break carries the range as a
      hypothesis.
    - The mutable closure of [createTimer] (the [state] object and the
      variables [rafId], [lastTimestamp], [lastDisplayedSecond]) together
      with the host's list of pending animation-frame callbacks is one
      record, [Machine]; every JavaScript function is a program of the
      monad [Prog], which threads the machine and collects, in call order,
      the callbacks the function invokes.
    - [null] is [None]. *)

From Stdlib Require Import String Ascii DecimalString DecimalPos.
From Stdlib Require Import ZArith List Bool Lia.
Import ListNotations.
Open Scope Z_scope.

Module Timer.

(** ** Data *)

(** The [STATES] table. *)
Inductive Status : Set := IDLE | COUNTDOWN | WORK | REST | PAUSED | COMPLETE.

Definition Status_eq_dec (a b : Status) : {a = b} + {a <> b}.
Proof. decide equality. Defined.

Definition status_eqb (a b : Status) : bool :=
  if Status_eq_dec a b then true else false.

(** The tags handed to [callbacks.onSound]. *)
Inductive Cue : Set :=
  cue_start | cue_workToRest | cue_restToWork | cue_complete | cue_countdown.

(** The [config] argument of [createTimer]. *)
Record Config : Set := mkConfig {
  workDuration : Z;
  restDuration : Z;
  rounds : Z
}.

(** One invocation of a member of the [callbacks] argument, with its
    arguments. *)
Inductive Callback : Set :=
| OnTick (timeRemaining phaseDuration : Z) (status : Status)
         (currentRound totalRounds : Z)
| OnPhaseChange (phase : Status)
| OnRoundChange (currentRound totalRounds : Z)
| OnComplete (rounds workDuration restDuration : Z)
| OnSound (cue : Cue)
| OnStateChange (status : Status).

(** The closure of one timer instance and the host's frame scheduler.
    The first six fields are the [state] object, the next three the
    closure variables; [pending] lists the handles of the callbacks
    registered with [requestAnimationFrame] and not yet run or cancelled,
    [frameCounter] is the host's last issued handle. *)
Record Machine : Set := mkMachine {
  status : Status;
  previousStatus : option Status;
  currentRound : Z;
  totalRounds : Z;
  timeRemaining : Z;
  phaseDuration : Z;
  rafId : option nat;
  lastTimestamp : option Z;
  lastDisplayedSecond : option Z;
  pending : list nat;
  frameCounter : nat
}.

Definition set_status (v : Status) (m : Machine) : Machine :=
  mkMachine v (previousStatus m) (currentRound m) (totalRounds m)
    (timeRemaining m) (phaseDuration m) (rafId m) (lastTimestamp m)
    (lastDisplayedSecond m) (pending m) (frameCounter m).

Definition set_previousStatus (v : option Status) (m : Machine) : Machine :=
  mkMachine (status m) v (currentRound m) (totalRounds m)
    (timeRemaining m) (phaseDuration m) (rafId m) (lastTimestamp m)
    (lastDisplayedSecond m) (pending m) (frameCounter m).

Definition set_currentRound (v : Z) (m : Machine) : Machine :=
  mkMachine (status m) (previousStatus m) v (totalRounds m)
    (timeRemaining m) (phaseDuration m) (rafId m) (lastTimestamp m)
    (lastDisplayedSecond m) (pending m) (frameCounter m).

Definition set_totalRounds (v : Z) (m : Machine) : Machine :=
  mkMachine (status m) (previousStatus m) (currentRound m) v
    (timeRemaining m) (phaseDuration m) (rafId m) (lastTimestamp m)
    (lastDisplayedSecond m) (pending m) (frameCounter m).

Definition set_timeRemaining (v : Z) (m : Machine) : Machine :=
  mkMachine (status m) (previousStatus m) (currentRound m) (totalRounds m)
    v (phaseDuration m) (rafId m) (lastTimestamp m)
    (lastDisplayedSecond m) (pending m) (frameCounter m).

Definition set_phaseDuration (v : Z) (m : Machine) : Machine :=
  mkMachine (status m) (previousStatus m) (currentRound m) (totalRounds m)
    (timeRemaining m) v (rafId m) (lastTimestamp m)
    (lastDisplayedSecond m) (pending m) (frameCounter m).

Definition set_rafId (v : option nat) (m : Machine) : Machine :=
  mkMachine (status m) (previousStatus m) (currentRound m) (totalRounds m)
    (timeRemaining m) (phaseDuration m) v (lastTimestamp m)
    (lastDisplayedSecond m) (pending m) (frameCounter m).

Definition set_lastTimestamp (v : option Z) (m : Machine) : Machine :=
  mkMachine (status m) (previousStatus m) (currentRound m) (totalRounds m)
    (timeRemaining m) (phaseDuration m) (rafId m) v
    (lastDisplayedSecond m) (pending m) (frameCounter m).

Definition set_lastDisplayedSecond (v : option Z) (m : Machine) : Machine :=
  mkMachine (status m) (previousStatus m) (currentRound m) (totalRounds m)
    (timeRemaining m) (phaseDuration m) (rafId m) (lastTimestamp m)
    v (pending m) (frameCounter m).

Definition set_pending (v : list nat) (m : Machine) : Machine :=
  mkMachine (status m) (previousStatus m) (currentRound m) (totalRounds m)
    (timeRemaining m) (phaseDuration m) (rafId m) (lastTimestamp m)
    (lastDisplayedSecond m) v (frameCounter m).

Definition set_frameCounter (v : nat) (m : Machine) : Machine :=
  mkMachine (status m) (previousStatus m) (currentRound m) (totalRounds m)
    (timeRemaining m) (phaseDuration m) (rafId m) (lastTimestamp m)
    (lastDisplayedSecond m) (pending m) v.

(** ** The monad of timer code: machine state plus emitted callbacks *)

Definition Prog (A : Type) : Type := Machine -> A * Machine * list Callback.

Definition ret {A : Type} (a : A) : Prog A := fun m => (a, m, []).

Definition bind {A B : Type} (c : Prog A) (k : A -> Prog B) : Prog B :=
  fun m =>
    let '(a, m1, o1) := c m in
    let '(b, m2, o2) := k a m1 in
    (b, m2, o1 ++ o2).

Declare Scope prog_scope.
Delimit Scope prog_scope with prog.
Notation "x <- c ;; k" := (bind c (fun x => k))
  (at level 61, c at next level, right associativity) : prog_scope.
Notation "c ;; k" := (bind c (fun _ => k))
  (at level 61, right associativity) : prog_scope.
Open Scope prog_scope.

Definition gets {A : Type} (f : Machine -> A) : Prog A :=
  fun m => (f m, m, []).

Definition modify (f : Machine -> Machine) : Prog unit :=
  fun m => (tt, f m, []).

Definition call (c : Callback) : Prog unit := fun m => (tt, m, [c]).

Definition when (b : bool) (c : Prog unit) : Prog unit :=
  if b then c else ret tt.

(** The machine a program leaves, and the callbacks it invoked. *)
Definition exec {A : Type} (c : Prog A) (m : Machine) : Machine :=
  snd (fst (c m)).

Definition emitted {A : Type} (c : Prog A) (m : Machine) : list Callback :=
  snd (c m).

(** ** JavaScript helpers *)

(** [ToNumber]: [null] converts to 0, as in [timestamp - lastTimestamp]. *)
Definition toNumber (o : option Z) : Z :=
  match o with Some z => z | None => 0 end.

(** [Math.ceil(x / d)] for integers [x] and positive [d]. *)
Definition ceilDiv (x d : Z) : Z := - ((- x) / d).

(** [a !== b] on a number and a number-or-null. *)
Definition differs (a : Z) (b : option Z) : bool :=
  match b with Some z => negb (a =? z) | None => true end.

(** Truthiness of [rafId]: [null] and the handle 0 are falsy. *)
Definition truthy (h : option nat) : bool :=
  match h with Some (S _) => true | _ => false end.

(** [x === null]. *)
Definition isNull {A : Type} (o : option A) : bool :=
  match o with Some _ => false | None => true end.

(** Truthiness of [state.previousStatus]: a status name is a non-empty
    string, so only [null] is falsy. *)
Definition recorded (p : option Status) : bool := negb (isNull p).

(** ** The host's animation-frame scheduler *)

(** [requestAnimationFrame(tick)]: the host increments its handle counter,
    registers the callback under the new handle and returns the handle. *)
Definition requestAnimationFrame : Prog nat :=
  fun m =>
    let h := S (frameCounter m) in
    (h, set_pending (pending m ++ [h]) (set_frameCounter h m), []).

(** [cancelAnimationFrame(h)]: the callback registered under [h], if any,
    is dropped. *)
Definition cancelAnimationFrame (h : nat) : Prog unit :=
  modify (fun m =>
    set_pending (filter (fun x => negb (Nat.eqb x h)) (pending m)) m).

Definition handleOf (h : option nat) : nat :=
  match h with Some n => n | None => O end.

(** ** The timer *)

Section WithConfig.

Variable config : Config.

(** The state right after [createTimer(config, callbacks)] returns. *)
Definition createTimer : Machine :=
  {| status := IDLE;
     previousStatus := None;
     currentRound := 1;
     totalRounds := rounds config;
     timeRemaining := 0;
     phaseDuration := 0;
     rafId := None;
     lastTimestamp := None;
     lastDisplayedSecond := None;
     pending := [];
     frameCounter := O |}.

Definition emitTick : Prog unit :=
  fun m =>
    (tt, m, [OnTick (timeRemaining m) (phaseDuration m) (status m)
               (currentRound m) (totalRounds m)]).

(** [rafId = requestAnimationFrame(tick)]. *)
Definition scheduleTick : Prog unit :=
  h <- requestAnimationFrame ;;
  modify (set_rafId (Some h)).

(** [if (rafId) { cancelAnimationFrame(rafId); rafId = null; }]. *)
Definition cancelTick : Prog unit :=
  r <- gets rafId ;;
  when (truthy r)
    (cancelAnimationFrame (handleOf r) ;;
     modify (set_rafId None)).

Definition handlePhaseEnd : Prog unit :=
  s <- gets status ;;
  match s with
  | COUNTDOWN =>
      modify (set_status WORK) ;;
      modify (set_timeRemaining (workDuration config * 1000)) ;;
      modify (fun m => set_phaseDuration (timeRemaining m) m) ;;
      modify (set_lastDisplayedSecond None) ;;
      call (OnPhaseChange WORK) ;;
      call (OnSound cue_start) ;;
      scheduleTick
  | WORK =>
      cur <- gets currentRound ;;
      tot <- gets totalRounds ;;
      if tot <=? cur then
        modify (set_status COMPLETE) ;;
        call (OnComplete tot (workDuration config) (restDuration config)) ;;
        call (OnSound cue_complete) ;;
        call (OnStateChange COMPLETE)
      else
        modify (set_status REST) ;;
        modify (set_timeRemaining (restDuration config * 1000)) ;;
        modify (fun m => set_phaseDuration (timeRemaining m) m) ;;
        modify (set_lastDisplayedSecond None) ;;
        call (OnPhaseChange REST) ;;
        call (OnSound cue_workToRest) ;;
        scheduleTick
  | REST =>
      modify (fun m => set_currentRound (currentRound m + 1) m) ;;
      modify (set_status WORK) ;;
      modify (set_timeRemaining (workDuration config * 1000)) ;;
      modify (fun m => set_phaseDuration (timeRemaining m) m) ;;
      modify (set_lastDisplayedSecond None) ;;
      call (OnPhaseChange WORK) ;;
      cur <- gets currentRound ;;
      tot <- gets totalRounds ;;
      call (OnRoundChange cur tot) ;;
      call (OnSound cue_restToWork) ;;
      scheduleTick
  | _ => ret tt
  end.

(** [tick(timestamp)], on a timestamp in whole milliseconds. The host
    passes a double, with a fractional part as a rule; the subtractions
    are exact on whole numbers within the safe integers, and round
    otherwise. *)
Definition tick (timestamp : Z) : Prog unit :=
  last <- gets lastTimestamp ;;
  when (isNull last) (modify (set_lastTimestamp (Some timestamp))) ;;
  last <- gets lastTimestamp ;;
  let delta := timestamp - toNumber last in
  modify (set_lastTimestamp (Some timestamp)) ;;
  let delta := if 1000 <? delta then 1000 else delta in
  modify (fun m => set_timeRemaining (timeRemaining m - delta) m) ;;
  remaining <- gets timeRemaining ;;
  if remaining <=? 0 then
    modify (set_timeRemaining 0) ;;
    emitTick ;;
    handlePhaseEnd
  else
    let currentSecond := ceilDiv remaining 1000 in
    shown <- gets lastDisplayedSecond ;;
    when (differs currentSecond shown)
      (modify (set_lastDisplayedSecond (Some currentSecond)) ;;
       s <- gets status ;;
       when ((currentSecond <=? 3) && (1 <=? currentSecond)
             && negb (status_eqb s COUNTDOWN))
         (call (OnSound cue_countdown))) ;;
    emitTick ;;
    scheduleTick.

(** ** Public operations *)

Definition start : Prog unit :=
  s <- gets status ;;
  if negb (status_eqb s IDLE) then ret tt else
  modify (set_currentRound 1) ;;
  modify (set_totalRounds (rounds config)) ;;
  modify (set_status COUNTDOWN) ;;
  modify (set_timeRemaining 3000) ;;
  modify (set_phaseDuration 3000) ;;
  modify (set_lastTimestamp None) ;;
  modify (set_lastDisplayedSecond None) ;;
  call (OnPhaseChange COUNTDOWN) ;;
  cur <- gets currentRound ;;
  tot <- gets totalRounds ;;
  call (OnRoundChange cur tot) ;;
  call (OnStateChange COUNTDOWN) ;;
  scheduleTick.

Definition pause : Prog unit :=
  s <- gets status ;;
  if negb (status_eqb s COUNTDOWN) && negb (status_eqb s WORK)
     && negb (status_eqb s REST) then ret tt else
  cancelTick ;;
  modify (fun m => set_previousStatus (Some (status m)) m) ;;
  modify (set_status PAUSED) ;;
  call (OnStateChange PAUSED).

(** The guard [status !== PAUSED || !previousStatus] is the [None] branch
    and the test on [s]. *)
Definition resume : Prog unit :=
  s <- gets status ;;
  p <- gets previousStatus ;;
  match p with
  | Some prev =>
      if negb (status_eqb s PAUSED) then ret tt else
      modify (set_status prev) ;;
      modify (set_previousStatus None) ;;
      modify (set_lastTimestamp None) ;;
      s' <- gets status ;;
      call (OnStateChange s') ;;
      scheduleTick
  | None => ret tt
  end.

Definition reset : Prog unit :=
  cancelTick ;;
  modify (set_status IDLE) ;;
  modify (set_previousStatus None) ;;
  modify (set_currentRound 1) ;;
  modify (set_timeRemaining 0) ;;
  modify (set_phaseDuration 0) ;;
  modify (set_lastTimestamp None) ;;
  modify (set_lastDisplayedSecond None) ;;
  call (OnStateChange IDLE).

(** The local [s] is the status, or the restored one when the timer was
    paused with a recorded previous status. *)
Definition skip : Prog unit :=
  s <- gets status ;;
  p <- gets previousStatus ;;
  s <- (match p with
        | Some prev =>
            if status_eqb s PAUSED then
              modify (set_status prev) ;;
              modify (set_previousStatus None) ;;
              gets status
            else ret s
        | None => ret s
        end) ;;
  if negb (status_eqb s WORK) && negb (status_eqb s REST)
     && negb (status_eqb s COUNTDOWN) then ret tt else
  modify (set_timeRemaining 0) ;;
  cancelTick ;;
  handlePhaseEnd.

End WithConfig.

(** The object [getState()] returns. *)
Record Snapshot : Set := mkSnapshot {
  snap_status : Status;
  snap_currentRound : Z;
  snap_totalRounds : Z;
  snap_timeRemaining : Z;
  snap_phaseDuration : Z
}.

Definition getState (m : Machine) : Snapshot :=
  {| snap_status := status m;
     snap_currentRound := currentRound m;
     snap_totalRounds := totalRounds m;
     snap_timeRemaining := timeRemaining m;
     snap_phaseDuration := phaseDuration m |}.

(** ** The host running a frame

    When the host presents a frame at time [timestamp] it takes the handles
    registered so far and, for each one still registered, unregisters it
    and calls its callback, which for this timer is always [tick].
    Callbacks registered meanwhile wait for the next frame. *)
Fixpoint runCallbacks (config : Config) (handles : list nat)
    (timestamp : Z) : Prog unit :=
  match handles with
  | [] => ret tt
  | h :: rest =>
      live <- gets pending ;;
      when (existsb (Nat.eqb h) live)
        (cancelAnimationFrame h ;; tick config timestamp) ;;
      runCallbacks config rest timestamp
  end.

Definition animationFrame (config : Config) (timestamp : Z) : Prog unit :=
  handles <- gets pending ;;
  runCallbacks config handles timestamp.

(** ** The timer as a transition system *)

(** What can happen to a timer: a call of one of the five public
    operations, or the host running a frame. *)
Inductive Op : Set :=
| Start | Pause | Resume | Reset | Skip
| Frame (timestamp : Z).

Definition perform (config : Config) (op : Op) : Prog unit :=
  match op with
  | Start => start config
  | Pause => pause
  | Resume => resume
  | Reset => reset
  | Skip => skip config
  | Frame ts => animationFrame config ts
  end.

Definition step (config : Config) (op : Op) (m : Machine) : Machine :=
  exec (perform config op) m.

Definition output (config : Config) (op : Op) (m : Machine) : list Callback :=
  emitted (perform config op) m.

(** Running a list of operations in order, collecting every callback. *)
Fixpoint run (config : Config) (ops : list Op) (m : Machine)
    : Machine * list Callback :=
  match ops with
  | [] => (m, [])
  | op :: rest =>
      let '(m', o) := run config rest (step config op m) in
      (m', output config op m ++ o)
  end.

(** The states a timer built from [config] can be in. *)
Inductive reachable (config : Config) : Machine -> Prop :=
| reach_create : reachable config (createTimer config)
| reach_step : forall (op : Op) (m : Machine),
    reachable config m -> reachable config (step config op m).

(** The configurations the settings form produces. *)
Definition valid (config : Config) : Prop :=
  5 <= workDuration config <= 300 /\
  5 <= restDuration config <= 300 /\
  1 <= rounds config <= 50.

Definition cfg_30_15_2 : Config := mkConfig 30 15 2.

(** Sample states of a [cfg_30_15_2] timer, used to instantiate the
    statements below: one second into the countdown, then paused there. *)
Definition counting : Machine :=
  step cfg_30_15_2 (Frame 1000)
    (step cfg_30_15_2 (Frame 0)
       (step cfg_30_15_2 Start (createTimer cfg_30_15_2))).

Definition halted : Machine := step cfg_30_15_2 Pause counting.


(** Running the host's frames at the given timestamps, in order. *)
Definition frames (config : Config) (stamps : list Z) (m : Machine) : Machine :=
  fold_left (fun acc ts => step config (Frame ts) acc) stamps m.

(** The phase ends that enter WORK or REST: a skip or a frame after which
    the status is WORK or REST. *)
Definition entersPhase (op : Op) (next : Status) : bool :=
  match op, next with
  | Skip, WORK | Skip, REST => true
  | Frame _, WORK | Frame _, REST => true
  | _, _ => false
  end.

(** The steps that set the round counter back to 1: [reset()] always, and
    [start()] when it is not rejected. *)
Definition restarts (op : Op) (m : Machine) : bool :=
  match op with
  | Reset => true
  | Start => status_eqb (status m) IDLE
  | _ => false
  end.

(** *** Vocabulary of the statements *)

(** The three phases in which time runs. *)
Definition active (s : Status) : bool :=
  match s with COUNTDOWN | WORK | REST => true | _ => false end.

(** The phase the timer is in: the interrupted status while paused. *)
Definition phase (m : Machine) : Status :=
  match previousStatus m with Some p => p | None => status m end.

(** The delta [tick] subtracts at [timestamp], after the cap. *)
Definition elapsed (m : Machine) (timestamp : Z) : Z :=
  let delta :=
    timestamp - match lastTimestamp m with Some l => l | None => timestamp end in
  if 1000 <? delta then 1000 else delta.

(** Whether a tick at [timestamp] finds the phase's time used up. *)
Definition expires (m : Machine) (timestamp : Z) : bool :=
  timeRemaining m - elapsed m timestamp <=? 0.

(** The statuses passed to [onPhaseChange], in call order. *)
Fixpoint phaseChanges (log : list Callback) : list Status :=
  match log with
  | [] => []
  | OnPhaseChange s :: rest => s :: phaseChanges rest
  | _ :: rest => phaseChanges rest
  end.

(** The statuses passed to [onStateChange], in call order. *)
Fixpoint stateChanges (log : list Callback) : list Status :=
  match log with
  | [] => []
  | OnStateChange s :: rest => s :: stateChanges rest
  | _ :: rest => stateChanges rest
  end.

(** The summaries passed to [onComplete], in call order. *)
Fixpoint completions (log : list Callback) : list (Z * Z * Z) :=
  match log with
  | [] => []
  | OnComplete r w d :: rest => (r, w, d) :: completions rest
  | _ :: rest => completions rest
  end.

(** The [onTick] calls of a log. *)
Fixpoint ticks (log : list Callback) : list Callback :=
  match log with
  | [] => []
  | OnTick t p s c r :: rest => OnTick t p s c r :: ticks rest
  | _ :: rest => ticks rest
  end.

(** *** What one tick reports *)

(** The sound a running tick may emit before its [onTick]. *)
Definition countdownCue (m : Machine) (ts : Z) : list Callback :=
  let second := ceilDiv (timeRemaining m - elapsed m ts) 1000 in
  if differs second (lastDisplayedSecond m)
     && (second <=? 3) && (1 <=? second)
     && negb (status_eqb (status m) COUNTDOWN)
  then [OnSound cue_countdown] else [].

(** *** The invariant of reachable states *)

(** What holds of the clock while the timer is in phase [ph]. *)
Definition phaseInv (config : Config) (ph : Status) (m : Machine) : Prop :=
  match ph with
  | COUNTDOWN => phaseDuration m = 3000 /\ 0 < timeRemaining m
  | WORK => phaseDuration m = workDuration config * 1000 /\ 0 < timeRemaining m
  | REST => phaseDuration m = restDuration config * 1000 /\ 0 < timeRemaining m
            /\ currentRound m < totalRounds m
  | _ => False
  end.

(** Exactly one tick is registered with the host, and [rafId] names it. *)
Definition scheduled (m : Machine) : Prop :=
  exists h : nat, pending m = [S h] /\ rafId m = Some (S h).

Definition Inv (config : Config) (m : Machine) : Prop :=
  totalRounds m = rounds config /\
  1 <= currentRound m <= totalRounds m /\
  match status m, previousStatus m with
  | IDLE, None =>
      timeRemaining m = 0 /\ phaseDuration m = 0 /\ pending m = []
      /\ currentRound m = 1
  | COUNTDOWN, None => phaseInv config COUNTDOWN m /\ scheduled m
  | WORK, None => phaseInv config WORK m /\ scheduled m
  | REST, None => phaseInv config REST m /\ scheduled m
  | PAUSED, Some p => phaseInv config p m /\ pending m = []
  | COMPLETE, None =>
      timeRemaining m = 0 /\ phaseDuration m = workDuration config * 1000
      /\ pending m = [] /\ currentRound m = totalRounds m
  | _, _ => False
  end.

(** *** Full runs *)

(** Whether [op] ends the phase the timer is in: a skip (also while
    paused), or a frame whose tick finds the time used up. *)
Definition endsPhase (op : Op) (m : Machine) : bool :=
  active (phase m) &&
  match op with
  | Skip => true
  | Frame ts => active (status m) && expires m ts
  | _ => false
  end.

(** Whether [op] leaves the timer in the phase it is in: anything but a
    reset, a skip or a frame whose tick finds the time used up. *)
Definition keepsPhase (op : Op) (m : Machine) : bool :=
  active (phase m) &&
  match op with
  | Start | Pause | Resume => true
  | Frame ts => negb (active (status m) && expires m ts)
  | Skip | Reset => false
  end.

(** [ops] is the life of one phase: operations that keep the phase, then
    one that ends it. *)
Fixpoint livesOnePhase (config : Config) (ops : list Op) (m : Machine) : bool :=
  match ops with
  | [] => false
  | [op] => endsPhase op m
  | op :: rest => keepsPhase op m && livesOnePhase config rest (step config op m)
  end.

(** [segments] are the lives of successive phases, starting in [m]. *)
Fixpoint livesPhases (config : Config) (segments : list (list Op))
    (m : Machine) : bool :=
  match segments with
  | [] => true
  | ops :: rest =>
      livesOnePhase config ops m
      && livesPhases config rest (fst (run config ops m))
  end.

(** [n] times REST then WORK. *)
Fixpoint alternation (n : nat) : list Status :=
  match n with
  | O => []
  | S k => REST :: WORK :: alternation k
  end.

(** The phases of a workout of [n] rounds, in order. *)
Definition schedule (n : nat) : list Status :=
  COUNTDOWN :: WORK :: alternation (Nat.pred n).

(** The phases still to come after the current one. *)
Definition upcoming (m : Machine) : list Status :=
  match phase m with
  | COUNTDOWN => WORK :: alternation (Z.to_nat (totalRounds m - currentRound m))
  | WORK => alternation (Z.to_nat (totalRounds m - currentRound m))
  | REST => WORK :: alternation (Z.to_nat (totalRounds m - currentRound m - 1))
  | _ => []
  end.

(** [count] frames one second apart, the first at time [first]. *)
Fixpoint everySecond (first : Z) (count : nat) : list Op :=
  match count with
  | O => []
  | S k => Frame first :: everySecond (first + 1000) k
  end.

(** Leaving the timer alone for one phase: a frame every second until the
    time remaining is used up; when no tick has run since the start or
    the resume, a first frame sets the clock reference. *)
Definition waitOut (m : Machine) : list Op :=
  let count := Z.to_nat (ceilDiv (timeRemaining m) 1000) in
  match lastTimestamp m with
  | Some l => everySecond (l + 1000) count
  | None => Frame 0 :: everySecond 1000 count
  end.

(** Leaving the timer alone for [k] phases. *)
Fixpoint waitOutPhases (config : Config) (k : nat) (m : Machine)
    : list (list Op) :=
  match k with
  | O => []
  | S k' =>
      waitOut m :: waitOutPhases config k' (fst (run config (waitOut m) m))
  end.

(** The three callbacks that close a workout. *)
Definition finale (config : Config) : list Callback :=
  [OnComplete (rounds config) (workDuration config) (restDuration config);
   OnSound cue_complete; OnStateChange COMPLETE].

(** A full [cfg_30_15_2] workout: the countdown runs out, the first work
    phase is skipped, the rest is skipped while paused, the last work
    phase is skipped. *)
Definition sampleWorkout : list (list Op) :=
  [[Frame 0; Frame 1000; Frame 2000; Frame 3000];
   [Frame 3500; Skip]; [Pause; Frame 9000; Skip]; [Pause; Resume; Skip]].

(** *** Guards *)

(** Whether [op] gets past the guard of its operation: [start()] needs
    IDLE, [pause()] a running phase, [resume()] PAUSED with a recorded
    previous status, [skip()] either of the last two, [reset()] nothing;
    a frame needs a registered callback. *)
Definition accepted (op : Op) (m : Machine) : bool :=
  match op with
  | Start => status_eqb (status m) IDLE
  | Pause => active (status m)
  | Resume => status_eqb (status m) PAUSED && recorded (previousStatus m)
  | Reset => true
  | Skip =>
      active (status m)
      || (status_eqb (status m) PAUSED && recorded (previousStatus m))
  | Frame _ => match pending m with [] => false | _ :: _ => true end
  end.

(** What a display may rely on in a callback: an [onTick] carries a time
    that is not negative, a positive phase duration, a running status and
    a round between 1 and the configured total. *)
Definition wellFormed (config : Config) (c : Callback) : Prop :=
  match c with
  | OnTick t p s cur tot =>
      0 <= t /\ 0 < p /\ active s = true /\
      1 <= cur <= tot /\ tot = rounds config
  | _ => True
  end.

(** *** Clocks that do not go back *)

(** Whether every frame of [ops], run from [m], comes at a timestamp not
    before the one of the previous tick. *)
Fixpoint forwardOnly (config : Config) (ops : list Op) (m : Machine) : bool :=
  match ops with
  | [] => true
  | op :: rest =>
      match op, lastTimestamp m with
      | Frame ts, Some l => l <=? ts
      | _, _ => true
      end
      && forwardOnly config rest (step config op m)
  end.

(** [Number.MAX_SAFE_INTEGER]. *)
Definition maxSafeInteger : Z := 9007199254740991.

(** Whether the timestamps [stamps] never go back, starting from [l]. *)
Fixpoint ascending (l : Z) (stamps : list Z) : bool :=
  match stamps with
  | [] => true
  | t :: rest => (l <=? t) && ascending t rest
  end.

(** Frame timestamps in whole milliseconds that never go back from the
    previous tick at [l] and stay within the safe integers: on these the
    subtractions of [tick] are exact in the code's doubles. *)
Definition wholeClock (l : Z) (stamps : list Z) : bool :=
  (0 <=? l) && ascending l stamps && (last stamps l <=? maxSafeInteger).

(** An [onTick] whose time remaining is within the phase duration. *)
Definition withinPhase (c : Callback) : Prop :=
  match c with
  | OnTick t p _ _ _ => t <= p
  | _ => True
  end.

(** *** What the callbacks have reported *)

(** The pairs passed to [onRoundChange], in call order. *)
Fixpoint roundChanges (log : list Callback) : list (Z * Z) :=
  match log with
  | [] => []
  | OnRoundChange c t :: rest => (c, t) :: roundChanges rest
  | _ :: rest => roundChanges rest
  end.

(** The reports of the [count] rounds after round [cur], of [tot]. *)
Fixpoint roundsFrom (cur : Z) (count : nat) (tot : Z) : list (Z * Z) :=
  match count with
  | O => []
  | S k => (cur + 1, tot) :: roundsFrom (cur + 1) k tot
  end.

(** How often [onSound("countdown")] was called. *)
Fixpoint countdownCues (log : list Callback) : nat :=
  match log with
  | [] => O
  | OnSound cue_countdown :: rest => S (countdownCues rest)
  | _ :: rest => countdownCues rest
  end.

(** A one-round timer of five seconds, four seconds before the end of
    its work phase. *)
Definition cfg_5_5_1 : Config := mkConfig 5 5 1.

Definition lastSeconds : Machine :=
  step cfg_5_5_1 (Frame 1000)
    (step cfg_5_5_1 (Frame 0)
       (step cfg_5_5_1 Skip
          (step cfg_5_5_1 Start (createTimer cfg_5_5_1)))).

(** Whether [ops] contains no [reset()]. *)
Definition resetFree (ops : list Op) : bool :=
  forallb (fun op => match op with Reset => false | _ => true end) ops.

(** The phase a display that follows [onPhaseChange] shows: the phase the
    timer is in, and still WORK once the timer is COMPLETE. *)
Definition announcedPhase (m : Machine) : Status :=
  match status m with
  | COMPLETE => WORK
  | _ => phase m
  end.

(** *** Nominal durations *)

Definition list_sum_Z (l : list Z) : Z := fold_right Z.add 0 l.

(** The length of a phase, in milliseconds. *)
Definition duration (config : Config) (ph : Status) : Z :=
  match ph with
  | COUNTDOWN => 3000
  | WORK => workDuration config * 1000
  | REST => restDuration config * 1000
  | _ => 0
  end.

(** The time of the last tick, 0 before the first. *)
Definition clock (m : Machine) : Z :=
  match lastTimestamp m with Some l => l | None => 0 end.

(** The time the rest of the workout takes: what remains of the phase
    and the phases to come. *)
Definition timeToGo (config : Config) (m : Machine) : Z :=
  timeRemaining m + list_sum_Z (List.map (duration config) (upcoming m)).

End Timer.

(** * The application controller: settings *)

Module Controller.

(** A JavaScript string: its UTF-16 code units. *)
Definition JsString : Set := list Z.

(** The code units of an ASCII literal. *)
Definition js (s : string) : JsString :=
  List.map (fun a => Z.of_N (N_of_ascii a)) (list_ascii_of_string s).

(** [String(value)] for an integer below 10^21 in absolute value, which
    JavaScript prints in plain decimal digits (beyond, it prints an
    exponent). Every number the controller prints after sanitising or
    clamping into a field's range, and every round and second it shows,
    is in that range. *)
Definition toString (value : Z) : JsString :=
  js (NilZero.string_of_int (Z.to_int value)).

(** ** [parseInt(text, 10)] *)

(** White space and line terminators, which [parseInt] skips in front. *)
Definition isWhiteSpace (c : Z) : bool :=
  (c =? 9) || (c =? 10) || (c =? 11) || (c =? 12) || (c =? 13)
  || (c =? 32) || (c =? 160) || (c =? 5760)
  || ((8192 <=? c) && (c <=? 8202))
  || (c =? 8232) || (c =? 8233) || (c =? 8239) || (c =? 8287)
  || (c =? 12288) || (c =? 65279).

Fixpoint trimStart (s : JsString) : JsString :=
  match s with
  | c :: rest => if isWhiteSpace c then trimStart rest else s
  | [] => []
  end.

Definition digitValue (c : Z) : option Z :=
  if (48 <=? c) && (c <=? 57) then Some (c - 48) else None.

(** The value of the longest prefix of decimal digits, read after the
    digits worth [acc]; [None] while no digit has been read. *)
Fixpoint readDigits (s : JsString) (acc : option Z) : option Z :=
  match s with
  | c :: rest =>
      match digitValue c with
      | Some d =>
          readDigits rest
            (Some (10 * match acc with Some a => a | None => 0 end + d))
      | None => acc
      end
  | [] => acc
  end.

(** [parseInt(text, 10)]: leading white space is skipped, one sign is
    read, then the longest run of decimal digits; the result is NaN
    ([None]) when there is no digit. The value is the exact integer:
    rounding it to a double never moves it across an integer bound. *)
Definition parseInt (text : JsString) : option Z :=
  let s := trimStart text in
  let sign :=
    match s with c :: _ => if c =? 45 then -1 else 1 | [] => 1 end in
  let s :=
    match s with
    | c :: rest => if (c =? 43) || (c =? 45) then rest else s
    | [] => s
    end in
  match readDigits s None with
  | Some v => Some (sign * v)
  | None => None
  end.

(** ** The settings form *)

(** The [value]s of the three inputs of the setup form. *)
Record Form : Set := mkForm {
  workInput : JsString;
  restInput : JsString;
  roundsInput : JsString
}.

(** [Math.max(min, Math.min(max, val))]. *)
Definition clamp (val min max : Z) : Z := Z.max min (Z.min max val).

(** [sanitizeNumericInput(input, min, max, fallback)], on the input's
    [value]: the number returned and the text written back. *)
Definition sanitizeNumericInput (value : JsString) (min max fallback : Z)
    : Z * JsString :=
  let parsed := parseInt value in
  let parsed := match parsed with None => fallback | Some v => v end in
  let value := clamp parsed min max in
  (value, toString value).

(** [getSettings()]: the settings object and the form it leaves. *)
Definition getSettings (form : Form) : Timer.Config * Form :=
  let '(work, workText) := sanitizeNumericInput (workInput form) 5 300 30 in
  let '(rest, restText) := sanitizeNumericInput (restInput form) 5 300 15 in
  let '(rounds, roundsText) := sanitizeNumericInput (roundsInput form) 1 50 8 in
  (Timer.mkConfig work rest rounds, mkForm workText restText roundsText).

(** How the host's [localStorage] behaves: it works, [setItem] throws
    (no quota left, private browsing), or reading [localStorage] itself
    throws (storage denied to the page). *)
Inductive StorageMode : Set := storage_works | setItem_throws | storage_denied.

(** [localStorage] as the page sees it: the entry under the settings key
    and the behaviour of the host. *)
Record LocalStorage : Set := mkLocalStorage {
  item : option Timer.Config;
  mode : StorageMode
}.

(** [localStorage.setItem(STORAGE_KEY, JSON.stringify(settings))], once
    [localStorage] has been read: the storage it leaves, or [None] when
    it throws. *)
Definition setItem (settings : Timer.Config) (ls : LocalStorage)
    : option LocalStorage :=
  match mode ls with
  | storage_works => Some (mkLocalStorage (Some settings) (mode ls))
  | _ => None
  end.

(** [localStorage.getItem(STORAGE_KEY)]: the entry, or [None] when
    reading [localStorage] throws. *)
Definition getItem (ls : LocalStorage) : option (option Timer.Config) :=
  match mode ls with
  | storage_denied => None
  | _ => Some (item ls)
  end.

(** What the controller holds: the form, [localStorage], and the timer
    ([null] before the first start) with the configuration it was
    created from. *)
Record Page : Set := mkPage {
  form : Form;
  stored : LocalStorage;
  timer : option (Timer.Config * Timer.Machine)
}.

(** [saveSettings()]: [localStorage] is read first, and when that throws
    [getSettings()] does not run; else [getSettings()] sanitises the
    inputs and [setItem] stores the settings or throws. Both exceptions
    are caught and ignored. *)
Definition saveSettings (page : Page) : Page :=
  match mode (stored page) with
  | storage_denied => page
  | _ =>
      let '(settings, form') := getSettings (form page) in
      match setItem settings (stored page) with
      | Some ls => mkPage form' ls (timer page)
      | None => mkPage form' (stored page) (timer page)
      end
  end.

(** [handleStart(e)]: the settings are read, saved, and a timer is
    created from them and started. *)
Definition handleStart (page : Page) : Page :=
  let '(settings, form') := getSettings (form page) in
  let page := mkPage form' (stored page) (timer page) in
  let page := saveSettings page in
  let t := Timer.createTimer settings in
  mkPage (form page) (stored page)
    (Some (settings, Timer.step settings Timer.Start t)).

(** ** Vocabulary of the statements *)

(** The number a string of decimal digits denotes, read after the digits
    worth [acc]. *)
Fixpoint uintValue (d : Decimal.uint) (acc : Z) : Z :=
  match d with
  | Decimal.Nil => acc
  | Decimal.D0 l => uintValue l (10 * acc)
  | Decimal.D1 l => uintValue l (10 * acc + 1)
  | Decimal.D2 l => uintValue l (10 * acc + 2)
  | Decimal.D3 l => uintValue l (10 * acc + 3)
  | Decimal.D4 l => uintValue l (10 * acc + 4)
  | Decimal.D5 l => uintValue l (10 * acc + 5)
  | Decimal.D6 l => uintValue l (10 * acc + 6)
  | Decimal.D7 l => uintValue l (10 * acc + 7)
  | Decimal.D8 l => uintValue l (10 * acc + 8)
  | Decimal.D9 l => uintValue l (10 * acc + 9)
  end.

(** The form that shows the three numbers of a configuration. *)
Definition formOf (settings : Timer.Config) : Form :=
  mkForm (toString (Timer.workDuration settings))
    (toString (Timer.restDuration settings))
    (toString (Timer.rounds settings)).

(** [value] is what sanitising [text] must give: the fallback when the
    text does not parse, else the parsed number brought into
    [[min, max]]. *)
Definition sanitizes (text : JsString) (min max fallback value : Z) : Prop :=
  match parseInt text with
  | None => value = fallback
  | Some v =>
      (v < min -> value = min) /\
      (min <= v <= max -> value = v) /\
      (max < v -> value = max)
  end.

End Controller.

(** * The application controller: the page *)

Module App.

Import Timer Controller.

(** ** The page *)

(** The three screens, by the element that carries [screen--active]. *)
Inductive Screen : Set := setup_screen | timer_screen | complete_screen.

(** The three inputs of the setup form. *)
Inductive Field : Set := work_field | rest_field | rounds_field.

(** What the controller reads and writes in the document: the active
    screen, [document.body.dataset.phase], the text of the phase label,
    of the two round counters and of the seconds display, the warning
    class of the timer display, the hidden class of the two icons and the
    [aria-label] of the play/pause button, the total-time text, the
    workout summary and the three inputs. The stroke of the progress
    ring, a floating-point length, is left out. *)
Record Dom : Set := mkDom {
  screen : Screen;
  bodyPhase : JsString;
  phaseLabel : JsString;
  currentRoundText : JsString;
  totalRoundsText : JsString;
  timerSeconds : JsString;
  warning : bool;
  pauseIconHidden : bool;
  playIconHidden : bool;
  playpauseLabel : JsString;
  totalTimeText : JsString;
  summaryText : JsString;
  inputs : Form
}.

Definition set_screen (v : Screen) (d : Dom) : Dom :=
  mkDom v (bodyPhase d) (phaseLabel d) (currentRoundText d) (totalRoundsText
    d) (timerSeconds d) (warning d) (pauseIconHidden d) (playIconHidden d)
    (playpauseLabel d) (totalTimeText d) (summaryText d) (inputs d).

Definition set_bodyPhase (v : JsString) (d : Dom) : Dom :=
  mkDom (screen d) v (phaseLabel d) (currentRoundText d) (totalRoundsText d)
    (timerSeconds d) (warning d) (pauseIconHidden d) (playIconHidden d)
    (playpauseLabel d) (totalTimeText d) (summaryText d) (inputs d).

Definition set_phaseLabel (v : JsString) (d : Dom) : Dom :=
  mkDom (screen d) (bodyPhase d) v (currentRoundText d) (totalRoundsText d)
    (timerSeconds d) (warning d) (pauseIconHidden d) (playIconHidden d)
    (playpauseLabel d) (totalTimeText d) (summaryText d) (inputs d).

Definition set_currentRoundText (v : JsString) (d : Dom) : Dom :=
  mkDom (screen d) (bodyPhase d) (phaseLabel d) v (totalRoundsText d)
    (timerSeconds d) (warning d) (pauseIconHidden d) (playIconHidden d)
    (playpauseLabel d) (totalTimeText d) (summaryText d) (inputs d).

Definition set_totalRoundsText (v : JsString) (d : Dom) : Dom :=
  mkDom (screen d) (bodyPhase d) (phaseLabel d) (currentRoundText d) v
    (timerSeconds d) (warning d) (pauseIconHidden d) (playIconHidden d)
    (playpauseLabel d) (totalTimeText d) (summaryText d) (inputs d).

Definition set_timerSeconds (v : JsString) (d : Dom) : Dom :=
  mkDom (screen d) (bodyPhase d) (phaseLabel d) (currentRoundText d)
    (totalRoundsText d) v (warning d) (pauseIconHidden d) (playIconHidden d)
    (playpauseLabel d) (totalTimeText d) (summaryText d) (inputs d).

Definition set_warning (v : bool) (d : Dom) : Dom :=
  mkDom (screen d) (bodyPhase d) (phaseLabel d) (currentRoundText d)
    (totalRoundsText d) (timerSeconds d) v (pauseIconHidden d)
    (playIconHidden d) (playpauseLabel d) (totalTimeText d) (summaryText d)
    (inputs d).

Definition set_pauseIconHidden (v : bool) (d : Dom) : Dom :=
  mkDom (screen d) (bodyPhase d) (phaseLabel d) (currentRoundText d)
    (totalRoundsText d) (timerSeconds d) (warning d) v (playIconHidden d)
    (playpauseLabel d) (totalTimeText d) (summaryText d) (inputs d).

Definition set_playIconHidden (v : bool) (d : Dom) : Dom :=
  mkDom (screen d) (bodyPhase d) (phaseLabel d) (currentRoundText d)
    (totalRoundsText d) (timerSeconds d) (warning d) (pauseIconHidden d) v
    (playpauseLabel d) (totalTimeText d) (summaryText d) (inputs d).

Definition set_playpauseLabel (v : JsString) (d : Dom) : Dom :=
  mkDom (screen d) (bodyPhase d) (phaseLabel d) (currentRoundText d)
    (totalRoundsText d) (timerSeconds d) (warning d) (pauseIconHidden d)
    (playIconHidden d) v (totalTimeText d) (summaryText d) (inputs d).

Definition set_totalTimeText (v : JsString) (d : Dom) : Dom :=
  mkDom (screen d) (bodyPhase d) (phaseLabel d) (currentRoundText d)
    (totalRoundsText d) (timerSeconds d) (warning d) (pauseIconHidden d)
    (playIconHidden d) (playpauseLabel d) v (summaryText d) (inputs d).

Definition set_summaryText (v : JsString) (d : Dom) : Dom :=
  mkDom (screen d) (bodyPhase d) (phaseLabel d) (currentRoundText d)
    (totalRoundsText d) (timerSeconds d) (warning d) (pauseIconHidden d)
    (playIconHidden d) (playpauseLabel d) (totalTimeText d) v (inputs d).

Definition set_inputs (v : Form) (d : Dom) : Dom :=
  mkDom (screen d) (bodyPhase d) (phaseLabel d) (currentRoundText d)
    (totalRoundsText d) (timerSeconds d) (warning d) (pauseIconHidden d)
    (playIconHidden d) (playpauseLabel d) (totalTimeText d) (summaryText d)
    v.

(** The controller: the document, [localStorage], the variables
    [timer] (with the configuration the timer was created from) and
    [isPaused], and of the wake-lock manager the variable
    [shouldBeActive] and whether the host has [navigator.wakeLock]. *)
Record App : Set := mkApp {
  dom : Dom;
  storage : LocalStorage;
  timer : option (Config * Machine);
  isPaused : bool;
  shouldBeActive : bool;
  wakeLockSupported : bool
}.

Definition set_dom (v : Dom) (a : App) : App :=
  mkApp v (storage a) (timer a) (isPaused a) (shouldBeActive a)
    (wakeLockSupported a).

Definition set_storage (v : LocalStorage) (a : App) : App :=
  mkApp (dom a) v (timer a) (isPaused a) (shouldBeActive a)
    (wakeLockSupported a).

Definition set_timer (v : option (Config * Machine)) (a : App) : App :=
  mkApp (dom a) (storage a) v (isPaused a) (shouldBeActive a)
    (wakeLockSupported a).

Definition set_isPaused (v : bool) (a : App) : App :=
  mkApp (dom a) (storage a) (timer a) v (shouldBeActive a)
    (wakeLockSupported a).

Definition set_shouldBeActive (v : bool) (a : App) : App :=
  mkApp (dom a) (storage a) (timer a) (isPaused a) v (wakeLockSupported a).

Definition set_wakeLockSupported (v : bool) (a : App) : App :=
  mkApp (dom a) (storage a) (timer a) (isPaused a) (shouldBeActive a) v.

Definition onDom (f : Dom -> Dom) (a : App) : App := set_dom (f (dom a)) a.

(** ** Helper functions *)

(** [str.padStart(2, "0")]. *)
Definition padStart2 (str : JsString) : JsString :=
  repeat 48 (2 - length str) ++ str.

Definition formatTime (totalSeconds : Z) : JsString :=
  let m := totalSeconds / 60 in
  let s := Z.rem totalSeconds 60 in
  toString m ++ js ":" ++ padStart2 (toString s).

Definition formatTimerDisplay (ms : Z) : JsString :=
  let totalSeconds := ceilDiv ms 1000 in
  let totalSeconds := if totalSeconds <=? 0 then 0 else totalSeconds in
  toString totalSeconds.

Definition showScreen (id : Screen) : App -> App := onDom (set_screen id).

Definition setPhase (p : JsString) : App -> App := onDom (set_bodyPhase p).

Definition showPauseIcon (a : App) : App :=
  onDom (fun d =>
    set_playpauseLabel (js "Pause workout")
      (set_playIconHidden true (set_pauseIconHidden false d))) a.

Definition showPlayIcon (a : App) : App :=
  onDom (fun d =>
    set_playpauseLabel (js "Resume workout")
      (set_playIconHidden false (set_pauseIconHidden true d))) a.

(** ** The wake-lock manager, up to its first [await] *)

(** [WakeLockManager.request()]: without [navigator.wakeLock] it returns
    at once; otherwise it records that the lock is wanted and goes on
    asynchronously. *)
Definition wakeLockRequest (a : App) : App :=
  if negb (wakeLockSupported a) then a else set_shouldBeActive true a.

(** [WakeLockManager.release()]. *)
Definition wakeLockRelease (a : App) : App := set_shouldBeActive false a.

(** ** Settings *)

Definition getSettings (a : App) : Config * App :=
  let '(settings, form') := Controller.getSettings (inputs (dom a)) in
  (settings, onDom (set_inputs form') a).

(** [saveSettings()]: [localStorage] is read first, and when that throws
    [getSettings()] does not run; else [getSettings()] sanitises the
    inputs and [setItem] stores the settings or throws. Both exceptions
    are caught and ignored. *)
Definition saveSettings (a : App) : App :=
  match mode (storage a) with
  | storage_denied => a
  | _ =>
      let '(settings, a) := getSettings a in
      match setItem settings (storage a) with
      | Some ls => set_storage ls a
      | None => a
      end
  end.

(** [loadSettings()]: each stored value that is not zero is clamped and
    written to its input; nothing is loaded when there is no entry or
    when [getItem] throws. *)
Definition loadSettings (a : App) : App :=
  match getItem (storage a) with
  | None | Some None => a
  | Some (Some s) =>
      let f := inputs (dom a) in
      let f :=
        if workDuration s =? 0 then f
        else mkForm (toString (clamp (workDuration s) 5 300))
               (restInput f) (roundsInput f) in
      let f :=
        if restDuration s =? 0 then f
        else mkForm (workInput f)
               (toString (clamp (restDuration s) 5 300)) (roundsInput f) in
      let f :=
        if rounds s =? 0 then f
        else mkForm (workInput f) (restInput f)
               (toString (clamp (rounds s) 1 50)) in
      onDom (set_inputs f) a
  end.

Definition updateTotalTime (a : App) : App :=
  let '(s, a) := getSettings a in
  let total :=
    workDuration s * rounds s + restDuration s * (rounds s - 1) in
  onDom (set_totalTimeText (formatTime total)) a.

(** ** Timer callbacks *)

Definition onTick (timeRemaining phaseDuration : Z) (status : Status)
    (a : App) : App :=
  let a := onDom (set_timerSeconds (formatTimerDisplay timeRemaining)) a in
  let secs := ceilDiv timeRemaining 1000 in
  if (secs <=? 3) && negb (status_eqb status COUNTDOWN)
  then onDom (set_warning true) a
  else onDom (set_warning false) a.

Definition onPhaseChange (phase : Status) (a : App) : App :=
  let a :=
    match phase with
    | COUNTDOWN =>
        setPhase (js "countdown") (onDom (set_phaseLabel (js "GET READY")) a)
    | WORK => setPhase (js "work") (onDom (set_phaseLabel (js "WORK")) a)
    | REST => setPhase (js "rest") (onDom (set_phaseLabel (js "REST")) a)
    | _ => a
    end in
  onDom (set_warning false) a.

Definition onRoundChange (current total : Z) (a : App) : App :=
  onDom (fun d =>
    set_totalRoundsText (toString total)
      (set_currentRoundText (toString current) d)) a.

Definition onComplete (rounds workDuration restDuration : Z) (a : App) : App :=
  let totalWork := workDuration * rounds in
  let totalRest := restDuration * (rounds - 1) in
  let totalTime := totalWork + totalRest + 3 in
  let a :=
    onDom (set_summaryText
             (toString rounds ++ js " rounds completed in "
              ++ formatTime totalTime ++ js " (" ++ toString workDuration
              ++ js "s work / " ++ toString restDuration ++ js "s rest)")) a in
  let a := setPhase (js "idle") a in
  let a := showScreen complete_screen a in
  wakeLockRelease a.

(** [HiitSound.play(type)] only drives the audio context. *)
Definition onSound (cue : Cue) (a : App) : App := a.

Definition onStateChange (status : Status) (a : App) : App :=
  match status with
  | PAUSED => showPlayIcon (set_isPaused true a)
  | IDLE =>
      let a := set_isPaused false a in
      let a := setPhase (js "idle") a in
      let a := showScreen setup_screen a in
      wakeLockRelease a
  | _ => showPauseIcon (set_isPaused false a)
  end.

(** The controller's handler for one callback of the timer. *)
Definition deliver (c : Callback) (a : App) : App :=
  match c with
  | OnTick t p s _ _ => onTick t p s a
  | OnPhaseChange ph => onPhaseChange ph a
  | OnRoundChange c t => onRoundChange c t a
  | OnComplete r w d => onComplete r w d a
  | OnSound cue => onSound cue a
  | OnStateChange s => onStateChange s a
  end.

(** A call into the timer held in [timer]: the timer moves, and each
    callback it invokes runs its handler, in call order. The handlers
    never touch the timer. *)
Definition callTimer (op : Op) (a : App) : App :=
  match timer a with
  | None => a
  | Some (config, m) =>
      fold_left (fun acc c => deliver c acc) (output config op m)
        (set_timer (Some (config, step config op m)) a)
  end.

(** ** Event handlers *)

Definition handleStart (a : App) : App :=
  let '(settings, a) := getSettings a in
  let a := saveSettings a in
  let a := set_timer (Some (settings, createTimer settings)) a in
  let a :=
    onDom (fun d =>
      set_totalRoundsText (toString (rounds settings))
        (set_currentRoundText (js "1") d)) a in
  let a := set_isPaused false a in
  let a := showPauseIcon a in
  let a := showScreen timer_screen a in
  let a := callTimer Start a in
  wakeLockRequest a.

Definition handlePlayPause (a : App) : App :=
  match timer a with
  | None => a
  | Some _ => if isPaused a then callTimer Resume a else callTimer Pause a
  end.

Definition handleReset (a : App) : App :=
  match timer a with
  | None => a
  | Some _ => set_timer None (callTimer Reset a)
  end.

Definition handleSkip (a : App) : App :=
  match timer a with
  | None => a
  | Some _ =>
      let a := if isPaused a then showPauseIcon (set_isPaused false a) else a in
      callTimer Skip a
  end.

Definition handleDone (a : App) : App :=
  let a := setPhase (js "idle") a in
  let a := showScreen setup_screen a in
  set_timer None a.

Definition handleInputChange (a : App) : App :=
  saveSettings (updateTotalTime a).

(** A JavaScript number that may be NaN. *)
Definition Num : Set := option Z.

Definition numAdd (a b : Num) : Num :=
  match a, b with Some x, Some y => Some (x + y) | _, _ => None end.

(** [Math.min] and [Math.max]: NaN when an argument is NaN. *)
Definition numMin (a b : Num) : Num :=
  match a, b with Some x, Some y => Some (Z.min x y) | _, _ => None end.

Definition numMax (a b : Num) : Num :=
  match a, b with Some x, Some y => Some (Z.max x y) | _, _ => None end.

(** [clamp] on numbers that may be NaN. *)
Definition clampNum (val min max : Num) : Num := numMax min (numMin max val).

(** [String(n)]: "NaN", or the digits of a number (plain decimal below
    10^21, see [toString]). Whatever a stepper writes, the [getSettings]
    of [updateTotalTime] sanitises it at once. *)
Definition numToString (n : Num) : JsString :=
  match n with Some z => toString z | None => js "NaN" end.

(** [parseInt(text, 10) || 0]. *)
Definition parseIntOr0 (text : JsString) : Z :=
  match parseInt text with
  | Some v => v
  | None => 0
  end.

Definition fieldValue (f : Field) (form : Form) : JsString :=
  match f with
  | work_field => workInput form
  | rest_field => restInput form
  | rounds_field => roundsInput form
  end.

Definition setFieldValue (f : Field) (text : JsString) (form : Form) : Form :=
  match f with
  | work_field => mkForm text (restInput form) (roundsInput form)
  | rest_field => mkForm (workInput form) text (roundsInput form)
  | rounds_field => mkForm (workInput form) (restInput form) text
  end.

(** A click inside the form: on a stepper button or not; the button
    names its input, which exists or not, and carries a delta; the input
    has a [min] and a [max] attribute. *)
Record StepperClick : Set := mkStepperClick {
  target : option Field;
  deltaText : JsString;
  minText : JsString;
  maxText : JsString
}.

Definition handleStepper (click : option StepperClick) (a : App) : App :=
  match click with
  | None => a
  | Some btn =>
      let delta := parseInt (deltaText btn) in
      match target btn with
      | None => a
      | Some input =>
          let min := parseInt (minText btn) in
          let max := parseInt (maxText btn) in
          let current := parseIntOr0 (fieldValue input (inputs (dom a))) in
          let newValue := clampNum (numAdd (Some current) delta) min max in
          let a :=
            onDom (fun d =>
              set_inputs
                (setFieldValue input (numToString newValue) (inputs d)) d) a in
          let a := updateTotalTime a in
          saveSettings a
      end
  end.

(** [init()], on the document as loaded. *)
Definition init (a : App) : App := updateTotalTime (loadSettings a).

(** The controller when the script starts: no timer, not paused, no wake
    lock wanted. *)
Definition boot (d : Dom) (stored : LocalStorage) (supported : bool) : App :=
  init (mkApp d stored None false false supported).

(** ** Events *)

(** What happens to the page: the form is submitted, a control is
    clicked, the user changes an input, the host presents a frame. *)
Inductive Event : Set :=
| Submit
| PlayPauseClick
| ResetClick
| SkipClick
| DoneClick
| FormClick (click : option StepperClick)
| InputChange (field : Field) (text : JsString)
| AnimationFrame (timestamp : Z).

Definition handle (ev : Event) (a : App) : App :=
  match ev with
  | Submit => handleStart a
  | PlayPauseClick => handlePlayPause a
  | ResetClick => handleReset a
  | SkipClick => handleSkip a
  | DoneClick => handleDone a
  | FormClick click => handleStepper click a
  | InputChange field text =>
      handleInputChange
        (onDom (fun d => set_inputs (setFieldValue field text (inputs d)) d) a)
  | AnimationFrame ts => callTimer (Frame ts) a
  end.

(** ** Vocabulary of the statements *)

(** A control receives events only while its screen is the active one:
    the form on the setup screen, the three workout buttons on the timer
    screen, the done button on the complete screen. Frames come at any
    time. *)
Definition enabled (ev : Event) (a : App) : bool :=
  match ev, screen (dom a) with
  | (Submit | FormClick _ | InputChange _ _), setup_screen => true
  | (PlayPauseClick | ResetClick | SkipClick), timer_screen => true
  | DoneClick, complete_screen => true
  | AnimationFrame _, _ => true
  | _, _ => false
  end.

(** The pages the user can bring about: the script starts on a document
    whose setup screen is the active one, then events come to enabled
    controls. *)
Inductive pageReachable : App -> Prop :=
| page_boot : forall (d : Dom) (stored : LocalStorage) (supported : bool),
    screen d = setup_screen -> pageReachable (boot d stored supported)
| page_event : forall (ev : Event) (a : App),
    pageReachable a -> enabled ev a = true -> pageReachable (handle ev a).

(** The label and the [data-phase] value of a phase. *)
Definition labelOf (ph : Status) : JsString :=
  match ph with
  | COUNTDOWN => js "GET READY"
  | WORK => js "WORK"
  | REST => js "REST"
  | _ => []
  end.

Definition cssOf (ph : Status) : JsString :=
  match ph with
  | COUNTDOWN => js "countdown"
  | WORK => js "work"
  | REST => js "rest"
  | _ => js "idle"
  end.

(** The seconds of work and rest of a configuration. *)
Definition totalSeconds (s : Config) : Z :=
  workDuration s * rounds s + restDuration s * (rounds s - 1).

(** The summary shown for a completed workout. *)
Definition summaryOf (s : Config) : JsString :=
  toString (rounds s) ++ js " rounds completed in "
  ++ formatTime (workDuration s * rounds s + restDuration s * (rounds s - 1)
                 + 3)
  ++ js " (" ++ toString (workDuration s) ++ js "s work / "
  ++ toString (restDuration s) ++ js "s rest)".

(** The form shows a configuration in range, and the total time shown is
    that of this configuration. *)
Definition FormOk (a : App) : Prop :=
  exists s : Config,
    valid s /\ inputs (dom a) = formOf s /\
    totalTimeText (dom a) = formatTime (totalSeconds s).

(** The page shows the timer [m] of configuration [config]: the paused
    flag, the icons and the label of the play/pause button, the active
    screen, the wanted wake lock, the round counters, and the phase label
    and [data-phase] while in a phase, or "idle" and the summary once
    COMPLETE. *)
Definition Agrees (config : Config) (m : Machine) (a : App) : Prop :=
  status m <> IDLE /\
  isPaused a = status_eqb (status m) PAUSED /\
  pauseIconHidden (dom a) = isPaused a /\
  playIconHidden (dom a) = negb (isPaused a) /\
  playpauseLabel (dom a)
  = (if isPaused a then js "Resume workout" else js "Pause workout") /\
  screen (dom a)
  = (if status_eqb (status m) COMPLETE then complete_screen
     else timer_screen) /\
  shouldBeActive a = wakeLockSupported a && active (phase m) /\
  currentRoundText (dom a) = toString (currentRound m) /\
  totalRoundsText (dom a) = toString (totalRounds m) /\
  (if active (phase m)
   then phaseLabel (dom a) = labelOf (phase m) /\
        bodyPhase (dom a) = cssOf (phase m)
   else bodyPhase (dom a) = js "idle" /\
        summaryText (dom a) = summaryOf config).

(** The page agrees with its timer, if it has one. *)
Definition TimerOk (a : App) : Prop :=
  match timer a with
  | None =>
      screen (dom a) = setup_screen /\ isPaused a = false /\
      shouldBeActive a = false
  | Some (config, m) => valid config /\ Inv config m /\ Agrees config m a
  end.

(** A document with empty texts and the setup screen active, the page
    booted on it with nothing stored, and that page after a submit, one
    frame, a pause and a skip. *)
Definition blankDom : Dom :=
  mkDom setup_screen [] [] [] [] [] false false false [] [] []
    (mkForm [] [] []).

Definition freshPage : App :=
  boot blankDom (mkLocalStorage None storage_works) true.

Definition tickingPage : App :=
  handle (AnimationFrame 0) (handle Submit freshPage).

Definition busyPage : App :=
  handle SkipClick (handle PlayPauseClick tickingPage).

(** The configuration read from an empty form, and the timer of
    [tickingPage]. *)
Definition fallbacks : Config := mkConfig 30 15 8.

Definition tickingTimer : Machine :=
  step fallbacks (Frame 0) (step fallbacks Start (createTimer fallbacks)).

(** Several events in order. *)
Definition handleAll (events : list Event) (a : App) : App :=
  fold_left (fun acc ev => handle ev acc) events a.

(** Whether timer operations are all frames, and the frames as the
    events the host brings to the page. *)
Definition onlyFrames (ops : list Op) : bool :=
  forallb (fun op => match op with Frame _ => true | _ => false end) ops.

Definition frameEvents (ops : list Op) : list Event :=
  flat_map (fun op =>
    match op with Frame ts => [AnimationFrame ts] | _ => [] end) ops.

(** The storage after [saveSettings()] has tried to store [settings]:
    with the new entry when [setItem] works, unchanged when it throws. *)
Definition saved (settings : Config) (ls : LocalStorage) : LocalStorage :=
  match setItem settings ls with
  | Some ls' => ls'
  | None => ls
  end.

(** Whether a number is a safe integer: computing with such numbers the
    code's doubles are exact, and [String] prints them in plain
    decimal. *)
Definition safeInteger (n : Z) : bool := Z.abs n <=? maxSafeInteger.

(** The range and the fallback of each field. *)
Definition fieldMin (f : Field) : Z :=
  match f with rounds_field => 1 | _ => 5 end.

Definition fieldMax (f : Field) : Z :=
  match f with rounds_field => 50 | _ => 300 end.

Definition fieldFallback (f : Field) : Z :=
  match f with work_field => 30 | rest_field => 15 | rounds_field => 8 end.

Definition fieldOf (f : Field) (s : Config) : Z :=
  match f with
  | work_field => workDuration s
  | rest_field => restDuration s
  | rounds_field => rounds s
  end.

End App.

(** * Properties of the timer *)

Module TimerFacts.

Import Timer.

(** ** Proof tools *)

Ltac unfold_timer :=
  cbv [step output perform exec emitted
       start pause resume reset skip handlePhaseEnd tick emitTick
       scheduleTick cancelTick requestAnimationFrame cancelAnimationFrame
       handleOf createTimer getState
       bind ret gets modify call when
       toNumber differs truthy isNull recorded status_eqb Status_eq_dec
       Status_rec Status_rect sumbool_rec sumbool_rect
       set_status set_previousStatus set_currentRound set_totalRounds
       set_timeRemaining set_phaseDuration set_rafId set_lastTimestamp
       set_lastDisplayedSecond set_pending set_frameCounter
       status previousStatus currentRound totalRounds timeRemaining
       phaseDuration rafId lastTimestamp lastDisplayedSecond pending
       frameCounter fst snd negb andb orb
       phase active elapsed expires] in *;
  cbn [app filter existsb] in *; rewrite ?Nat.eqb_refl in *;
  cbn [app filter existsb negb] in *.

Ltac split_ifs :=
  repeat match goal with
  | |- context [if ?b then _ else _] => destruct b eqn:?
  end.

(** The same, leaving a test [entersPhase op s] for when [s] is known. *)
Ltac split_inner_ifs :=
  repeat match goal with
  | |- context [if ?b then _ else _] =>
      lazymatch b with
      | entersPhase _ _ => fail
      | _ => destruct b eqn:?
      end
  end.

(** *** Sequencing *)

Lemma exec_bind {A B : Type} (c : Prog A) (k : A -> Prog B) (m : Machine) :
  exec (bind c k) m = exec (k (fst (fst (c m)))) (exec c m).
Proof.
  unfold exec, bind. destruct (c m) as [[a m1] o1].
  destruct (k a m1) as [[b m2] o2] eqn:E. cbn. rewrite E. reflexivity.
Qed.

Lemma emitted_bind {A B : Type} (c : Prog A) (k : A -> Prog B) (m : Machine) :
  emitted (bind c k) m =
  emitted c m ++ emitted (k (fst (fst (c m)))) (exec c m).
Proof.
  unfold emitted, exec, bind. destruct (c m) as [[a m1] o1].
  destruct (k a m1) as [[b m2] o2] eqn:E. cbn. rewrite E. reflexivity.
Qed.

(** *** The host's frame, when at most one callback is registered *)

Lemma animationFrame_idle (config : Config) (ts : Z) (m : Machine) :
  pending m = [] -> animationFrame config ts m = (tt, m, []).
Proof.
  intros H. unfold animationFrame, bind, gets. rewrite H. reflexivity.
Qed.

Lemma animationFrame_one (config : Config) (ts : Z) (m : Machine) (h : nat) :
  pending m = [h] ->
  animationFrame config ts m = tick config ts (set_pending [] m).
Proof.
  intros H. unfold animationFrame, bind, gets. rewrite H. simpl.
  unfold bind, gets, when. rewrite H. simpl. rewrite Nat.eqb_refl. simpl.
  unfold cancelAnimationFrame, modify, bind. rewrite H. simpl.
  rewrite Nat.eqb_refl. simpl.
  destruct (tick config ts (set_pending [] m)) as [[[] m'] o].
  unfold ret. rewrite app_nil_r. reflexivity.
Qed.

(** *** What one tick does *)

(** A tick that finds the time used up reports zero and ends the phase. *)
Lemma tick_expired (config : Config) (ts : Z) (m : Machine) :
  expires m ts = true ->
  tick config ts m =
  (emitTick ;; handlePhaseEnd config)
    (set_timeRemaining 0 (set_lastTimestamp (Some ts) m)).
Proof.
  destruct m as [s p cur tot tr pd raf [l|] lds pend fc];
    unfold_timer; intros H; rewrite ?Z.sub_diag in *; cbv beta iota zeta in *;
    split_ifs; try discriminate; try lia;
    destruct s; cbn; split_ifs; reflexivity.
Qed.

(** A tick that leaves time on the clock subtracts the capped delta,
    reports and re-schedules itself. *)
Lemma tick_running (config : Config) (ts : Z) (m : Machine) :
  expires m ts = false ->
  tick config ts m =
  (tt,
   exec scheduleTick
     (set_lastDisplayedSecond
        (Some (ceilDiv (timeRemaining m - elapsed m ts) 1000))
        (set_timeRemaining (timeRemaining m - elapsed m ts)
           (set_lastTimestamp (Some ts) m))),
   countdownCue m ts ++
   [OnTick (timeRemaining m - elapsed m ts) (phaseDuration m) (status m)
      (currentRound m) (totalRounds m)]).
Proof.
  unfold countdownCue.
  destruct m as [s p cur tot tr pd raf [l|] lds pend fc];
    unfold_timer; intros H; rewrite ?Z.sub_diag in *; cbv beta iota zeta in *.
  all: destruct lds as [z|]; cbv beta iota zeta.
  all: split_ifs; try discriminate; try lia.
  all: repeat match goal with
       | H : (if ?c then _ else _) = _ |- _ => destruct c eqn:?; try discriminate
       end.
  all: repeat match goal with
       | H : (_ =? _) = true |- _ => apply Z.eqb_eq in H; rewrite <- ?H
       end; reflexivity.
Qed.

(** ** The scenarios of the specification *)

(** Work 30, rest 15, two rounds, every phase skipped: the callbacks in
    call order, with one [onRoundChange] after the start, reporting
    (2, 2) on the way from REST to WORK. *)
Example scenario_30_15_2 :
  run cfg_30_15_2 [Start; Skip; Skip; Skip; Skip] (createTimer cfg_30_15_2)
  = ({| status := COMPLETE; previousStatus := None;
        currentRound := 2; totalRounds := 2;
        timeRemaining := 0; phaseDuration := 30000;
        rafId := None; lastTimestamp := None; lastDisplayedSecond := None;
        pending := []; frameCounter := 4 |},
     [OnPhaseChange COUNTDOWN; OnRoundChange 1 2; OnStateChange COUNTDOWN;
      OnPhaseChange WORK; OnSound cue_start;
      OnPhaseChange REST; OnSound cue_workToRest;
      OnPhaseChange WORK; OnRoundChange 2 2; OnSound cue_restToWork;
      OnComplete 2 30 15; OnSound cue_complete; OnStateChange COMPLETE]).
Proof. reflexivity. Qed.

(** The same workout with every phase left to run out, a frame every
    second: the same phases and the same summary. *)
Example scenario_30_15_2_left_alone :
  let started := step cfg_30_15_2 Start (createTimer cfg_30_15_2) in
  let r := run cfg_30_15_2 (concat (waitOutPhases cfg_30_15_2 4 started))
             started in
  getState (fst r) = mkSnapshot COMPLETE 2 2 0 30000 /\
  phaseChanges (snd r) = [WORK; REST; WORK] /\
  completions (snd r) = [(2, 30, 15)] /\
  length (ticks (snd r)) = 79%nat.
Proof. vm_compute. repeat split; reflexivity. Qed.

(** A skip right after the start, during the countdown. *)
Example scenario_skip_countdown :
  run cfg_30_15_2 [Start; Skip] (createTimer cfg_30_15_2)
  = ({| status := WORK; previousStatus := None;
        currentRound := 1; totalRounds := 2;
        timeRemaining := 30000; phaseDuration := 30000;
        rafId := Some 2%nat; lastTimestamp := None;
        lastDisplayedSecond := None;
        pending := [2%nat]; frameCounter := 2 |},
     [OnPhaseChange COUNTDOWN; OnRoundChange 1 2; OnStateChange COUNTDOWN;
      OnPhaseChange WORK; OnSound cue_start]).
Proof. reflexivity. Qed.

(** The countdown cue sounds once per second boundary in the last three
    seconds of a work phase, not once per frame. *)
Example scenario_countdown_cue :
  snd (run (mkConfig 5 5 1)
         [Start; Skip; Frame 0; Frame 1000; Frame 2000; Frame 2500;
          Frame 2600; Frame 3000]
         (createTimer (mkConfig 5 5 1)))
  = [OnPhaseChange COUNTDOWN; OnRoundChange 1 1; OnStateChange COUNTDOWN;
     OnPhaseChange WORK; OnSound cue_start;
     OnTick 5000 5000 WORK 1 1; OnTick 4000 5000 WORK 1 1;
     OnSound cue_countdown; OnTick 3000 5000 WORK 1 1;
     OnTick 2500 5000 WORK 1 1; OnTick 2400 5000 WORK 1 1;
     OnSound cue_countdown; OnTick 2000 5000 WORK 1 1].
Proof. reflexivity. Qed.

(** A skip from PAUSED keeps the timestamp of the last tick before the
    pause, where [resume()] clears it: the first tick of the next phase
    is charged up to a second after the single skip, nothing after
    resume and skip. *)
Example paused_skip_keeps_timestamp :
  timeRemaining
    (step cfg_30_15_2 (Frame 60000) (step cfg_30_15_2 Skip halted)) = 29000 /\
  timeRemaining
    (step cfg_30_15_2 (Frame 60000)
       (fst (run cfg_30_15_2 [Resume; Skip] halted))) = 30000.
Proof. split; reflexivity. Qed.

(** ** The invariant of reachable states *)

Lemma Inv_create (config : Config) :
  1 <= rounds config -> Inv config (createTimer config).
Proof. intros H. unfold Inv; simpl. repeat split; lia. Qed.

(** While time runs, the host's frame calls [tick] once. *)
Lemma frame_active (config : Config) (ts : Z) (m : Machine) :
  Inv config m -> active (status m) = true ->
  animationFrame config ts m = tick config ts (set_pending [] m).
Proof.
  intros (_ & _ & H) Ha.
  destruct (status m), (previousStatus m); try discriminate; try contradiction;
    destruct H as (_ & h & Hp & _); eapply animationFrame_one; eassumption.
Qed.

(** Otherwise no callback is registered and the frame does nothing. *)
Lemma frame_inactive (config : Config) (ts : Z) (m : Machine) :
  Inv config m -> active (status m) = false ->
  animationFrame config ts m = (tt, m, []).
Proof.
  intros (_ & _ & H) Ha. apply animationFrame_idle.
  destruct (status m), (previousStatus m); try discriminate; try contradiction;
    intuition.
Qed.

Ltac inv_cases m :=
  destruct m as [s p cur tot tr pd raf l lds pend fc];
  destruct s, p as [[]|];
  unfold Inv, phaseInv, scheduled; cbn [status previousStatus totalRounds
    currentRound timeRemaining phaseDuration pending rafId];
  intros HI; try (exfalso; tauto);
  repeat match goal with
  | H : _ /\ _ |- _ => destruct H
  | H : exists _, _ |- _ => destruct H
  end; subst.

Lemma Inv_step (config : Config) (op : Op) (m : Machine) :
  valid config -> Inv config m -> Inv config (step config op m).
Proof.
  intros (Hw & Hr & Hn) HI.
  destruct op as [| | | | |ts].
  6: {
    unfold step, exec, perform.
    destruct (active (status m)) eqn:Ha.
    2: { rewrite (frame_inactive config ts m HI Ha). exact HI. }
    rewrite (frame_active config ts m HI Ha).
    destruct (expires (set_pending [] m) ts) eqn:He.
    - rewrite (tick_expired _ _ _ He). clear He. revert HI Ha.
      inv_cases m; intros Ha; try discriminate;
        unfold_timer; split_ifs; cbn; repeat split; eauto; lia.
    - rewrite (tick_running _ _ _ He). revert He HI Ha.
      inv_cases m; intros He Ha; try discriminate;
        unfold_timer; cbv beta iota zeta in *; cbn;
        repeat split; eauto; try tauto; lia. }
  all: revert HI; inv_cases m.
  all: unfold_timer; split_ifs; cbn.
  all: repeat split; eauto; try tauto; try lia.
Qed.

Lemma reachable_Inv (config : Config) (m : Machine) :
  valid config -> reachable config m -> Inv config m.
Proof.
  intros Hv Hr. induction Hr.
  - apply Inv_create. destruct Hv as (_ & _ & ?). lia.
  - apply Inv_step; assumption.
Qed.

(** The three things a frame can do to a reachable timer. *)
Lemma frame_cases (config : Config) (ts : Z) (m : Machine) :
  Inv config m ->
  (active (status m) = false /\
   perform config (Frame ts) m = (tt, m, [])) \/
  (active (status m) = true /\ expires m ts = true /\
   perform config (Frame ts) m =
   (emitTick ;; handlePhaseEnd config)
     (set_timeRemaining 0 (set_lastTimestamp (Some ts) (set_pending [] m)))) \/
  (active (status m) = true /\ expires m ts = false /\
   perform config (Frame ts) m =
   (tt,
    exec scheduleTick
      (set_lastDisplayedSecond
         (Some (ceilDiv (timeRemaining m - elapsed m ts) 1000))
         (set_timeRemaining (timeRemaining m - elapsed m ts)
            (set_lastTimestamp (Some ts) (set_pending [] m)))),
    countdownCue m ts ++
    [OnTick (timeRemaining m - elapsed m ts) (phaseDuration m) (status m)
       (currentRound m) (totalRounds m)])).
Proof.
  intros HI. cbn [perform].
  destruct (active (status m)) eqn:Ha.
  - right. rewrite (frame_active config ts m HI Ha).
    destruct (expires m ts) eqn:He; [left | right]; repeat split.
    + exact (tick_expired config ts (set_pending [] m) He).
    + exact (tick_running config ts (set_pending [] m) He).
  - left. split; [reflexivity|]. apply frame_inactive; assumption.
Qed.

Ltac frame_split config ts m HI :=
  unfold step, output, exec, emitted;
  destruct (frame_cases config ts m HI) as
    [(Ha & ->) | [(Ha & He & ->) | (Ha & He & ->)]].

Lemma valid_cfg_30_15_2 : valid cfg_30_15_2.
Proof. unfold valid; simpl; lia. Defined.

Lemma reachable_counting : reachable cfg_30_15_2 counting.
Proof. unfold counting. repeat apply reach_step. apply reach_create. Defined.


Lemma reachable_halted : reachable cfg_30_15_2 halted.
Proof. unfold halted. apply reach_step. exact reachable_counting. Defined.

(** ** [totalRounds] is the configured round count *)

Lemma tick_totalRounds (config : Config) (ts : Z) (m : Machine) :
  totalRounds (exec (tick config ts) m) = totalRounds m.
Proof.
  destruct m as [s p cur tot tr pd raf l lds pend fc].
  unfold_timer. destruct l, lds, s; split_ifs; reflexivity.
Qed.

Lemma runCallbacks_totalRounds (config : Config) (ts : Z) (hs : list nat) :
  forall m : Machine,
    totalRounds (exec (runCallbacks config hs ts) m) = totalRounds m.
Proof.
  induction hs as [|h hs IH]; intros m; [reflexivity|].
  cbn [runCallbacks]. rewrite !exec_bind, IH. unfold when.
  destruct (existsb _ _); [|reflexivity].
  rewrite exec_bind, tick_totalRounds. reflexivity.
Qed.

Lemma step_totalRounds (config : Config) (op : Op) (m : Machine) :
  totalRounds m = rounds config ->
  totalRounds (step config op m) = rounds config.
Proof.
  intros H. destruct op as [| | | | |ts].
  6: { unfold step, perform, animationFrame.
       rewrite exec_bind, runCallbacks_totalRounds. exact H. }
  all: destruct m as [s p cur tot tr pd raf l lds pend fc]; cbn in H; subst tot.
  all: unfold_timer; destruct s, p as [[]|], raf as [[]|];
       split_ifs; reflexivity.
Qed.

Lemma reachable_totalRounds (config : Config) (m : Machine) :
  reachable config m -> totalRounds m = rounds config.
Proof.
  induction 1; [reflexivity|]. apply step_totalRounds; assumption.
Qed.

(** ** Reset *)

(** C7: from every reachable state, [reset()] leaves a state whose
    [getState()] snapshot is the one taken right after construction, that
    is status IDLE, round 1, no time remaining, phase duration 0 and the
    configured number of rounds. *)
Theorem reset_restores_initial_snapshot (config : Config) (m : Machine) :
  reachable config m ->
  getState (step config Reset m) = getState (createTimer config) /\
  getState (createTimer config) = mkSnapshot IDLE 1 (rounds config) 0 0.
Proof.
  intros Hr. apply reachable_totalRounds in Hr. split; [|reflexivity].
  destruct m as [s p cur tot tr pd raf l lds pend fc]; cbn in Hr; subst tot.
  unfold_timer. destruct raf as [[]|]; reflexivity.
Qed.

Lemma reset_restores_initial_snapshot_witness :
  getState (step cfg_30_15_2 Reset halted) = getState (createTimer cfg_30_15_2)
  /\ getState (createTimer cfg_30_15_2) = mkSnapshot IDLE 1 2 0 0.
Proof.
  apply (reset_restores_initial_snapshot cfg_30_15_2 halted).
  exact reachable_halted.
Defined.

(** ** Phase durations *)

(** C9: in every reachable state the phase duration is 0, 3000, the work
    duration or the rest duration in milliseconds, and it is 0 exactly in
    status IDLE; PAUSED and COMPLETE keep the last phase's duration. *)
Theorem phaseDuration_values (config : Config) (m : Machine) :
  valid config -> reachable config m ->
  (phaseDuration m = 0 \/ phaseDuration m = 3000 \/
   phaseDuration m = workDuration config * 1000 \/
   phaseDuration m = restDuration config * 1000) /\
  (phaseDuration m = 0 <-> status m = IDLE).
Proof.
  intros Hv Hr. pose proof (reachable_Inv config m Hv Hr) as HI.
  destruct Hv as (Hw & Hd & Hn). revert HI. inv_cases m.
  all: cbn [phaseDuration status]; split;
       [auto 6|split; intros; try reflexivity; try discriminate; lia].
Qed.

Lemma phaseDuration_values_witness :
  (phaseDuration halted = 0 \/ phaseDuration halted = 3000 \/
   phaseDuration halted = workDuration cfg_30_15_2 * 1000 \/
   phaseDuration halted = restDuration cfg_30_15_2 * 1000) /\
  (phaseDuration halted = 0 <-> status halted = IDLE).
Proof.
  apply (phaseDuration_values cfg_30_15_2 halted).
  - exact valid_cfg_30_15_2.
  - exact reachable_halted.
Defined.

(** ** The round counter *)

(** C5: in every reachable state the current round is at most the total;
    a step that takes the timer from the REST phase into the WORK phase
    adds exactly 1 to it, [reset()] and an accepted [start()] set it to 1,
    and every other step leaves it unchanged. *)
Theorem currentRound_bookkeeping (config : Config) (m : Machine) :
  valid config -> reachable config m ->
  currentRound m <= totalRounds m /\
  forall op : Op,
    let m' := step config op m in
    (phase m = REST /\ phase m' = WORK ->
     currentRound m' = currentRound m + 1) /\
    (restarts op m = true -> currentRound m' = 1) /\
    (~ (phase m = REST /\ phase m' = WORK) -> restarts op m = false ->
     currentRound m' = currentRound m).
Proof.
  intros Hv Hr. pose proof (reachable_Inv config m Hv Hr) as HI.
  split; [destruct HI as (_ & ? & _); lia|].
  intros op m'. subst m'. destruct op as [| | | | |ts].
  6: { frame_split config ts m HI; revert Ha; try revert He; revert HI;
       inv_cases m; intros; try discriminate;
       unfold_timer; cbv beta iota zeta; split_ifs; cbn;
       repeat split; intros; try discriminate; try tauto; try lia;
       try (exfalso; intuition discriminate). }
  all: revert HI; inv_cases m; unfold restarts.
  all: unfold_timer; split_ifs; cbn.
  all: repeat split; intros; try discriminate; try tauto; try lia.
  all: try (exfalso; intuition discriminate).
Qed.

Lemma currentRound_bookkeeping_witness :
  currentRound halted <= totalRounds halted /\
  forall op : Op,
    let m' := step cfg_30_15_2 op halted in
    (phase halted = REST /\ phase m' = WORK ->
     currentRound m' = currentRound halted + 1) /\
    (restarts op halted = true -> currentRound m' = 1) /\
    (~ (phase halted = REST /\ phase m' = WORK) ->
     restarts op halted = false ->
     currentRound m' = currentRound halted).
Proof.
  apply (currentRound_bookkeeping cfg_30_15_2 halted).
  - exact valid_cfg_30_15_2.
  - exact reachable_halted.
Defined.

(** ** Pause and resume *)

(** While no tick is registered the host's frames leave the timer alone. *)
Lemma frames_inactive (config : Config) (stamps : list Z) (m : Machine) :
  Inv config m -> active (status m) = false -> frames config stamps m = m.
Proof.
  intros HI Ha. unfold frames.
  induction stamps as [|ts stamps IH]; [reflexivity|].
  cbn [fold_left]. unfold step at 2, exec. cbn [perform].
  rewrite (frame_inactive config ts m HI Ha). exact IH.
Qed.

(** C6: pausing a running phase and resuming it, whatever frames the host
    presents in between and at whatever times, leaves the time remaining
    and the phase duration as they were; and the first tick after the
    resume, at any timestamp, charges nothing against the time remaining. *)
Theorem pause_resume_keeps_clock (config : Config) (m : Machine)
    (stamps : list Z) :
  valid config -> reachable config m -> active (status m) = true ->
  let m' := step config Resume (frames config stamps (step config Pause m)) in
  timeRemaining m' = timeRemaining m /\
  phaseDuration m' = phaseDuration m /\
  status m' = status m /\
  forall ts : Z, timeRemaining (step config (Frame ts) m') = timeRemaining m.
Proof.
  intros Hv Hr Hrun m'.
  pose proof (reachable_Inv config m Hv Hr) as HI.
  assert (HIp : Inv config (step config Pause m)) by (apply Inv_step; assumption).
  assert (Hp : active (status (step config Pause m)) = false).
  { revert Hrun. revert HI. clear.
    inv_cases m; intros; try discriminate; reflexivity. }
  subst m'. rewrite (frames_inactive config stamps _ HIp Hp).
  set (m1 := step config Resume (step config Pause m)).
  assert (HI1 : Inv config m1) by (apply Inv_step; assumption).
  assert (H1 : timeRemaining m1 = timeRemaining m /\
               phaseDuration m1 = phaseDuration m /\
               status m1 = status m /\
               lastTimestamp m1 = None /\ 0 < timeRemaining m).
  { subst m1. revert Hrun. revert HI. clear.
    inv_cases m; intros; try discriminate;
      unfold_timer; repeat split; assumption. }
  destruct H1 as (Ht & Hd & Hs & Hl & Hpos). repeat split; try assumption.
  intros ts. frame_split config ts m1 HI1.
  - rewrite Hs in Ha. congruence.
  - unfold expires, elapsed in He. rewrite Hl, Z.sub_diag in He. cbn in He.
    apply Z.leb_le in He. lia.
  - cbn. unfold elapsed. rewrite Hl, Z.sub_diag. cbn. lia.
Qed.

Lemma pause_resume_keeps_clock_witness :
  let m' :=
    step cfg_30_15_2 Resume
      (frames cfg_30_15_2 [61000; 62000] (step cfg_30_15_2 Pause counting)) in
  timeRemaining m' = timeRemaining counting /\
  phaseDuration m' = phaseDuration counting /\
  status m' = status counting /\
  forall ts : Z,
    timeRemaining (step cfg_30_15_2 (Frame ts) m') = timeRemaining counting.
Proof.
  apply (pause_resume_keeps_clock cfg_30_15_2 counting [61000; 62000]).
  - exact valid_cfg_30_15_2.
  - exact reachable_counting.
  - reflexivity.
Defined.

(** ** The cap on a tick's delta *)

(** C8: when a tick comes more than 1000 ms after the previous one, the
    delta it subtracts is 1000, so the time remaining goes down by at most
    1000 ms in that tick (by exactly 1000 when more than that was left). *)
Theorem tick_delta_capped (config : Config) (m : Machine) (ts previous : Z) :
  valid config ->
  lastTimestamp m = Some previous -> 1000 < ts - previous ->
  elapsed m ts = 1000 /\
  timeRemaining m - timeRemaining (exec (tick config ts) m) <= 1000 /\
  (1000 < timeRemaining m ->
   timeRemaining (exec (tick config ts) m) = timeRemaining m - 1000).
Proof.
  intros (Hw & Hd & Hn) Hl Hgap.
  assert (He : elapsed m ts = 1000).
  { unfold elapsed. rewrite Hl. apply Z.ltb_lt in Hgap. rewrite Hgap.
    reflexivity. }
  split; [exact He|].
  unfold exec. destruct (expires m ts) eqn:Hx.
  - rewrite (tick_expired config ts m Hx).
    unfold expires in Hx. rewrite He in Hx. apply Z.leb_le in Hx.
    destruct m as [s p cur tot tr pd raf l lds pend fc].
    unfold_timer. destruct s; split_ifs; cbn; lia.
  - rewrite (tick_running config ts m Hx). rewrite He. cbn. lia.
Qed.

Lemma tick_delta_capped_witness :
  elapsed counting 5000 = 1000 /\
  timeRemaining counting
    - timeRemaining (exec (tick cfg_30_15_2 5000) counting) <= 1000 /\
  (1000 < timeRemaining counting ->
   timeRemaining (exec (tick cfg_30_15_2 5000) counting)
   = timeRemaining counting - 1000).
Proof.
  apply (tick_delta_capped cfg_30_15_2 counting 5000 1000).
  - exact valid_cfg_30_15_2.
  - reflexivity.
  - reflexivity.
Defined.

(** ** Skip against natural expiry *)




(** ** Skip while paused *)

(** C4, as stated, fails: [resume()] announces the restored status through
    [onStateChange], a [skip()] from PAUSED does not. *)
Lemma paused_skip_omits_resume_notice :
  ~ (forall (config : Config) (m : Machine),
       valid config -> reachable config m -> status m = PAUSED ->
       getState (fst (run config [Resume; Skip] m))
       = getState (step config Skip m) /\
       snd (run config [Resume; Skip] m) = output config Skip m).
Proof.
  intros H.
  destruct (H cfg_30_15_2 halted valid_cfg_30_15_2 reachable_halted eq_refl)
    as [_ Hout].
  vm_compute in Hout. discriminate Hout.
Qed.

(** C4, amended: from a reachable PAUSED state, whose recorded previous
    status is [prev], [skip()] and [resume()] followed by [skip()] leave
    the same snapshot and both leave no recorded previous status
    ([previousStatus] is [null] after either), and the callbacks
    of the pair are [onStateChange(prev)] followed by exactly the callbacks of
    the single [skip()]. *)
Theorem paused_skip_vs_resume_skip (config : Config) (m : Machine)
    (prev : Status) :
  valid config -> reachable config m ->
  status m = PAUSED -> previousStatus m = Some prev ->
  getState (fst (run config [Resume; Skip] m)) = getState (step config Skip m)
  /\ previousStatus (fst (run config [Resume; Skip] m)) = None
  /\ previousStatus (step config Skip m) = None
  /\ snd (run config [Resume; Skip] m)
     = OnStateChange prev :: output config Skip m.
Proof.
  intros Hv Hr Hs Hp.
  pose proof (reachable_Inv config m Hv Hr) as HI. clear Hr Hv.
  cbn [run fst snd]. revert Hs Hp. revert HI.
  inv_cases m; intros; try discriminate;
    match goal with H : Some _ = Some _ |- _ => inversion H; subst end;
    unfold_timer; split_ifs; cbn; try congruence; repeat split; reflexivity.
Qed.

Lemma paused_skip_vs_resume_skip_witness :
  getState (fst (run cfg_30_15_2 [Resume; Skip] halted))
  = getState (step cfg_30_15_2 Skip halted)
  /\ previousStatus (fst (run cfg_30_15_2 [Resume; Skip] halted)) = None
  /\ previousStatus (step cfg_30_15_2 Skip halted) = None
  /\ snd (run cfg_30_15_2 [Resume; Skip] halted)
     = OnStateChange COUNTDOWN :: output cfg_30_15_2 Skip halted.
Proof.
  apply (paused_skip_vs_resume_skip cfg_30_15_2 halted COUNTDOWN).
  - exact valid_cfg_30_15_2.
  - exact reachable_halted.
  - reflexivity.
  - reflexivity.
Defined.

(** ** State-change notifications *)

(** C2, as stated, fails: the phase end that takes COUNTDOWN to WORK
    changes the status and calls no [onStateChange]. *)
Lemma phase_end_without_state_change :
  ~ (forall (config : Config) (op : Op) (m : Machine),
       valid config -> reachable config m ->
       status (step config op m) <> status m ->
       stateChanges (output config op m) = [status (step config op m)]).
Proof.
  intros H.
  assert (Hne : status (step cfg_30_15_2 Skip counting) <> status counting)
    by (vm_compute; discriminate).
  specialize (H cfg_30_15_2 Skip counting valid_cfg_30_15_2
                reachable_counting Hne).
  vm_compute in H. discriminate H.
Qed.

(** C2, amended: whenever a step from a reachable state changes the
    status, either it is a phase end (by skip or by a tick) into WORK or
    REST, which calls [onPhaseChange] once with the new status and never
    [onStateChange], or [onStateChange] is called exactly once, with the
    new status: on start, pause, resume, reset and on entering COMPLETE. *)
Theorem status_change_notifications (config : Config) (op : Op)
    (m : Machine) :
  valid config -> reachable config m ->
  status (step config op m) <> status m ->
  if entersPhase op (status (step config op m))
  then stateChanges (output config op m) = [] /\
       phaseChanges (output config op m) = [status (step config op m)]
  else stateChanges (output config op m) = [status (step config op m)].
Proof.
  intros Hv Hr.
  pose proof (reachable_Inv config m Hv Hr) as HI. clear Hr Hv.
  destruct op as [| | | | |ts].
  6: { frame_split config ts m HI; revert Ha; try revert He; revert HI;
       inv_cases m; intros; try discriminate;
       unfold_timer; cbv beta iota zeta in *; unfold countdownCue;
       split_inner_ifs; cbn in *; try congruence;
       repeat split; reflexivity. }
  all: revert HI; inv_cases m.
  all: unfold_timer; split_inner_ifs; cbn; intros; try congruence.
  all: repeat split; reflexivity.
Qed.

Lemma status_change_notifications_witness :
  if entersPhase Resume (status (step cfg_30_15_2 Resume halted))
  then stateChanges (output cfg_30_15_2 Resume halted) = [] /\
       phaseChanges (output cfg_30_15_2 Resume halted)
       = [status (step cfg_30_15_2 Resume halted)]
  else stateChanges (output cfg_30_15_2 Resume halted)
       = [status (step cfg_30_15_2 Resume halted)].
Proof.
  apply (status_change_notifications cfg_30_15_2 Resume halted).
  - exact valid_cfg_30_15_2.
  - exact reachable_halted.
  - vm_compute. discriminate.
Defined.

(** ** Full runs *)

Lemma phaseChanges_app (a b : list Callback) :
  phaseChanges (a ++ b) = phaseChanges a ++ phaseChanges b.
Proof.
  induction a as [|c a IH]; [reflexivity|].
  destruct c; cbn; rewrite IH; reflexivity.
Qed.

Lemma completions_app (a b : list Callback) :
  completions (a ++ b) = completions a ++ completions b.
Proof.
  induction a as [|c a IH]; [reflexivity|].
  destruct c; cbn; rewrite IH; reflexivity.
Qed.

Lemma Inv_rounds (config : Config) (m : Machine) :
  Inv config m ->
  totalRounds m = rounds config /\
  1 <= currentRound m <= totalRounds m /\
  (phase m = REST -> currentRound m < totalRounds m).
Proof.
  inv_cases m; unfold phase; cbn; repeat split; intros;
    try discriminate; lia.
Qed.

(** A step that keeps the phase changes neither phase nor round and
    announces neither a phase nor the completion. *)
Lemma keeps_spec (config : Config) (op : Op) (m : Machine) :
  Inv config m -> keepsPhase op m = true ->
  phase (step config op m) = phase m /\
  currentRound (step config op m) = currentRound m /\
  totalRounds (step config op m) = totalRounds m /\
  phaseChanges (output config op m) = [] /\
  completions (output config op m) = [].
Proof.
  intros HI Hk0. unfold keepsPhase in Hk0.
  apply andb_prop in Hk0. destruct Hk0 as [Hrun Hk].
  destruct op as [| | | | |ts]; try discriminate Hk.
  4: {
       frame_split config ts m HI.
       - repeat split; reflexivity.
       - rewrite Ha, He in Hk. discriminate Hk.
       - clear Hk He. unfold countdownCue. revert Hrun. revert HI.
         inv_cases m; intros; try discriminate;
           unfold_timer; cbv beta iota zeta; split_ifs; cbn;
           repeat split; reflexivity. }
  all: clear Hk; revert Hrun; revert HI; inv_cases m; intros;
       try discriminate.
  all: unfold_timer; split_ifs; cbn; repeat split; reflexivity.
Qed.

(** What the end of a phase does, phase by phase. *)
Lemma ends_spec (config : Config) (op : Op) (m : Machine) :
  Inv config m -> endsPhase op m = true ->
  previousStatus (step config op m) = None /\
  totalRounds (step config op m) = totalRounds m /\
  match phase m with
  | COUNTDOWN =>
      status (step config op m) = WORK /\
      currentRound (step config op m) = currentRound m /\
      phaseChanges (output config op m) = [WORK] /\
      completions (output config op m) = []
  | WORK =>
      if totalRounds m <=? currentRound m
      then status (step config op m) = COMPLETE /\
           exists pre : list Callback,
             output config op m = pre ++ finale config /\
             phaseChanges pre = [] /\ completions pre = []
      else status (step config op m) = REST /\
           currentRound (step config op m) = currentRound m /\
           phaseChanges (output config op m) = [REST] /\
           completions (output config op m) = []
  | REST =>
      status (step config op m) = WORK /\
      currentRound (step config op m) = currentRound m + 1 /\
      phaseChanges (output config op m) = [WORK] /\
      completions (output config op m) = []
  | _ => False
  end.
Proof.
  intros HI He0. unfold endsPhase in He0.
  apply andb_prop in He0. destruct He0 as [Hrun Hop].
  destruct op as [| | | | |ts]; try discriminate Hop.
  2: { apply andb_prop in Hop. destruct Hop as [Hact Hx].
       frame_split config ts m HI; try congruence. clear Ha He Hx.
       revert Hrun Hact. revert HI.
       inv_cases m; intros; try discriminate;
         unfold_timer; unfold finale; split_ifs; cbn; try congruence;
         repeat split;
         try reflexivity;
         eexists [_]; repeat split; reflexivity. }
  clear Hop. revert Hrun. revert HI.
  inv_cases m; intros; try discriminate;
    unfold_timer; unfold finale; split_ifs; cbn; try congruence;
    repeat split; try reflexivity;
    exists []; repeat split; reflexivity.
Qed.

Lemma upcoming_after_end (config : Config) (op : Op) (m : Machine) :
  Inv config m -> endsPhase op m = true ->
  match upcoming m with
  | ph :: rest =>
      phaseChanges (output config op m) = [ph] /\
      completions (output config op m) = [] /\
      active (phase (step config op m)) = true /\
      upcoming (step config op m) = rest
  | [] =>
      status (step config op m) = COMPLETE /\
      exists pre : list Callback,
        output config op m = pre ++ finale config /\
        phaseChanges pre = [] /\ completions pre = []
  end.
Proof.
  intros HI He. destruct (ends_spec config op m HI He) as (Hp & Ht & H).
  destruct (Inv_rounds config m HI) as (_ & Hc & Hrest).
  assert (Hph : phase (step config op m) = status (step config op m))
    by (unfold phase; rewrite Hp; reflexivity).
  unfold upcoming at 1.
  destruct (phase m) eqn:E; try contradiction.
  - destruct H as (Hs & Hcur & Hpc & Hco). repeat split; auto.
    + rewrite Hph, Hs. reflexivity.
    + unfold upcoming. rewrite Hph, Hs, Ht, Hcur. reflexivity.
  - destruct (totalRounds m <=? currentRound m) eqn:Hle.
    + apply Z.leb_le in Hle.
      replace (Z.to_nat (totalRounds m - currentRound m)) with O by lia.
      exact H.
    + apply Z.leb_gt in Hle.
      replace (Z.to_nat (totalRounds m - currentRound m))
        with (S (Z.to_nat (totalRounds m - currentRound m - 1))) by lia.
      destruct H as (Hs & Hcur & Hpc & Hco). cbn [alternation].
      repeat split; auto.
      * rewrite Hph, Hs. reflexivity.
      * unfold upcoming. rewrite Hph, Hs, Ht, Hcur. reflexivity.
  - destruct H as (Hs & Hcur & Hpc & Hco). repeat split; auto.
    + rewrite Hph, Hs. reflexivity.
    + unfold upcoming. rewrite Hph, Hs, Ht, Hcur. f_equal. lia.
Qed.

Lemma run_cons (config : Config) (op : Op) (ops : list Op) (m : Machine) :
  fst (run config (op :: ops) m) = fst (run config ops (step config op m)) /\
  snd (run config (op :: ops) m)
  = output config op m ++ snd (run config ops (step config op m)).
Proof.
  cbn [run]. destruct (run config ops (step config op m)). split; reflexivity.
Qed.

Lemma run_app (config : Config) (a b : list Op) :
  forall m : Machine,
    fst (run config (a ++ b) m) = fst (run config b (fst (run config a m))) /\
    snd (run config (a ++ b) m)
    = snd (run config a m) ++ snd (run config b (fst (run config a m))).
Proof.
  induction a as [|op a IH]; intros m; [split; reflexivity|].
  rewrite <- app_comm_cons.
  destruct (run_cons config op (a ++ b) m) as [-> ->].
  destruct (run_cons config op a m) as [-> ->].
  destruct (IH (step config op m)) as [-> ->].
  rewrite app_assoc. split; reflexivity.
Qed.

(** The life of one phase announces the next phase, if there is one, and
    the completion otherwise. *)
Lemma segment_spec (config : Config) (ops : list Op) :
  forall m : Machine,
    valid config -> Inv config m -> livesOnePhase config ops m = true ->
    Inv config (fst (run config ops m)) /\
    previousStatus (fst (run config ops m)) = None /\
    match upcoming m with
    | ph :: rest =>
        phaseChanges (snd (run config ops m)) = [ph] /\
        completions (snd (run config ops m)) = [] /\
        active (phase (fst (run config ops m))) = true /\
        upcoming (fst (run config ops m)) = rest
    | [] =>
        status (fst (run config ops m)) = COMPLETE /\
        exists pre : list Callback,
          snd (run config ops m) = pre ++ finale config /\
          phaseChanges pre = [] /\ completions pre = []
    end.
Proof.
  induction ops as [|op ops IH]; intros m Hv HI Hl; [discriminate Hl|].
  destruct (run_cons config op ops m) as [-> ->].
  destruct ops as [|op2 ops].
  - cbn [run fst snd livesOnePhase] in *. rewrite app_nil_r.
    split; [apply Inv_step; assumption|].
    split; [apply (ends_spec config op m HI Hl)|].
    apply upcoming_after_end; assumption.
  - remember (op2 :: ops) as tail eqn:Etail.
    assert (Hl' : keepsPhase op m = true /\
                  livesOnePhase config tail (step config op m) = true).
    { subst tail. cbn [livesOnePhase] in Hl. apply andb_prop in Hl. exact Hl. }
    destruct Hl' as [Hk Hl'].
    destruct (keeps_spec config op m HI Hk) as (Hph & Hcur & Htot & Hpc & Hco).
    assert (HI' : Inv config (step config op m)) by (apply Inv_step; assumption).
    destruct (IH (step config op m) Hv HI' Hl') as (HIr & Hnone & Hr).
    split; [exact HIr|]. split; [exact Hnone|].
    assert (Hup : upcoming (step config op m) = upcoming m)
      by (unfold upcoming; rewrite Hph, Hcur, Htot; reflexivity).
    rewrite Hup in Hr. rewrite phaseChanges_app, completions_app, Hpc, Hco.
    destruct (upcoming m) as [|ph rest]; [|exact Hr].
    destruct Hr as (Hs & pre & Hout & Hp1 & Hp2). split; [exact Hs|].
    exists (output config op m ++ pre). rewrite Hout, app_assoc.
    rewrite phaseChanges_app, completions_app, Hpc, Hco, Hp1, Hp2.
    repeat split; reflexivity.
Qed.

Lemma no_life_outside_phase (config : Config) (ops : list Op) (m : Machine) :
  active (phase m) = false -> livesOnePhase config ops m = false.
Proof.
  intros H. destruct ops as [|op [|op2 ops]]; cbn [livesOnePhase];
    [ reflexivity
    | unfold endsPhase; rewrite H; reflexivity
    | unfold keepsPhase; rewrite H; reflexivity ].
Qed.

Lemma complete_is_no_phase (config : Config) (m : Machine) :
  Inv config m -> status m = COMPLETE -> active (phase m) = false.
Proof. inv_cases m; intros; try discriminate; reflexivity. Qed.

(** The lives of [k] successive phases announce the next [k] phases; the
    life after the last phase announces the completion, and there is none
    after that. *)
Lemma phases_spec (config : Config) (segments : list (list Op)) :
  forall m : Machine,
    valid config -> Inv config m -> active (phase m) = true ->
    livesPhases config segments m = true ->
    (length segments <= S (length (upcoming m)))%nat /\
    ((length segments <= length (upcoming m))%nat ->
     active (phase (fst (run config (concat segments) m))) = true /\
     phaseChanges (snd (run config (concat segments) m))
     = firstn (length segments) (upcoming m) /\
     completions (snd (run config (concat segments) m)) = []) /\
    (length segments = S (length (upcoming m)) ->
     status (fst (run config (concat segments) m)) = COMPLETE /\
     exists pre : list Callback,
       snd (run config (concat segments) m) = pre ++ finale config /\
       phaseChanges pre = upcoming m /\ completions pre = []).
Proof.
  induction segments as [|ops segments IH]; intros m Hv HI Hrun Hl.
  - cbn. repeat split; try lia; try assumption; intros; discriminate.
  - cbn [livesPhases] in Hl. apply andb_prop in Hl. destruct Hl as [Hl1 Hl2].
    destruct (segment_spec config ops m Hv HI Hl1) as (HI1 & _ & H1).
    cbn [concat length].
    destruct (run_app config ops (concat segments) m) as [-> ->].
    set (m1 := fst (run config ops m)) in *.
    destruct (upcoming m) as [|ph rest].
    + destruct H1 as (Hs & pre & Hout & Hp1 & Hp2).
      destruct segments as [|ops2 segments].
      * cbn. repeat split; try lia.
        -- assumption.
        -- exists pre. rewrite app_nil_r. repeat split; assumption.
      * cbn [livesPhases] in Hl2.
        rewrite (no_life_outside_phase config ops2 m1
                   (complete_is_no_phase config m1 HI1 Hs)) in Hl2.
        discriminate Hl2.
    + destruct H1 as (Hpc & Hco & Hrun1 & Hup).
      destruct (IH m1 Hv HI1 Hrun1 Hl2) as (Hk & Hlt & Heq).
      rewrite Hup in *. cbn [length]. repeat split; try lia.
      * apply Hlt. lia.
      * rewrite phaseChanges_app, Hpc. cbn [firstn app]. f_equal.
        apply Hlt. lia.
      * rewrite completions_app, Hco. apply Hlt. lia.
      * apply Heq. lia.
      * destruct Heq as (_ & pre & Hout & Hp1 & Hp2); [lia|].
        exists (snd (run config ops m) ++ pre).
        rewrite Hout, app_assoc, phaseChanges_app, completions_app.
        rewrite Hpc, Hco, Hp1, Hp2. repeat split; reflexivity.
Qed.

Lemma length_alternation (n : nat) : length (alternation n) = (2 * n)%nat.
Proof. induction n as [|n IH]; cbn; [reflexivity|]. rewrite IH. lia. Qed.

Lemma count_alternation (n : nat) :
  count_occ Status_eq_dec (alternation n) COUNTDOWN = O /\
  count_occ Status_eq_dec (alternation n) WORK = n /\
  count_occ Status_eq_dec (alternation n) REST = n.
Proof.
  induction n as [|n (IH0 & IH1 & IH2)]; cbn; [auto|].
  rewrite IH0, IH1, IH2. auto.
Qed.

(** C1: after [start()], let the phases end one after the other, each by
    a skip or by a tick that finds its time used up, with ticks, pauses
    and resumes in between. There are at most [2 * rounds] such phase
    ends; before the last one the timer is still in a phase and has
    announced the first phases of the schedule and no completion; with
    the last one it is COMPLETE, and its callbacks are the announcements
    of one COUNTDOWN, then [rounds] WORK phases alternating with
    [rounds - 1] REST phases, followed by [onComplete] and the closing
    sound and state change. *)
Theorem full_run_visits (config : Config) (segments : list (list Op)) :
  valid config ->
  livesPhases config segments (step config Start (createTimer config)) = true ->
  (length segments <= 2 * Z.to_nat (rounds config))%nat /\
  ((length segments < 2 * Z.to_nat (rounds config))%nat ->
   active (phase (fst (run config (Start :: concat segments)
                         (createTimer config)))) = true /\
   phaseChanges (snd (run config (Start :: concat segments)
                        (createTimer config)))
   = firstn (S (length segments)) (schedule (Z.to_nat (rounds config))) /\
   completions (snd (run config (Start :: concat segments)
                       (createTimer config))) = []) /\
  (length segments = (2 * Z.to_nat (rounds config))%nat ->
   status (fst (run config (Start :: concat segments)
                  (createTimer config))) = COMPLETE /\
   exists pre : list Callback,
     snd (run config (Start :: concat segments) (createTimer config))
     = pre ++ finale config /\
     phaseChanges pre = schedule (Z.to_nat (rounds config)) /\
     completions pre = []) /\
  schedule (Z.to_nat (rounds config))
  = COUNTDOWN :: WORK :: alternation (Nat.pred (Z.to_nat (rounds config))) /\
  count_occ Status_eq_dec (schedule (Z.to_nat (rounds config))) COUNTDOWN
  = 1%nat /\
  count_occ Status_eq_dec (schedule (Z.to_nat (rounds config))) WORK
  = Z.to_nat (rounds config) /\
  count_occ Status_eq_dec (schedule (Z.to_nat (rounds config))) REST
  = Nat.pred (Z.to_nat (rounds config)).
Proof.
  intros Hv Hl.
  set (m0 := step config Start (createTimer config)) in *.
  assert (HI : Inv config m0).
  { apply Inv_step; [exact Hv|]. apply Inv_create.
    destruct Hv as (_ & _ & ?). lia. }
  assert (Hn : 1 <= rounds config) by (destruct Hv as (_ & _ & ?); lia).
  assert (Hup : upcoming m0
                = WORK :: alternation (Nat.pred (Z.to_nat (rounds config)))).
  { subst m0. unfold upcoming. cbn. f_equal. f_equal. lia. }
  assert (Hout : output config Start (createTimer config)
                 = [OnPhaseChange COUNTDOWN; OnRoundChange 1 (rounds config);
                    OnStateChange COUNTDOWN]) by reflexivity.
  destruct (phases_spec config segments m0 Hv HI eq_refl Hl) as (Hk & Hlt & Heq).
  destruct (run_cons config Start (concat segments) (createTimer config))
    as [-> ->].
  fold m0. rewrite Hout.
  rewrite Hup in *. cbn [length] in *. rewrite length_alternation in *.
  destruct (count_alternation (Nat.pred (Z.to_nat (rounds config))))
    as (Hc0 & Hc1 & Hc2).
  unfold schedule.
  repeat split.
  - lia.
  - apply Hlt. lia.
  - cbn. f_equal. apply Hlt. lia.
  - cbn. apply Hlt. lia.
  - apply Heq. lia.
  - destruct Heq as (_ & pre & Hpre & Hp1 & Hp2); [lia|].
    exists ([OnPhaseChange COUNTDOWN; OnRoundChange 1 (rounds config);
             OnStateChange COUNTDOWN] ++ pre).
    rewrite Hpre, app_assoc. repeat split.
    + cbn. rewrite Hp1. reflexivity.
    + cbn. exact Hp2.
  - cbn. rewrite Hc0. reflexivity.
  - cbn. rewrite Hc1. lia.
  - cbn. exact Hc2.
Qed.

Lemma full_run_visits_witness :
  (length sampleWorkout <= 2 * Z.to_nat (rounds cfg_30_15_2))%nat /\
  ((length sampleWorkout < 2 * Z.to_nat (rounds cfg_30_15_2))%nat ->
   active (phase (fst (run cfg_30_15_2 (Start :: concat sampleWorkout)
                         (createTimer cfg_30_15_2)))) = true /\
   phaseChanges (snd (run cfg_30_15_2 (Start :: concat sampleWorkout)
                        (createTimer cfg_30_15_2)))
   = firstn (S (length sampleWorkout))
       (schedule (Z.to_nat (rounds cfg_30_15_2))) /\
   completions (snd (run cfg_30_15_2 (Start :: concat sampleWorkout)
                       (createTimer cfg_30_15_2))) = []) /\
  (length sampleWorkout = (2 * Z.to_nat (rounds cfg_30_15_2))%nat ->
   status (fst (run cfg_30_15_2 (Start :: concat sampleWorkout)
                  (createTimer cfg_30_15_2))) = COMPLETE /\
   exists pre : list Callback,
     snd (run cfg_30_15_2 (Start :: concat sampleWorkout)
            (createTimer cfg_30_15_2))
     = pre ++ finale cfg_30_15_2 /\
     phaseChanges pre = schedule (Z.to_nat (rounds cfg_30_15_2)) /\
     completions pre = []) /\
  schedule (Z.to_nat (rounds cfg_30_15_2))
  = COUNTDOWN :: WORK
    :: alternation (Nat.pred (Z.to_nat (rounds cfg_30_15_2))) /\
  count_occ Status_eq_dec (schedule (Z.to_nat (rounds cfg_30_15_2))) COUNTDOWN
  = 1%nat /\
  count_occ Status_eq_dec (schedule (Z.to_nat (rounds cfg_30_15_2))) WORK
  = Z.to_nat (rounds cfg_30_15_2) /\
  count_occ Status_eq_dec (schedule (Z.to_nat (rounds cfg_30_15_2))) REST
  = Nat.pred (Z.to_nat (rounds cfg_30_15_2)).
Proof.
  apply (full_run_visits cfg_30_15_2 sampleWorkout).
  - exact valid_cfg_30_15_2.
  - reflexivity.
Defined.

(** ** Left alone, the timer completes *)

Lemma ceilDiv_pos (x : Z) : 0 < x -> 1 <= ceilDiv x 1000.
Proof. intros H. unfold ceilDiv. Z.div_mod_to_equations. lia. Qed.

Lemma ceilDiv_last (x : Z) : 0 < x <= 1000 -> ceilDiv x 1000 = 1.
Proof. intros H. unfold ceilDiv. Z.div_mod_to_equations. lia. Qed.

Lemma ceilDiv_step (x : Z) : ceilDiv (x - 1000) 1000 = ceilDiv x 1000 - 1.
Proof. unfold ceilDiv. Z.div_mod_to_equations. lia. Qed.

Lemma Inv_active (config : Config) (m : Machine) :
  Inv config m -> active (status m) = true ->
  phase m = status m /\ 0 < timeRemaining m.
Proof.
  inv_cases m; intros; try discriminate; unfold phase; cbn; split;
    try reflexivity; lia.
Qed.

(** A frame that does not use up the time: what it leaves. *)
Lemma frame_running (config : Config) (ts : Z) (m : Machine) :
  Inv config m -> active (status m) = true -> expires m ts = false ->
  status (step config (Frame ts) m) = status m /\
  lastTimestamp (step config (Frame ts) m) = Some ts /\
  timeRemaining (step config (Frame ts) m) = timeRemaining m - elapsed m ts.
Proof.
  intros HI Hrun Hx. frame_split config ts m HI; try congruence.
  repeat split; reflexivity.
Qed.

Lemma everySecond_lives (config : Config) (count : nat) :
  forall (m : Machine) (l : Z),
    valid config -> Inv config m -> active (status m) = true ->
    lastTimestamp m = Some l ->
    count = Z.to_nat (ceilDiv (timeRemaining m) 1000) ->
    livesOnePhase config (everySecond (l + 1000) count) m = true.
Proof.
  induction count as [|k IH]; intros m l Hv HI Hrun Hl Hc.
  - destruct (Inv_active config m HI Hrun) as [_ Hpos].
    pose proof (ceilDiv_pos _ Hpos). lia.
  - destruct (Inv_active config m HI Hrun) as [Hph Hpos].
    assert (He : elapsed m (l + 1000) = 1000).
    { unfold elapsed. rewrite Hl.
      replace (l + 1000 - l) with 1000 by lia. reflexivity. }
    destruct (Z_le_gt_dec (timeRemaining m) 1000) as [Hle|Hgt].
    + rewrite ceilDiv_last in Hc by lia.
      assert (k = O) by lia. subst k. cbn [everySecond livesOnePhase].
      unfold endsPhase, expires. rewrite Hph, Hrun, He. cbn.
      apply Z.leb_le. lia.
    + assert (Hx : expires m (l + 1000) = false).
      { unfold expires. rewrite He. apply Z.leb_gt. lia. }
      destruct (frame_running config (l + 1000) m HI Hrun Hx)
        as (Hs & Hl' & Ht).
      rewrite He in Ht.
      assert (Hk : k = Z.to_nat (ceilDiv (timeRemaining m - 1000) 1000)).
      { rewrite ceilDiv_step. lia. }
      assert (Hk1 : (1 <= k)%nat).
      { rewrite Hk. pose proof (ceilDiv_pos (timeRemaining m - 1000)). lia. }
      destruct k as [|k']; [lia|].
      cbn [everySecond]. cbn [livesOnePhase].
      apply andb_true_intro. split.
      * unfold keepsPhase. rewrite Hph, Hrun, Hx. reflexivity.
      * apply (IH (step config (Frame (l + 1000)) m) (l + 1000)); auto.
        -- apply Inv_step; assumption.
        -- rewrite Hs. exact Hrun.
        -- rewrite Ht. exact Hk.
Qed.

Lemma waitOut_lives (config : Config) (m : Machine) :
  valid config -> Inv config m -> active (status m) = true ->
  livesOnePhase config (waitOut m) m = true.
Proof.
  intros Hv HI Hrun. unfold waitOut.
  destruct (lastTimestamp m) as [l|] eqn:Hl.
  - apply everySecond_lives; auto.
  - destruct (Inv_active config m HI Hrun) as [Hph Hpos].
    assert (He : elapsed m 0 = 0) by (unfold elapsed; rewrite Hl; reflexivity).
    assert (Hx : expires m 0 = false).
    { unfold expires. rewrite He. apply Z.leb_gt. lia. }
    destruct (frame_running config 0 m HI Hrun Hx) as (Hs & Hl' & Ht).
    rewrite He, Z.sub_0_r in Ht.
    pose proof (ceilDiv_pos _ Hpos) as Hc.
    destruct (Z.to_nat (ceilDiv (timeRemaining m) 1000)) as [|k] eqn:Ek; [lia|].
    cbn [everySecond]. cbn [livesOnePhase].
    apply andb_true_intro. split.
    + unfold keepsPhase. rewrite Hph, Hrun, Hx. reflexivity.
    + apply (everySecond_lives config (S k) (step config (Frame 0) m) 0); auto.
      * apply Inv_step; assumption.
      * rewrite Hs. exact Hrun.
      * rewrite Ht. symmetry. exact Ek.
Qed.

Lemma length_waitOutPhases (config : Config) (k : nat) :
  forall m : Machine, length (waitOutPhases config k m) = k.
Proof. induction k as [|k IH]; intros m; cbn; [|rewrite IH]; reflexivity. Qed.

Lemma waitOutPhases_live (config : Config) (k : nat) :
  forall m : Machine,
    valid config -> Inv config m -> active (status m) = true ->
    (k <= S (length (upcoming m)))%nat ->
    livesPhases config (waitOutPhases config k m) m = true.
Proof.
  induction k as [|k IH]; intros m Hv HI Hrun Hk; [reflexivity|].
  cbn [waitOutPhases livesPhases].
  pose proof (waitOut_lives config m Hv HI Hrun) as Hl. rewrite Hl. cbn.
  destruct (segment_spec config (waitOut m) m Hv HI Hl) as (HI1 & Hnone & H1).
  destruct (upcoming m) as [|ph rest].
  - assert (k = O) by (cbn in Hk; lia). subst k. reflexivity.
  - destruct H1 as (_ & _ & Hact & Hup). apply IH; auto.
    + unfold phase in Hact. rewrite Hnone in Hact. exact Hact.
    + rewrite Hup. cbn in Hk. lia.
Qed.

(** For every configuration in range, a timer that is started and then
    left alone, with a frame every second, goes through all its phases
    and ends COMPLETE. *)
Theorem left_alone_completes (config : Config) :
  valid config ->
  let started := step config Start (createTimer config) in
  let segments :=
    waitOutPhases config (2 * Z.to_nat (rounds config)) started in
  livesPhases config segments started = true /\
  length segments = (2 * Z.to_nat (rounds config))%nat /\
  status (fst (run config (concat segments) started)) = COMPLETE.
Proof.
  intros Hv started segments.
  assert (HI : Inv config started).
  { apply Inv_step; [exact Hv|]. apply Inv_create.
    destruct Hv as (_ & _ & ?). lia. }
  assert (Hn : 1 <= rounds config) by (destruct Hv as (_ & _ & ?); lia).
  assert (Hup : length (upcoming started)
                = Nat.pred (2 * Z.to_nat (rounds config))).
  { subst started. unfold upcoming. cbn [phase previousStatus status step].
    cbn. rewrite length_alternation. lia. }
  assert (Hlen : length segments = (2 * Z.to_nat (rounds config))%nat)
    by apply length_waitOutPhases.
  assert (Hl : livesPhases config segments started = true).
  { apply waitOutPhases_live; auto. rewrite Hup. lia. }
  repeat split; auto.
  destruct (phases_spec config segments started Hv HI eq_refl Hl)
    as (_ & _ & Heq).
  apply Heq. rewrite Hlen, Hup. lia.
Qed.

(** ** Guards: rejected calls *)

(** X1: a call that does not get past its guard (and a frame with no
    registered callback) leaves the whole timer as it is and invokes no
    callback; from a reachable state the converse holds too, every
    accepted call invokes at least one callback. *)
Theorem rejected_iff_silent (config : Config) (op : Op) (m : Machine) :
  valid config -> reachable config m ->
  (accepted op m = false ->
   step config op m = m /\ output config op m = []) /\
  (accepted op m = true -> output config op m <> []).
Proof.
  intros Hv Hr. pose proof (reachable_Inv config m Hv Hr) as HI. clear Hv Hr.
  destruct op as [| | | | |ts].
  6: { unfold accepted.
       frame_split config ts m HI; revert Ha; try revert He; revert HI;
       inv_cases m; intros; try discriminate;
       unfold_timer; unfold countdownCue; cbv beta iota zeta;
       split; intros; try discriminate; try (split; reflexivity);
       split_ifs; cbn; discriminate. }
  all: revert HI; inv_cases m; unfold accepted.
  all: unfold_timer; split_ifs; cbn.
  all: split; intros; try discriminate; try (split; reflexivity).
Qed.

Lemma rejected_iff_silent_witness :
  (accepted Resume counting = false ->
   step cfg_30_15_2 Resume counting = counting /\
   output cfg_30_15_2 Resume counting = []) /\
  (accepted Resume counting = true -> output cfg_30_15_2 Resume counting <> []).
Proof.
  apply (rejected_iff_silent cfg_30_15_2 Resume counting).
  - exact valid_cfg_30_15_2.
  - exact reachable_counting.
Defined.

(** ** The invariants of the data model *)

(** X2: in every reachable state exactly one tick is registered with the
    host while the status is COUNTDOWN, WORK or REST, and [rafId] is its
    handle; none is registered while PAUSED, IDLE or COMPLETE. *)
Theorem one_tick_while_running (config : Config) (m : Machine) :
  valid config -> reachable config m ->
  (active (status m) = true ->
   exists h : nat, pending m = [h] /\ rafId m = Some h) /\
  (active (status m) = false -> pending m = []).
Proof.
  intros Hv Hr. pose proof (reachable_Inv config m Hv Hr) as HI. clear Hv Hr.
  revert HI. inv_cases m; cbn; split; intros; try discriminate;
    try reflexivity; eauto.
Qed.

Lemma one_tick_while_running_witness :
  (active (status counting) = true ->
   exists h : nat, pending counting = [h] /\ rafId counting = Some h) /\
  (active (status counting) = false -> pending counting = []).
Proof.
  apply (one_tick_while_running cfg_30_15_2 counting).
  - exact valid_cfg_30_15_2.
  - exact reachable_counting.
Defined.

(** X3: in every reachable state a previous status is recorded exactly
    while the status is PAUSED, and it is COUNTDOWN, WORK or REST. *)
Theorem previousStatus_while_paused (config : Config) (m : Machine) :
  valid config -> reachable config m ->
  (status m = PAUSED <-> previousStatus m <> None) /\
  (forall p : Status, previousStatus m = Some p -> active p = true).
Proof.
  intros Hv Hr. pose proof (reachable_Inv config m Hv Hr) as HI. clear Hv Hr.
  revert HI. inv_cases m; cbn; repeat split; intros; try discriminate;
    try congruence;
    match goal with H : Some _ = Some _ |- _ => inversion H; reflexivity end.
Qed.

Lemma previousStatus_while_paused_witness :
  (status halted = PAUSED <-> previousStatus halted <> None) /\
  (forall p : Status, previousStatus halted = Some p -> active p = true).
Proof.
  apply (previousStatus_while_paused cfg_30_15_2 halted).
  - exact valid_cfg_30_15_2.
  - exact reachable_halted.
Defined.

(** X4: in every reachable state the time remaining is positive while
    the timer is in a phase, running or paused, and zero in IDLE and in
    COMPLETE. *)
Theorem timeRemaining_sign (config : Config) (m : Machine) :
  valid config -> reachable config m ->
  (active (phase m) = true -> 0 < timeRemaining m) /\
  (active (phase m) = false -> timeRemaining m = 0).
Proof.
  intros Hv Hr. pose proof (reachable_Inv config m Hv Hr) as HI. clear Hv Hr.
  revert HI. inv_cases m; unfold phase; cbn; split; intros;
    try discriminate; try reflexivity; lia.
Qed.

Lemma timeRemaining_sign_witness :
  (active (phase halted) = true -> 0 < timeRemaining halted) /\
  (active (phase halted) = false -> timeRemaining halted = 0).
Proof.
  apply (timeRemaining_sign cfg_30_15_2 halted).
  - exact valid_cfg_30_15_2.
  - exact reachable_halted.
Defined.

(** ** Frames while no time runs *)

(** X5: while the status is PAUSED, IDLE or COMPLETE, frames presented by
    the host at any times change nothing and invoke no callback. *)
Theorem frames_are_silent_when_stopped (config : Config) (m : Machine)
    (stamps : list Z) :
  valid config -> reachable config m -> active (status m) = false ->
  run config (List.map Frame stamps) m = (m, []).
Proof.
  intros Hv Hr Ha. pose proof (reachable_Inv config m Hv Hr) as HI.
  clear Hv Hr. induction stamps as [|ts stamps IH]; [reflexivity|].
  cbn [List.map run]. unfold step, output, exec, emitted. cbn [perform].
  rewrite (frame_inactive config ts m HI Ha). cbn [fst snd].
  rewrite IH. reflexivity.
Qed.

Lemma frames_are_silent_when_stopped_witness :
  run cfg_30_15_2 (List.map Frame [5000; 90000]) halted = (halted, []).
Proof.
  apply (frames_are_silent_when_stopped cfg_30_15_2 halted [5000; 90000]).
  - exact valid_cfg_30_15_2.
  - exact reachable_halted.
  - reflexivity.
Defined.

(** ** What [onTick] carries *)

(** X6: every [onTick] a reachable timer emits carries a time remaining
    that is not negative, a positive phase duration, a status among
    COUNTDOWN, WORK and REST and a round between 1 and the configured
    total. *)
Theorem onTick_payload (config : Config) (op : Op) (m : Machine) :
  valid config -> reachable config m ->
  Forall (wellFormed config) (output config op m).
Proof.
  intros Hv Hr. pose proof (reachable_Inv config m Hv Hr) as HI.
  destruct Hv as (Hw & Hd & Hn). clear Hr.
  destruct op as [| | | | |ts].
  6: { frame_split config ts m HI; revert Ha; try revert He; revert HI;
       inv_cases m; intros; try discriminate;
       unfold_timer; unfold countdownCue; cbv beta iota zeta in *;
       split_ifs; cbn;
       repeat (apply Forall_cons || apply Forall_nil); cbn; auto;
       repeat split; try reflexivity; lia. }
  all: revert HI; inv_cases m.
  all: unfold_timer; split_ifs; cbn.
  all: repeat (apply Forall_cons || apply Forall_nil); cbn; auto.
Qed.

Lemma onTick_payload_witness :
  Forall (wellFormed cfg_30_15_2) (output cfg_30_15_2 (Frame 2500) counting).
Proof.
  apply (onTick_payload cfg_30_15_2 (Frame 2500) counting).
  - exact valid_cfg_30_15_2.
  - exact reachable_counting.
Defined.

(** ** Time remaining against phase duration *)

Lemma forward_step (config : Config) (op : Op) (m : Machine) :
  valid config -> Inv config m ->
  timeRemaining m <= phaseDuration m ->
  match op, lastTimestamp m with
  | Frame ts, Some l => l <=? ts
  | _, _ => true
  end = true ->
  timeRemaining (step config op m) <= phaseDuration (step config op m) /\
  Forall withinPhase (output config op m).
Proof.
  intros (Hw & Hd & Hn) HI Hle Hf.
  destruct op as [| | | | |ts].
  6: { frame_split config ts m HI; revert Ha; try revert He; revert Hle Hf;
       revert HI;
       inv_cases m; intros; try discriminate;
       unfold_timer; unfold countdownCue; cbv beta iota zeta in *;
       destruct l; split_ifs; cbn in *;
       (split; [try lia|]);
       repeat (apply Forall_cons || apply Forall_nil); cbn; auto; lia. }
  all: clear Hf; revert Hle; revert HI; inv_cases m.
  all: unfold_timer; split_ifs; cbn; intros.
  all: (split; [try lia|]).
  all: repeat (apply Forall_cons || apply Forall_nil); cbn; auto; lia.
Qed.

Lemma forward_run (config : Config) (ops : list Op) :
  forall m : Machine,
    valid config -> Inv config m ->
    timeRemaining m <= phaseDuration m ->
    forwardOnly config ops m = true ->
    timeRemaining (fst (run config ops m))
    <= phaseDuration (fst (run config ops m)) /\
    Forall withinPhase (snd (run config ops m)).
Proof.
  induction ops as [|op ops IH]; intros m Hv HI Hle Hf.
  - cbn. split; [exact Hle | constructor].
  - cbn [forwardOnly] in Hf. apply andb_prop in Hf. destruct Hf as [Hf1 Hf2].
    destruct (forward_step config op m Hv HI Hle Hf1) as [Hle' Hout].
    destruct (run_cons config op ops m) as [-> ->].
    destruct (IH (step config op m) Hv (Inv_step config op m Hv HI) Hle' Hf2)
      as [H1 H2].
    split; [exact H1|]. apply Forall_app. split; assumption.
Qed.

(** X7: as long as frame timestamps never go back, the time remaining
    never exceeds the phase duration, in the state and in every
    [onTick]. *)
Theorem timeRemaining_within_phase (config : Config) (ops : list Op) :
  valid config ->
  forwardOnly config ops (createTimer config) = true ->
  timeRemaining (fst (run config ops (createTimer config)))
  <= phaseDuration (fst (run config ops (createTimer config))) /\
  Forall withinPhase (snd (run config ops (createTimer config))).
Proof.
  intros Hv Hf. apply forward_run; auto.
  - apply Inv_create. destruct Hv as (_ & _ & ?). lia.
  - cbn. lia.
Qed.

Lemma timeRemaining_within_phase_witness :
  timeRemaining
    (fst (run cfg_30_15_2 [Start; Frame 0; Frame 700; Pause; Resume; Frame 9000]
            (createTimer cfg_30_15_2)))
  <= phaseDuration
       (fst (run cfg_30_15_2
               [Start; Frame 0; Frame 700; Pause; Resume; Frame 9000]
               (createTimer cfg_30_15_2))) /\
  Forall withinPhase
    (snd (run cfg_30_15_2 [Start; Frame 0; Frame 700; Pause; Resume; Frame 9000]
            (createTimer cfg_30_15_2))).
Proof.
  apply (timeRemaining_within_phase cfg_30_15_2
           [Start; Frame 0; Frame 700; Pause; Resume; Frame 9000]).
  - exact valid_cfg_30_15_2.
  - reflexivity.
Defined.

(** A frame whose timestamp is before the previous one adds time: the
    condition of X7 cannot be dropped. *)
Example backward_frame_adds_time :
  getState (fst (run cfg_30_15_2 [Start; Frame 5000; Frame 1000]
                   (createTimer cfg_30_15_2)))
  = mkSnapshot COUNTDOWN 1 2 7000 3000.
Proof. reflexivity. Qed.

(** ** No phase ends early *)

Lemma elapsed_le_gap (m : Machine) (l ts : Z) :
  lastTimestamp m = Some l -> elapsed m ts <= ts - l.
Proof.
  intros Hl. unfold elapsed. rewrite Hl.
  destruct (1000 <? ts - l) eqn:E; [apply Z.ltb_lt in E|]; lia.
Qed.

Lemma frames_never_early (config : Config) (stamps : list Z) :
  forall (m : Machine) (l : Z),
    valid config -> Inv config m -> active (status m) = true ->
    lastTimestamp m = Some l ->
    livesOnePhase config (List.map Frame stamps) m = true ->
    l + timeRemaining m <= last stamps 0.
Proof.
  induction stamps as [|t stamps IH]; intros m l Hv HI Hrun Hl Hlive;
    [discriminate Hlive|].
  destruct (Inv_active config m HI Hrun) as [Hph Hpos].
  pose proof (elapsed_le_gap m l t Hl) as Hgap.
  destruct stamps as [|t2 stamps].
  - cbn [List.map livesOnePhase] in Hlive. unfold endsPhase in Hlive.
    rewrite Hph, Hrun in Hlive. cbn in Hlive. unfold expires in Hlive.
    apply Z.leb_le in Hlive. cbn [last]. lia.
  - remember (t2 :: stamps) as tail eqn:Et.
    assert (Hk : keepsPhase (Frame t) m = true /\
                 livesOnePhase config (List.map Frame tail)
                   (step config (Frame t) m) = true).
    { subst tail. cbn [List.map livesOnePhase] in Hlive.
      apply andb_prop in Hlive. exact Hlive. }
    destruct Hk as [Hk Hlive'].
    unfold keepsPhase in Hk. rewrite Hph, Hrun in Hk. cbn in Hk.
    apply negb_true_iff in Hk.
    destruct (frame_running config t m HI Hrun Hk) as (Hs & Hl' & Ht).
    assert (Hlast : last (t :: tail) 0 = last tail 0)
      by (subst tail; reflexivity).
    rewrite Hlast.
    pose proof (IH (step config (Frame t) m) t Hv
                  (Inv_step config (Frame t) m Hv HI)
                  ltac:(rewrite Hs; exact Hrun) Hl' Hlive') as H.
    rewrite Ht in H. lia.
Qed.

(** X8: a phase never ends early on a clock of whole milliseconds. The
    previous tick was at [l], the phase then had [timeRemaining] left,
    not more than its duration, and the frames come at whole-millisecond
    timestamps that never go back and stay within the safe integers (so
    that the code's doubles compute exactly). Then frames alone end the
    phase no sooner than at [l + timeRemaining], however they are
    spaced. *)
Theorem phase_never_ends_early (config : Config) (m : Machine) (l : Z)
    (stamps : list Z) :
  valid config -> reachable config m -> active (status m) = true ->
  lastTimestamp m = Some l ->
  timeRemaining m <= phaseDuration m ->
  wholeClock l stamps = true ->
  livesOnePhase config (List.map Frame stamps) m = true ->
  l + timeRemaining m <= last stamps 0.
Proof.
  intros Hv Hr Hrun Hl _ _. apply frames_never_early; auto.
  apply reachable_Inv; assumption.
Qed.

Lemma phase_never_ends_early_witness :
  1000 + timeRemaining counting <= last [1400; 2700; 2900; 3300] 0.
Proof.
  apply (phase_never_ends_early cfg_30_15_2 counting 1000
           [1400; 2700; 2900; 3300]).
  - exact valid_cfg_30_15_2.
  - exact reachable_counting.
  - reflexivity.
  - reflexivity.
  - vm_compute. discriminate.
  - reflexivity.
  - reflexivity.
Defined.

(** ** The countdown cue *)

(** X9: the "countdown" sound comes only from a frame during WORK or
    REST that leaves the phase running with at most three seconds to go
    and whose second differs from the last one displayed; such a frame
    sounds it once, and records the second. *)
Theorem countdown_cue_rule (config : Config) (op : Op) (m : Machine) :
  valid config -> reachable config m ->
  In (OnSound cue_countdown) (output config op m) ->
  (exists ts : Z, op = Frame ts) /\
  (status m = WORK \/ status m = REST) /\
  status (step config op m) = status m /\
  0 < timeRemaining (step config op m) <= 3000 /\
  lastDisplayedSecond m
  <> Some (ceilDiv (timeRemaining (step config op m)) 1000) /\
  lastDisplayedSecond (step config op m)
  = Some (ceilDiv (timeRemaining (step config op m)) 1000) /\
  countdownCues (output config op m) = 1%nat.
Proof.
  intros Hv Hr. pose proof (reachable_Inv config m Hv Hr) as HI.
  clear Hv Hr. destruct op as [| | | | |ts].
  6: { frame_split config ts m HI; revert Ha; try revert He; revert HI;
       inv_cases m; intros HA; intros; try discriminate HA;
       unfold countdownCue in *; unfold_timer; cbv beta iota zeta in *;
       repeat match goal with
       | H : In _ ?l |- _ => revert H
       end;
       destruct lds as [z|];
       split_ifs; cbn; intros Hin;
       repeat match goal with
       | H : _ \/ _ |- _ => destruct H
       | H : False |- _ => contradiction H
       end; try discriminate;
       repeat match goal with
       | H : (if ?c then _ else _) = _ |- _ =>
           destruct c eqn:?; try discriminate
       end;
       unfold ceilDiv in *;
       (split; [eexists; reflexivity|]);
       (split; [auto|]); (split; [reflexivity|]);
       (split; [Z.div_mod_to_equations; lia|]);
       (split; [try discriminate;
                intros Heq; inversion Heq; subst;
                rewrite Z.eqb_refl in *; discriminate|]);
       split; reflexivity. }
  all: revert HI; inv_cases m.
  all: unfold_timer; split_ifs; cbn; intros Hin.
  all: repeat match goal with
       | H : _ \/ _ |- _ => destruct H
       | H : False |- _ => contradiction H
       end; discriminate.
Qed.

Lemma valid_cfg_5_5_1 : valid cfg_5_5_1.
Proof. unfold valid; simpl; lia. Defined.

Lemma reachable_lastSeconds : reachable cfg_5_5_1 lastSeconds.
Proof. unfold lastSeconds. repeat apply reach_step. apply reach_create. Defined.

Lemma countdown_cue_rule_witness :
  (exists ts : Z, Frame 2000 = Frame ts) /\
  (status lastSeconds = WORK \/ status lastSeconds = REST) /\
  status (step cfg_5_5_1 (Frame 2000) lastSeconds) = status lastSeconds /\
  0 < timeRemaining (step cfg_5_5_1 (Frame 2000) lastSeconds) <= 3000 /\
  lastDisplayedSecond lastSeconds
  <> Some (ceilDiv (timeRemaining (step cfg_5_5_1 (Frame 2000) lastSeconds))
             1000) /\
  lastDisplayedSecond (step cfg_5_5_1 (Frame 2000) lastSeconds)
  = Some (ceilDiv (timeRemaining (step cfg_5_5_1 (Frame 2000) lastSeconds))
            1000) /\
  countdownCues (output cfg_5_5_1 (Frame 2000) lastSeconds) = 1%nat.
Proof.
  apply (countdown_cue_rule cfg_5_5_1 (Frame 2000) lastSeconds).
  - exact valid_cfg_5_5_1.
  - exact reachable_lastSeconds.
  - vm_compute. auto.
Defined.

Lemma second_recorded (config : Config) (ts : Z) (m : Machine) :
  Inv config m -> active (status m) = true -> expires m ts = false ->
  lastDisplayedSecond (step config (Frame ts) m)
  = Some (ceilDiv (timeRemaining (step config (Frame ts) m)) 1000).
Proof.
  intros HI Hrun Hx. frame_split config ts m HI; try congruence. reflexivity.
Qed.

(** X10: the "countdown" sound comes once per second, not once per frame:
    after a frame that left the phase running, a next frame that shows
    the same whole second sounds nothing. *)
Theorem cue_once_per_second (config : Config) (m : Machine) (ts1 ts2 : Z) :
  valid config -> reachable config m ->
  active (status m) = true -> expires m ts1 = false ->
  ceilDiv (timeRemaining
             (step config (Frame ts2) (step config (Frame ts1) m))) 1000
  = ceilDiv (timeRemaining (step config (Frame ts1) m)) 1000 ->
  countdownCues (output config (Frame ts2) (step config (Frame ts1) m)) = O.
Proof.
  intros Hv Hr Hrun Hx. pose proof (reachable_Inv config m Hv Hr) as HI.
  pose proof (second_recorded config ts1 m HI Hrun Hx) as Hsec.
  pose proof (Inv_step config (Frame ts1) m Hv HI) as HI1.
  set (m1 := step config (Frame ts1) m) in *. clearbody m1.
  clear Hr Hrun Hx HI m. unfold step at 1, output, exec, emitted.
  destruct (frame_cases config ts2 m1 HI1) as
    [(Ha & ->) | [(Ha & He & ->) | (Ha & He & ->)]].
  - intros _. reflexivity.
  - intros _. clear Hsec He. revert Ha. revert HI1.
    inv_cases m1; intros; try discriminate;
      unfold_timer; split_ifs; reflexivity.
  - cbn [fst snd]. intros Heq.
    assert (Heq' : ceilDiv (timeRemaining m1 - elapsed m1 ts2) 1000
                   = ceilDiv (timeRemaining m1) 1000) by exact Heq.
    unfold countdownCue. rewrite Heq', Hsec. unfold differs.
    rewrite Z.eqb_refl. reflexivity.
Qed.

Lemma cue_once_per_second_witness :
  countdownCues
    (output cfg_5_5_1 (Frame 2300) (step cfg_5_5_1 (Frame 2000) lastSeconds))
  = O.
Proof.
  apply (cue_once_per_second cfg_5_5_1 lastSeconds 2000 2300).
  - exact valid_cfg_5_5_1.
  - exact reachable_lastSeconds.
  - reflexivity.
  - reflexivity.
  - reflexivity.
Defined.

(** ** What the callbacks have reported *)

Lemma roundChanges_app (a b : list Callback) :
  roundChanges (a ++ b) = roundChanges a ++ roundChanges b.
Proof.
  induction a as [|c a IH]; [reflexivity|].
  destruct c; cbn; rewrite IH; reflexivity.
Qed.

Lemma roundsFrom_app (a b : nat) :
  forall cur tot : Z,
    roundsFrom cur (a + b) tot
    = roundsFrom cur a tot ++ roundsFrom (cur + Z.of_nat a) b tot.
Proof.
  induction a as [|a IH]; intros cur tot.
  - cbn. rewrite Z.add_0_r. reflexivity.
  - cbn [Nat.add roundsFrom app]. rewrite IH. do 3 f_equal. lia.
Qed.

Lemma last_any_default {A : Type} (x : A) (l : list A) (d d' : A) :
  last (x :: l) d = last (x :: l) d'.
Proof.
  revert x. induction l as [|y l IH]; intros x; [reflexivity|].
  change (last (y :: l) d = last (y :: l) d'). apply IH.
Qed.

Lemma last_app_default {A : Type} (a b : list A) (d : A) :
  last (a ++ b) d = last b (last a d).
Proof.
  induction a as [|x a IH]; [reflexivity|].
  destruct a as [|y a].
  - destruct b as [|z b]; [reflexivity|].
    change (last (z :: b) d = last (z :: b) x). apply last_any_default.
  - change (last ((y :: a) ++ b) d = last b (last (y :: a) d)). exact IH.
Qed.

(** What one operation other than [reset()] reports, once started. *)
Lemma report_step (config : Config) (op : Op) (m : Machine) :
  Inv config m -> status m <> IDLE ->
  match op with Reset => false | _ => true end = true ->
  status (step config op m) <> IDLE /\
  currentRound m <= currentRound (step config op m) /\
  roundChanges (output config op m)
  = roundsFrom (currentRound m)
      (Z.to_nat (currentRound (step config op m) - currentRound m))
      (rounds config) /\
  last (phaseChanges (output config op m)) (announcedPhase m)
  = announcedPhase (step config op m).
Proof.
  intros HI Hs Hop. unfold announcedPhase.
  destruct op as [| | | | |ts]; try discriminate Hop; clear Hop.
  5: { frame_split config ts m HI; revert Ha; try revert He; revert Hs;
       revert HI;
       inv_cases m; intros; try discriminate; try congruence;
       unfold countdownCue; unfold_timer; cbv beta iota zeta;
       split_ifs; cbn;
       rewrite ?Z.sub_diag, ?Z.add_simpl_l; cbn;
       repeat split; try discriminate; try reflexivity; lia. }
  all: revert Hs; revert HI; inv_cases m; intros; try congruence.
  all: unfold_timer; split_ifs; cbn.
  all: rewrite ?Z.sub_diag, ?Z.add_simpl_l; cbn.
  all: repeat split; try discriminate; try reflexivity; lia.
Qed.

Lemma report_run (config : Config) (ops : list Op) :
  forall m : Machine,
    valid config -> Inv config m -> status m <> IDLE ->
    resetFree ops = true ->
    status (fst (run config ops m)) <> IDLE /\
    currentRound m <= currentRound (fst (run config ops m)) /\
    roundChanges (snd (run config ops m))
    = roundsFrom (currentRound m)
        (Z.to_nat (currentRound (fst (run config ops m)) - currentRound m))
        (rounds config) /\
    last (phaseChanges (snd (run config ops m))) (announcedPhase m)
    = announcedPhase (fst (run config ops m)).
Proof.
  induction ops as [|op ops IH]; intros m Hv HI Hs Hf.
  - cbn. rewrite Z.sub_diag.
    repeat split; try assumption; try reflexivity; lia.
  - cbn [resetFree forallb] in Hf. apply andb_prop in Hf.
    destruct Hf as [Hop Hf].
    destruct (report_step config op m HI Hs Hop) as (Hs1 & Hc1 & Hr1 & Hp1).
    destruct (run_cons config op ops m) as [-> ->].
    destruct (IH (step config op m) Hv (Inv_step config op m Hv HI) Hs1 Hf)
      as (Hs2 & Hc2 & Hr2 & Hp2).
    repeat split; try assumption; try lia.
    + rewrite roundChanges_app, Hr1, Hr2.
      set (c0 := currentRound m) in *.
      set (c1 := currentRound (step config op m)) in *.
      set (c2 := currentRound (fst (run config ops (step config op m)))) in *.
      replace (Z.to_nat (c2 - c0))
        with (Z.to_nat (c1 - c0) + Z.to_nat (c2 - c1))%nat by lia.
      rewrite roundsFrom_app. do 2 f_equal. lia.
    + rewrite phaseChanges_app, last_app_default, Hp1. exact Hp2.
Qed.

(** X11: from [start()] on, and as long as the timer is not reset,
    [onRoundChange] has reported exactly the rounds 1, 2, ... up to the
    current round, each once and in order, each with the configured
    total. *)
Theorem rounds_reported (config : Config) (ops : list Op) :
  valid config -> resetFree ops = true ->
  roundChanges (snd (run config (Start :: ops) (createTimer config)))
  = roundsFrom 0
      (Z.to_nat (currentRound
                   (fst (run config (Start :: ops) (createTimer config)))))
      (rounds config).
Proof.
  intros Hv Hf.
  assert (Hn : 1 <= rounds config) by (destruct Hv as (_ & _ & ?); lia).
  set (m0 := step config Start (createTimer config)).
  assert (HI : Inv config m0)
    by (apply Inv_step; [exact Hv | apply Inv_create; exact Hn]).
  assert (Hs : status m0 <> IDLE) by discriminate.
  destruct (report_run config ops m0 Hv HI Hs Hf) as (_ & Hc & Hr & _).
  destruct (run_cons config Start ops (createTimer config)) as [-> ->].
  fold m0. rewrite roundChanges_app, Hr.
  change (currentRound m0) with 1 in *.
  change (roundChanges (output config Start (createTimer config)))
    with (roundsFrom 0 1 (rounds config)).
  set (c := currentRound (fst (run config ops m0))) in *.
  replace (Z.to_nat c) with (1 + Z.to_nat (c - 1))%nat by lia.
  rewrite roundsFrom_app. reflexivity.
Qed.

Lemma rounds_reported_witness :
  roundChanges
    (snd (run cfg_30_15_2 (Start :: concat sampleWorkout)
            (createTimer cfg_30_15_2)))
  = roundsFrom 0
      (Z.to_nat (currentRound
                   (fst (run cfg_30_15_2 (Start :: concat sampleWorkout)
                           (createTimer cfg_30_15_2)))))
      (rounds cfg_30_15_2).
Proof.
  apply (rounds_reported cfg_30_15_2 (concat sampleWorkout)).
  - exact valid_cfg_30_15_2.
  - reflexivity.
Defined.

(** X12: from [start()] on, and as long as the timer is not reset, the
    last phase passed to [onPhaseChange] is the phase the timer is in
    (the interrupted one while paused); once COMPLETE it is still the
    last WORK. *)
Theorem last_phase_announced (config : Config) (ops : list Op) :
  valid config -> resetFree ops = true ->
  last (phaseChanges
          (snd (run config (Start :: ops) (createTimer config)))) IDLE
  = announcedPhase (fst (run config (Start :: ops) (createTimer config))).
Proof.
  intros Hv Hf.
  assert (Hn : 1 <= rounds config) by (destruct Hv as (_ & _ & ?); lia).
  set (m0 := step config Start (createTimer config)).
  assert (HI : Inv config m0)
    by (apply Inv_step; [exact Hv | apply Inv_create; exact Hn]).
  assert (Hs : status m0 <> IDLE) by discriminate.
  destruct (report_run config ops m0 Hv HI Hs Hf) as (_ & _ & _ & Hp).
  destruct (run_cons config Start ops (createTimer config)) as [-> ->].
  fold m0. rewrite phaseChanges_app, last_app_default. exact Hp.
Qed.

Lemma last_phase_announced_witness :
  last (phaseChanges
          (snd (run cfg_30_15_2 [Start; Skip; Frame 0; Pause; Frame 9; Skip]
                  (createTimer cfg_30_15_2)))) IDLE
  = announcedPhase
      (fst (run cfg_30_15_2 [Start; Skip; Frame 0; Pause; Frame 9; Skip]
              (createTimer cfg_30_15_2))).
Proof.
  apply (last_phase_announced cfg_30_15_2
           [Skip; Frame 0; Pause; Frame 9; Skip]).
  - exact valid_cfg_30_15_2.
  - reflexivity.
Defined.

(** ** How long a workout takes *)

Lemma frame_stamps (config : Config) (ts : Z) (m : Machine) :
  Inv config m -> active (status m) = true ->
  lastTimestamp (step config (Frame ts) m) = Some ts.
Proof.
  intros HI Hrun.
  frame_split config ts m HI; try congruence; [|reflexivity].
  clear He. revert Ha Hrun. revert HI.
  inv_cases m; intros; try discriminate; unfold_timer; split_ifs; reflexivity.
Qed.

Lemma everySecond_end (config : Config) (count : nat) :
  forall (m : Machine) (l : Z),
    valid config -> Inv config m -> active (status m) = true ->
    lastTimestamp m = Some l ->
    count = Z.to_nat (ceilDiv (timeRemaining m) 1000) ->
    lastTimestamp (fst (run config (everySecond (l + 1000) count) m))
    = Some (l + 1000 * Z.of_nat count).
Proof.
  induction count as [|k IH]; intros m l Hv HI Hrun Hl Hc.
  - destruct (Inv_active config m HI Hrun) as [_ Hpos].
    pose proof (ceilDiv_pos _ Hpos). lia.
  - destruct (Inv_active config m HI Hrun) as [Hph Hpos].
    cbn [everySecond].
    destruct (run_cons config (Frame (l + 1000))
                (everySecond (l + 1000 + 1000) k) m) as [-> _].
    assert (He : elapsed m (l + 1000) = 1000).
    { unfold elapsed. rewrite Hl.
      replace (l + 1000 - l) with 1000 by lia. reflexivity. }
    destruct (Z_le_gt_dec (timeRemaining m) 1000) as [Hle|Hgt].
    + rewrite ceilDiv_last in Hc by lia.
      assert (k = O) by lia. subst k. cbn [everySecond run fst].
      rewrite (frame_stamps config (l + 1000) m HI Hrun). f_equal; lia.
    + assert (Hx : expires m (l + 1000) = false).
      { unfold expires. rewrite He. apply Z.leb_gt. lia. }
      destruct (frame_running config (l + 1000) m HI Hrun Hx)
        as (Hs & Hl' & Ht).
      rewrite He in Ht.
      assert (HI' : Inv config (step config (Frame (l + 1000)) m))
        by (apply Inv_step; assumption).
      assert (Hrun' : active (status (step config (Frame (l + 1000)) m)) = true)
        by (rewrite Hs; exact Hrun).
      assert (Hk : k = Z.to_nat (ceilDiv (timeRemaining
                      (step config (Frame (l + 1000)) m)) 1000))
        by (rewrite Ht, ceilDiv_step; lia).
      rewrite (IH _ (l + 1000) Hv HI' Hrun' Hl' Hk). f_equal; lia.
Qed.

Lemma ceilDiv_exact (x : Z) :
  x mod 1000 = 0 -> 1000 * ceilDiv x 1000 = x.
Proof. intros H. unfold ceilDiv. Z.div_mod_to_equations. lia. Qed.

(** Waiting out a phase that has whole seconds left takes exactly that
    time. *)
Lemma waitOut_end (config : Config) (m : Machine) :
  valid config -> Inv config m -> active (status m) = true ->
  timeRemaining m mod 1000 = 0 ->
  clock (fst (run config (waitOut m) m)) = clock m + timeRemaining m.
Proof.
  intros Hv HI Hrun Hdiv. unfold waitOut, clock at 2.
  destruct (Inv_active config m HI Hrun) as [Hph Hpos].
  pose proof (ceilDiv_pos _ Hpos) as Hc.
  pose proof (ceilDiv_exact _ Hdiv) as Hex.
  destruct (lastTimestamp m) as [l|] eqn:Hl.
  - unfold clock.
    rewrite (everySecond_end config _ m l Hv HI Hrun Hl eq_refl). lia.
  - destruct (run_cons config (Frame 0)
                (everySecond 1000 (Z.to_nat (ceilDiv (timeRemaining m) 1000)))
                m) as [-> _].
    assert (He : elapsed m 0 = 0) by (unfold elapsed; rewrite Hl; reflexivity).
    assert (Hx : expires m 0 = false).
    { unfold expires. rewrite He. apply Z.leb_gt. lia. }
    destruct (frame_running config 0 m HI Hrun Hx) as (Hs & Hl' & Ht).
    rewrite He, Z.sub_0_r in Ht. unfold clock.
    assert (HI' : Inv config (step config (Frame 0) m))
      by (apply Inv_step; assumption).
    assert (Hrun' : active (status (step config (Frame 0) m)) = true)
      by (rewrite Hs; exact Hrun).
    assert (Hk : Z.to_nat (ceilDiv (timeRemaining m) 1000)
                 = Z.to_nat (ceilDiv (timeRemaining
                                        (step config (Frame 0) m)) 1000))
      by (rewrite Ht; reflexivity).
    pose proof (everySecond_end config _ (step config (Frame 0) m) 0
                  Hv HI' Hrun' Hl' Hk) as Hend.
    change (0 + 1000) with 1000 in Hend. rewrite Hend. lia.
Qed.

(** Where the end of a phase lands: at the start of the next phase, with
    its whole duration to go, or in COMPLETE. *)
Lemma ends_fresh (config : Config) (op : Op) (m : Machine) :
  Inv config m -> endsPhase op m = true ->
  timeRemaining (step config op m)
  = duration config (status (step config op m)).
Proof.
  intros HI He0. unfold endsPhase in He0.
  apply andb_prop in He0. destruct He0 as [Hrun Hop].
  destruct op as [| | | | |ts]; try discriminate Hop.
  2: { apply andb_prop in Hop. destruct Hop as [Hact Hx].
       frame_split config ts m HI; try congruence. clear Ha He Hx.
       revert Hrun Hact. revert HI.
       inv_cases m; intros; try discriminate;
         unfold_timer; split_ifs; reflexivity. }
  clear Hop. revert Hrun. revert HI.
  inv_cases m; intros; try discriminate;
    unfold_timer; split_ifs; cbn; try congruence; reflexivity.
Qed.

Lemma segment_fresh (config : Config) (ops : list Op) :
  forall m : Machine,
    valid config -> Inv config m -> livesOnePhase config ops m = true ->
    timeRemaining (fst (run config ops m))
    = duration config (status (fst (run config ops m))).
Proof.
  induction ops as [|op ops IH]; intros m Hv HI Hl; [discriminate Hl|].
  destruct (run_cons config op ops m) as [-> _].
  destruct ops as [|op2 ops].
  - cbn [run fst livesOnePhase] in *. apply ends_fresh; assumption.
  - remember (op2 :: ops) as tail eqn:Etail.
    assert (Hl' : livesOnePhase config tail (step config op m) = true).
    { subst tail. cbn [livesOnePhase] in Hl. apply andb_prop in Hl.
      apply Hl. }
    apply IH; auto. apply Inv_step; assumption.
Qed.

(** The head of the phases to come is the phase a life lands in. *)
Lemma upcoming_durations (config : Config) (m : Machine) :
  Inv config m -> active (status m) = true ->
  timeRemaining m = duration config (status m) ->
  timeToGo config m
  = list_sum_Z (List.map (duration config) (status m :: upcoming m)).
Proof. intros _ _ H. unfold timeToGo. cbn. rewrite H. reflexivity. Qed.

Lemma resetFree_everySecond (count : nat) :
  forall first : Z, resetFree (everySecond first count) = true.
Proof. induction count as [|k IH]; intros first; cbn; auto. Qed.

Lemma resetFree_waitOut (m : Machine) : resetFree (waitOut m) = true.
Proof.
  unfold waitOut. destruct (lastTimestamp m); cbn;
    apply resetFree_everySecond.
Qed.

Lemma duration_whole_seconds (config : Config) (ph : Status) :
  duration config ph mod 1000 = 0.
Proof.
  destruct ph; cbn; try reflexivity; apply Z.mod_mul; discriminate.
Qed.

(** Waiting out one phase after the other keeps the sum of the clock and
    of the time to go. *)
Lemma waitOutPhases_clock (config : Config) (k : nat) :
  forall m : Machine,
    valid config -> Inv config m -> active (status m) = true ->
    timeRemaining m = duration config (status m) ->
    (k <= S (length (upcoming m)))%nat ->
    clock (fst (run config (concat (waitOutPhases config k m)) m))
    + timeToGo config (fst (run config (concat (waitOutPhases config k m)) m))
    = clock m + timeToGo config m.
Proof.
  induction k as [|k IH]; intros m Hv HI Hrun Hfresh Hk; [reflexivity|].
  cbn [waitOutPhases concat].
  destruct (run_app config (waitOut m)
              (concat (waitOutPhases config k (fst (run config (waitOut m) m))))
              m) as [-> _].
  pose proof (waitOut_lives config m Hv HI Hrun) as Hl.
  assert (Hdiv : timeRemaining m mod 1000 = 0)
    by (rewrite Hfresh; apply duration_whole_seconds).
  pose proof (waitOut_end config m Hv HI Hrun Hdiv) as Hclock.
  pose proof (segment_fresh config (waitOut m) m Hv HI Hl) as Hfresh1.
  destruct (segment_spec config (waitOut m) m Hv HI Hl) as (HI1 & Hnone & H1).
  assert (Hs0 : status m <> IDLE) by (intros E; rewrite E in Hrun; discriminate).
  destruct (report_run config (waitOut m) m Hv HI Hs0 (resetFree_waitOut m))
    as (_ & _ & _ & Hlast).
  set (m1 := fst (run config (waitOut m) m)) in *. clearbody m1.
  unfold timeToGo at 2.
  destruct (upcoming m) as [|ph rest] eqn:Hup.
  - destruct H1 as (Hs1 & _).
    assert (k = O) by (cbn in Hk; lia). subst k. cbn [waitOutPhases concat run fst].
    unfold timeToGo, upcoming, phase. rewrite Hnone, Hfresh1, Hs1.
    cbn [duration List.map list_sum_Z fold_right]. rewrite Hclock. ring.
  - destruct H1 as (Hpc & _ & Hact & Hup1).
    assert (Hst1 : status m1 = phase m1)
      by (unfold phase; rewrite Hnone; reflexivity).
    assert (Hph : status m1 = ph).
    { rewrite Hpc in Hlast. cbn in Hlast. unfold announcedPhase in Hlast.
      rewrite Hst1 in *. destruct (phase m1); try discriminate Hact;
        symmetry; exact Hlast. }
    rewrite (IH m1 Hv HI1); auto.
    + unfold timeToGo, list_sum_Z. rewrite Hup1, Hfresh1, Hph, Hclock.
      cbn [List.map fold_right]. ring.
    + rewrite Hst1. exact Hact.
    + rewrite Hup1. cbn in Hk. lia.
Qed.

Lemma sum_alternation (config : Config) (k : nat) :
  list_sum_Z (List.map (duration config) (alternation k))
  = Z.of_nat k * (restDuration config + workDuration config) * 1000.
Proof.
  induction k as [|k IH]; [reflexivity|].
  cbn [alternation List.map list_sum_Z fold_right duration].
  fold (list_sum_Z (List.map (duration config) (alternation k))).
  rewrite IH. lia.
Qed.

(** X13: for every configuration in range, a timer that is started and
    then ticked once a second from time 0 is COMPLETE with its last tick
    at 3 + rounds * work + (rounds - 1) * rest seconds. *)
Theorem left_alone_duration (config : Config) :
  valid config ->
  status
    (fst (run config
            (concat (waitOutPhases config (2 * Z.to_nat (rounds config))
                       (step config Start (createTimer config))))
            (step config Start (createTimer config))))
  = COMPLETE /\
  lastTimestamp
    (fst (run config
            (concat (waitOutPhases config (2 * Z.to_nat (rounds config))
                       (step config Start (createTimer config))))
            (step config Start (createTimer config))))
  = Some ((3 + rounds config * workDuration config
           + (rounds config - 1) * restDuration config) * 1000).
Proof.
  intros Hv.
  set (started := step config Start (createTimer config)).
  set (segments := waitOutPhases config (2 * Z.to_nat (rounds config)) started).
  assert (HI : Inv config started).
  { apply Inv_step; [exact Hv|]. apply Inv_create.
    destruct Hv as (_ & _ & ?). lia. }
  assert (Hn : 1 <= rounds config) by (destruct Hv as (_ & _ & ?); lia).
  assert (Hup : upcoming started
                = WORK :: alternation (Nat.pred (Z.to_nat (rounds config)))).
  { subst started. unfold upcoming. cbn. f_equal. f_equal. lia. }
  assert (Hlen : length (upcoming started)
                 = Nat.pred (2 * Z.to_nat (rounds config))).
  { rewrite Hup. cbn [length]. rewrite length_alternation. lia. }
  assert (Hl : livesPhases config segments started = true).
  { apply waitOutPhases_live; auto. rewrite Hlen. lia. }
  assert (Hk : length segments = S (length (upcoming started))).
  { subst segments. rewrite length_waitOutPhases, Hlen. lia. }
  destruct (phases_spec config segments started Hv HI eq_refl Hl)
    as (_ & _ & Heq).
  destruct (Heq Hk) as (Hs & _).
  split; [exact Hs|].
  pose proof (waitOutPhases_clock config (2 * Z.to_nat (rounds config))
                started Hv HI eq_refl eq_refl
                ltac:(rewrite Hlen; lia)) as Hc.
  fold segments in Hc.
  set (final := fst (run config (concat segments) started)) in *.
  assert (HIf : Inv config final).
  { subst final. clear - Hv HI.
    generalize (concat segments). intros ops. revert HI.
    generalize started. induction ops as [|op ops IH]; intros m HI;
      [exact HI|].
    destruct (run_cons config op ops m) as [-> _].
    apply IH. apply Inv_step; assumption. }
  assert (Hgo : timeToGo config final = 0).
  { clear - HIf Hs. revert Hs. revert HIf.
    inv_cases final; intros; try discriminate. reflexivity. }
  rewrite Hgo in Hc. unfold timeToGo in Hc. rewrite Hup in Hc.
  cbn [List.map list_sum_Z fold_right duration] in Hc.
  fold (list_sum_Z (List.map (duration config)
                      (alternation (Nat.pred (Z.to_nat (rounds config))))))
    in Hc.
  rewrite sum_alternation in Hc.
  change (clock started) with 0 in Hc.
  change (timeRemaining started) with 3000 in Hc.
  assert (Hpred : Z.of_nat (Nat.pred (Z.to_nat (rounds config)))
                  = rounds config - 1) by lia.
  rewrite Hpred in Hc.
  assert (Hpos : 0 < (3 + rounds config * workDuration config
                      + (rounds config - 1) * restDuration config) * 1000).
  { destruct Hv as ((? & ?) & (? & ?) & _). nia. }
  unfold clock in Hc. destruct (lastTimestamp final) as [t|].
  - f_equal. lia.
  - exfalso. lia.
Qed.

Lemma left_alone_duration_witness :
  status
    (fst (run cfg_30_15_2
            (concat (waitOutPhases cfg_30_15_2
                       (2 * Z.to_nat (rounds cfg_30_15_2))
                       (step cfg_30_15_2 Start (createTimer cfg_30_15_2))))
            (step cfg_30_15_2 Start (createTimer cfg_30_15_2))))
  = COMPLETE /\
  lastTimestamp
    (fst (run cfg_30_15_2
            (concat (waitOutPhases cfg_30_15_2
                       (2 * Z.to_nat (rounds cfg_30_15_2))
                       (step cfg_30_15_2 Start (createTimer cfg_30_15_2))))
            (step cfg_30_15_2 Start (createTimer cfg_30_15_2))))
  = Some ((3 + rounds cfg_30_15_2 * workDuration cfg_30_15_2
           + (rounds cfg_30_15_2 - 1) * restDuration cfg_30_15_2) * 1000).
Proof.
  apply (left_alone_duration cfg_30_15_2). exact valid_cfg_30_15_2.
Defined.

End TimerFacts.

(** * Properties of the settings *)

Module ControllerFacts.

Import Controller.

Lemma clamp_range (val min max : Z) :
  min <= max -> min <= clamp val min max <= max.
Proof. unfold clamp. lia. Qed.

(** ** Printing and parsing numbers *)

Lemma js_cons (c : ascii) (s : string) :
  js (String c s) = Z.of_N (N_of_ascii c) :: js s.
Proof. reflexivity. Qed.

Lemma readDigits_digit (c : Z) (rest : JsString) (acc : Z) :
  48 <= c <= 57 ->
  readDigits (c :: rest) (Some acc)
  = readDigits rest (Some (10 * acc + (c - 48))).
Proof.
  intros H. cbn [readDigits]. unfold digitValue.
  replace ((48 <=? c) && (c <=? 57)) with true; [reflexivity|].
  symmetry. apply andb_true_intro. split; apply Z.leb_le; lia.
Qed.

Ltac eval_char :=
  match goal with
  | |- context [Z.of_N (N_of_ascii ?c)] =>
      let v := eval vm_compute in (Z.of_N (N_of_ascii c)) in
      change (Z.of_N (N_of_ascii c)) with v
  end.

Lemma readDigits_printed (d : Decimal.uint) :
  forall acc : Z,
    readDigits (js (NilEmpty.string_of_uint d)) (Some acc)
    = Some (uintValue d acc).
Proof.
  induction d; intros acc; cbn [NilEmpty.string_of_uint uintValue];
    [reflexivity|..];
    rewrite js_cons; eval_char; rewrite readDigits_digit by lia;
    rewrite IHd; do 2 f_equal; lia.
Qed.

Lemma uintValue_acc (d : Decimal.uint) :
  forall acc : positive,
    Z.pos (Pos.of_uint_acc d acc) = uintValue d (Z.pos acc).
Proof.
  induction d; intros acc; cbn [Pos.of_uint_acc uintValue];
    try reflexivity; rewrite IHd; f_equal; lia.
Qed.

Lemma uintValue_of_uint (d : Decimal.uint) :
  Z.of_N (Pos.of_uint d) = uintValue d 0.
Proof.
  induction d; cbn [Pos.of_uint uintValue]; try reflexivity;
    try exact IHd; cbn [Z.of_N]; rewrite uintValue_acc; reflexivity.
Qed.

Lemma uintValue_to_uint (p : positive) :
  uintValue (Pos.to_uint p) 0 = Z.pos p /\ Pos.to_uint p <> Decimal.Nil.
Proof.
  pose proof (DecimalPos.Unsigned.of_to p) as H. split.
  - rewrite <- uintValue_of_uint, H. reflexivity.
  - intros E. rewrite E in H. discriminate H.
Qed.

Lemma readDigits_start (c : Z) (rest : JsString) :
  48 <= c <= 57 ->
  readDigits (c :: rest) None = readDigits (c :: rest) (Some 0).
Proof.
  intros H. cbn [readDigits]. unfold digitValue.
  replace ((48 <=? c) && (c <=? 57)) with true; [reflexivity|].
  symmetry. apply andb_true_intro. split; apply Z.leb_le; lia.
Qed.

Lemma digit_is_no_space (c : Z) : 48 <= c <= 57 -> isWhiteSpace c = false.
Proof.
  intros H. unfold isWhiteSpace.
  repeat match goal with
  | |- context [?a =? ?b] =>
      replace (a =? b) with false by (symmetry; apply Z.eqb_neq; lia)
  end.
  replace (8192 <=? c) with false by (symmetry; apply Z.leb_gt; lia).
  reflexivity.
Qed.

(** [parseInt] of a text that starts with a digit, or with a minus sign
    and a digit. *)
Lemma parseInt_digits (c : Z) (rest : JsString) :
  48 <= c <= 57 ->
  parseInt (c :: rest)
  = match readDigits (c :: rest) (Some 0) with
    | Some v => Some (1 * v)
    | None => None
    end /\
  parseInt (45 :: c :: rest)
  = match readDigits (c :: rest) (Some 0) with
    | Some v => Some (-1 * v)
    | None => None
    end.
Proof.
  intros H. unfold parseInt. cbn [trimStart].
  rewrite (digit_is_no_space c H).
  change (isWhiteSpace 45) with false. cbv iota.
  replace (c =? 45) with false by (symmetry; apply Z.eqb_neq; lia).
  replace (c =? 43) with false by (symmetry; apply Z.eqb_neq; lia).
  change (45 =? 45) with true. change (45 =? 43) with false.
  cbn [orb]. cbv iota. rewrite (readDigits_start c rest H).
  split; reflexivity.
Qed.

Lemma printed_starts_with_digit (d : Decimal.uint) :
  d <> Decimal.Nil ->
  exists (c : Z) (rest : JsString),
    js (NilEmpty.string_of_uint d) = c :: rest /\ 48 <= c <= 57.
Proof.
  intros Hn. destruct d; try congruence;
    cbn [NilEmpty.string_of_uint]; rewrite js_cons; eval_char;
    do 2 eexists; (split; [reflexivity | lia]).
Qed.

Lemma parseInt_printed (p : positive) :
  parseInt (js (NilEmpty.string_of_uint (Pos.to_uint p))) = Some (Z.pos p) /\
  parseInt (45 :: js (NilEmpty.string_of_uint (Pos.to_uint p)))
  = Some (Z.neg p).
Proof.
  destruct (uintValue_to_uint p) as [Hv Hn].
  pose proof (readDigits_printed (Pos.to_uint p) 0) as Hr. rewrite Hv in Hr.
  destruct (printed_starts_with_digit _ Hn) as (c & rest & E & Hc).
  rewrite E in *. destruct (parseInt_digits c rest Hc) as [-> ->].
  rewrite Hr. split; reflexivity.
Qed.

(** The plain decimal digits that [toString] prints parse back to the
    number. *)
Lemma parse_of_print (n : Z) : parseInt (toString n) = Some n.
Proof.
  destruct n as [|p|p]; [reflexivity| |].
  - unfold toString. cbn [Z.to_int NilZero.string_of_int].
    destruct (uintValue_to_uint p) as [_ Hn].
    unfold NilZero.string_of_uint.
    destruct (Pos.to_uint p) eqn:E; try congruence; rewrite <- E;
      apply parseInt_printed.
  - unfold toString. cbn [Z.to_int NilZero.string_of_int].
    destruct (uintValue_to_uint p) as [_ Hn].
    unfold NilZero.string_of_uint.
    destruct (Pos.to_uint p) eqn:E; try congruence; rewrite <- E;
      change (js (String "-" (NilEmpty.string_of_uint (Pos.to_uint p))))
        with (45 :: js (NilEmpty.string_of_uint (Pos.to_uint p)));
      apply parseInt_printed.
Qed.

(** ** Sanitising twice *)

Lemma getSettings_formOf (form : Form) :
  Timer.valid (fst (getSettings form)) /\
  snd (getSettings form) = formOf (fst (getSettings form)).
Proof.
  destruct form as [w r n]. unfold getSettings, sanitizeNumericInput, formOf.
  cbn. unfold Timer.valid. cbn.
  repeat split; apply clamp_range; lia.
Qed.

Lemma getSettings_of_formOf (settings : Timer.Config) :
  Timer.valid settings ->
  getSettings (formOf settings) = (settings, formOf settings).
Proof.
  destruct settings as [w r n]. unfold Timer.valid. cbn.
  intros (Hw & Hr & Hn).
  unfold getSettings, sanitizeNumericInput, formOf. cbn.
  rewrite !parse_of_print. unfold clamp.
  replace (Z.max 5 (Z.min 300 w)) with w by lia.
  replace (Z.max 5 (Z.min 300 r)) with r by lia.
  replace (Z.max 1 (Z.min 50 n)) with n by lia.
  reflexivity.
Qed.

(** X15: [getSettings] is idempotent. It leaves in the inputs exactly the
    text of the three numbers it returns, and a second call returns the
    same numbers and leaves the same texts. *)
Theorem getSettings_idempotent (form : Form) :
  snd (getSettings form) = formOf (fst (getSettings form)) /\
  getSettings (snd (getSettings form)) = getSettings form.
Proof.
  destruct (getSettings_formOf form) as [Hv Hf]. split; [exact Hf|].
  rewrite Hf at 1. rewrite (getSettings_of_formOf _ Hv).
  rewrite <- Hf. destruct (getSettings form); reflexivity.
Qed.

(** X16: what [handleStart] stores, if the host lets it store anything,
    is the configuration it starts the timer with. It leaves exactly the
    three numbers of that configuration in the inputs; when
    [localStorage] works the entry is that configuration, and when
    [localStorage] throws the storage is left as it was. *)
Theorem handleStart_saves_what_runs (page : Page) :
  form (handleStart page) = formOf (fst (getSettings (form page))) /\
  option_map fst (timer (handleStart page))
  = Some (fst (getSettings (form page))) /\
  (mode (stored page) = storage_works ->
   stored (handleStart page)
   = mkLocalStorage (Some (fst (getSettings (form page)))) storage_works) /\
  (mode (stored page) <> storage_works ->
   stored (handleStart page) = stored page).
Proof.
  destruct page as [f [it md] tm]. cbn [form stored mode].
  destruct (getSettings_formOf f) as [Hv Hf].
  unfold handleStart, saveSettings, setItem. cbn [form stored timer mode].
  destruct (getSettings f) as [s f'] eqn:E. cbn [fst snd] in *. subst f'.
  cbn [form stored timer mode].
  destruct md; cbn [form stored timer mode];
    rewrite ?(getSettings_of_formOf s Hv); cbn;
    repeat split; try reflexivity; intros; congruence.
Qed.

(** C10: whatever the three inputs contain, the configuration that
    [handleStart] builds with [getSettings] and passes to [createTimer]
    is in range (work and rest in [5, 300], rounds in [1, 50]); each
    value is the parsed input clamped into its range, or the fallback
    30, 15 or 8 when the input does not parse as an integer. *)
Theorem settings_always_in_range (page : Page) :
  exists (settings : Timer.Config) (started : Timer.Machine),
    timer (handleStart page) = Some (settings, started) /\
    settings = fst (getSettings (form page)) /\
    started = Timer.step settings Timer.Start (Timer.createTimer settings) /\
    Timer.valid settings /\
    sanitizes (workInput (form page)) 5 300 30 (Timer.workDuration settings) /\
    sanitizes (restInput (form page)) 5 300 15 (Timer.restDuration settings) /\
    sanitizes (roundsInput (form page)) 1 50 8 (Timer.rounds settings).
Proof.
  destruct page as [[work rest rounds] [it md] tm].
  destruct md; unfold handleStart, saveSettings, setItem, getSettings; cbn;
    (eexists; eexists; split; [reflexivity|]; split; [reflexivity|];
     split; [reflexivity|]; unfold Timer.valid, sanitizes; cbn;
     repeat split; try (apply clamp_range; lia)).
  all: match goal with
       | |- match parseInt ?t with _ => _ end =>
           destruct (parseInt t); unfold clamp; lia
       end.
Qed.

(** Some form contents and the configurations read from them: numbers
    in range, texts that do not parse, numbers out of range. *)
Example getSettings_samples :
  fst (getSettings (mkForm (js "45") (js " 20s") (js "12")))
  = Timer.mkConfig 45 20 12 /\
  fst (getSettings (mkForm [] (js "abc") (js "-")))
  = Timer.mkConfig 30 15 8 /\
  fst (getSettings (mkForm (js "1000") (js "-4") (js "0")))
  = Timer.mkConfig 300 5 1.
Proof. repeat split; reflexivity. Qed.

End ControllerFacts.

(** * Properties of the page *)

Module AppFacts.

Import Timer Controller App TimerFacts ControllerFacts.

(** ** Proof tools *)

Ltac unfold_app :=
  cbv [handle handleStart handlePlayPause handleReset handleSkip handleDone
       callTimer deliver onTick onPhaseChange onRoundChange onComplete
       onSound onStateChange showScreen setPhase showPauseIcon showPlayIcon
       wakeLockRequest wakeLockRelease onDom fold_left
       set_screen set_bodyPhase set_phaseLabel set_currentRoundText
       set_totalRoundsText set_timerSeconds set_warning set_pauseIconHidden
       set_playIconHidden set_playpauseLabel set_totalTimeText
       set_summaryText set_inputs
       set_dom set_storage set_timer set_isPaused set_shouldBeActive
       set_wakeLockSupported
       screen bodyPhase phaseLabel currentRoundText totalRoundsText
       timerSeconds warning pauseIconHidden playIconHidden playpauseLabel
       totalTimeText summaryText inputs
       dom storage timer isPaused shouldBeActive wakeLockSupported] in *.

Ltac unfold_app_goal :=
  cbv [handle handleStart handlePlayPause handleReset handleSkip handleDone
       callTimer deliver onTick onPhaseChange onRoundChange onComplete
       onSound onStateChange showScreen setPhase showPauseIcon showPlayIcon
       wakeLockRequest wakeLockRelease onDom fold_left
       set_screen set_bodyPhase set_phaseLabel set_currentRoundText
       set_totalRoundsText set_timerSeconds set_warning set_pauseIconHidden
       set_playIconHidden set_playpauseLabel set_totalTimeText
       set_summaryText set_inputs
       set_dom set_storage set_timer set_isPaused set_shouldBeActive
       set_wakeLockSupported
       screen bodyPhase phaseLabel currentRoundText totalRoundsText
       timerSeconds warning pauseIconHidden playIconHidden playpauseLabel
       totalTimeText summaryText inputs
       dom storage timer isPaused shouldBeActive wakeLockSupported].

Ltac unfold_timer_goal :=
  cbv [step output perform exec emitted
       start pause resume reset skip handlePhaseEnd tick emitTick
       scheduleTick cancelTick requestAnimationFrame cancelAnimationFrame
       handleOf createTimer getState
       bind ret gets modify call when
       toNumber differs truthy isNull recorded status_eqb Status_eq_dec
       Status_rec Status_rect sumbool_rec sumbool_rect
       set_status set_previousStatus set_currentRound set_totalRounds
       set_timeRemaining set_phaseDuration set_rafId set_lastTimestamp
       set_lastDisplayedSecond set_pending set_frameCounter
       status previousStatus currentRound totalRounds timeRemaining
       phaseDuration rafId lastTimestamp lastDisplayedSecond pending
       frameCounter fst snd negb andb orb
       phase active elapsed expires];
  cbn [app filter existsb]; rewrite ?Nat.eqb_refl;
  cbn [app filter existsb negb].

(** Brings [Agrees config m a], for a page and a timer given field by
    field, into equations on the fields. *)
Ltac agrees_fields :=
  intros Hag;
  cbv [Agrees summaryOf
       screen bodyPhase phaseLabel currentRoundText totalRoundsText
       timerSeconds warning pauseIconHidden playIconHidden playpauseLabel
       totalTimeText summaryText inputs
       dom storage timer isPaused shouldBeActive wakeLockSupported
       status previousStatus currentRound totalRounds timeRemaining
       phaseDuration rafId lastTimestamp lastDisplayedSecond pending
       frameCounter status_eqb Status_eq_dec
       Status_rec Status_rect sumbool_rec sumbool_rect
       phase active negb andb] in Hag;
  repeat match goal with
  | H : _ /\ _ |- _ => destruct H
  end; subst.

(** ** The handlers of the callbacks leave form, storage and timer alone *)

Lemma deliver_frame (c : Callback) (a : App) :
  inputs (dom (deliver c a)) = inputs (dom a) /\
  totalTimeText (dom (deliver c a)) = totalTimeText (dom a) /\
  storage (deliver c a) = storage a /\
  timer (deliver c a) = timer a /\
  wakeLockSupported (deliver c a) = wakeLockSupported a.
Proof.
  destruct a as [d st tm ip sba sup]; destruct d.
  destruct c as [t p s c r|ph|c t|r w d|cue|s]; unfold_app;
    try destruct ph; try destruct s; cbv beta iota zeta;
    split_ifs; repeat split; reflexivity.
Qed.

Lemma deliverAll_frame (log : list Callback) :
  forall a : App,
    inputs (dom (fold_left (fun acc c => deliver c acc) log a))
    = inputs (dom a) /\
    totalTimeText (dom (fold_left (fun acc c => deliver c acc) log a))
    = totalTimeText (dom a) /\
    storage (fold_left (fun acc c => deliver c acc) log a) = storage a /\
    timer (fold_left (fun acc c => deliver c acc) log a) = timer a /\
    wakeLockSupported (fold_left (fun acc c => deliver c acc) log a)
    = wakeLockSupported a.
Proof.
  induction log as [|c log IH]; intros a; [repeat split; reflexivity|].
  cbn [fold_left].
  destruct (IH (deliver c a)) as (H1 & H2 & H3 & H4 & H5).
  destruct (deliver_frame c a) as (G1 & G2 & G3 & G4 & G5).
  repeat split; congruence.
Qed.

(** ** The page follows its timer *)

Ltac app_cases a :=
  destruct a as [d st tm ip sba sup];
  destruct d as [scr bph lbl crt trt secs warn pih plh ppl ttt smt inp].

(** Pausing, resuming and frames keep the page in agreement. *)
Lemma agrees_step (config : Config) (op : Op) (m : Machine) (a : App)
    (t : option (Config * Machine)) :
  Inv config m -> Agrees config m a ->
  match op with Pause | Resume | Frame _ => true | _ => false end = true ->
  Agrees config (step config op m)
    (fold_left (fun acc c => deliver c acc) (output config op m)
       (set_timer t a)).
Proof.
  intros HI Hag Hop.
  destruct op as [| | | | |ts]; try discriminate Hop; clear Hop.
  3: { frame_split config ts m HI.
       - exact Hag.
       - clear He. revert Ha. revert Hag. revert HI. app_cases a.
         inv_cases m; agrees_fields; intros; try discriminate;
           unfold Agrees, summaryOf; unfold_timer_goal; unfold_app_goal;
           cbv beta iota zeta; split_ifs;
           repeat split; try reflexivity; try assumption; try congruence.
       - clear He Ha. cbn [fst snd]. unfold countdownCue.
         match goal with
         | |- context [if ?c then [OnSound cue_countdown] else []] =>
             destruct c
         end; cbn [app fold_left deliver onSound]; unfold onTick;
         match goal with
         | |- context [if ?c then onDom _ _ else _] => destruct c
         end; exact Hag. }
  all: revert Hag; revert HI; app_cases a; inv_cases m; agrees_fields.
  all: unfold Agrees, summaryOf; unfold_timer_goal; unfold_app_goal;
       cbv beta iota zeta.
  all: split_ifs; repeat split; try reflexivity; try assumption;
       try congruence.
Qed.

(** A skip keeps the page in agreement, thanks to the icon update of
    [handleSkip]. *)
Lemma agrees_skip (config : Config) (m : Machine) (a : App)
    (t : option (Config * Machine)) :
  Inv config m -> Agrees config m a ->
  Agrees config (step config Skip m)
    (fold_left (fun acc c => deliver c acc) (output config Skip m)
       (set_timer t
          (if isPaused a then showPauseIcon (set_isPaused false a) else a))).
Proof.
  intros HI Hag. revert Hag; revert HI; app_cases a; inv_cases m;
    agrees_fields.
  all: unfold_timer_goal; cbv beta iota zeta; split_ifs.
  all: unfold Agrees, summaryOf; unfold_timer_goal; unfold_app_goal;
       cbv beta iota zeta.
  all: split_ifs; repeat split; try reflexivity; try assumption;
       try congruence.
Qed.

Lemma handlePlayPause_ok (a : App) : TimerOk a -> TimerOk (handlePlayPause a).
Proof.
  unfold TimerOk, handlePlayPause.
  destruct (timer a) as [[config m]|] eqn:Et; [|rewrite Et; trivial].
  intros (Hv & HI & Hag).
  destruct (isPaused a); unfold callTimer; rewrite Et;
    match goal with
    | |- context [fold_left _ (output config ?op m) ?a0] =>
        destruct (deliverAll_frame (output config op m) a0)
          as (_ & _ & _ & -> & _);
        cbn [timer set_timer];
        (split; [exact Hv|]);
        (split; [apply Inv_step; assumption|]);
        apply agrees_step; auto
    end.
Qed.

Lemma frame_ok (ts : Z) (a : App) :
  TimerOk a -> TimerOk (callTimer (Frame ts) a).
Proof.
  unfold TimerOk, callTimer.
  destruct (timer a) as [[config m]|] eqn:Et; [|rewrite Et; trivial].
  intros (Hv & HI & Hag).
  destruct (deliverAll_frame (output config (Frame ts) m)
              (set_timer (Some (config, step config (Frame ts) m)) a))
    as (_ & _ & _ & -> & _).
  cbn [timer set_timer].
  split; [exact Hv|]. split; [apply Inv_step; assumption|].
  apply agrees_step; auto.
Qed.

Lemma handleSkip_ok (a : App) : TimerOk a -> TimerOk (handleSkip a).
Proof.
  unfold TimerOk, handleSkip.
  destruct (timer a) as [[config m]|] eqn:Et; [|rewrite Et; trivial].
  intros (Hv & HI & Hag). unfold callTimer.
  assert (Et' : timer (if isPaused a
                       then showPauseIcon (set_isPaused false a) else a)
                = Some (config, m))
    by (destruct (isPaused a); exact Et).
  rewrite Et'.
  match goal with
  | |- context [fold_left _ (output config ?op m) ?a0] =>
      destruct (deliverAll_frame (output config op m) a0)
        as (_ & _ & _ & -> & _)
  end.
  cbn [timer set_timer].
  split; [exact Hv|]. split; [apply Inv_step; assumption|].
  apply agrees_skip; auto.
Qed.

Lemma reset_output (config : Config) (m : Machine) :
  output config Reset m = [OnStateChange IDLE].
Proof.
  destruct m as [s p cur tot tr pd raf l lds pend fc].
  unfold_timer_goal. destruct raf as [[|h]|]; reflexivity.
Qed.

Lemma handleReset_ok (a : App) : TimerOk a -> TimerOk (handleReset a).
Proof.
  unfold TimerOk, handleReset.
  destruct (timer a) as [[config m]|] eqn:Et; [|rewrite Et; trivial].
  intros _. unfold callTimer. rewrite Et, reset_output.
  app_cases a. unfold_app_goal. repeat split; reflexivity.
Qed.

Lemma handleDone_ok (a : App) :
  TimerOk a -> screen (dom a) = complete_screen -> TimerOk (handleDone a).
Proof.
  unfold TimerOk, handleDone.
  destruct (timer a) as [[config m]|] eqn:Et.
  - intros (Hv & HI & Hag) Hs. revert Hs. revert Hag. revert HI.
    app_cases a. inv_cases m; agrees_fields; unfold_app_goal;
      cbv beta iota zeta; intros; try discriminate;
      repeat split; try reflexivity; destruct sup; reflexivity.
  - intros (Hs & _) Hc. congruence.
Qed.

(** *** The form *)

Lemma updateTotalTime_spec (a : App) :
  updateTotalTime a
  = onDom (set_totalTimeText
             (formatTime
                (totalSeconds (fst (Controller.getSettings (inputs (dom a)))))))
      (onDom (set_inputs
                (formOf (fst (Controller.getSettings (inputs (dom a)))))) a).
Proof.
  unfold updateTotalTime, getSettings.
  destruct (getSettings_formOf (inputs (dom a))) as [_ Hf].
  destruct (Controller.getSettings (inputs (dom a))) as [s f].
  cbn [fst snd] in *. subst f. reflexivity.
Qed.

Lemma saveSettings_spec (a : App) :
  saveSettings a
  = match mode (storage a) with
    | storage_denied => a
    | _ =>
        set_storage
          (saved (fst (Controller.getSettings (inputs (dom a)))) (storage a))
          (onDom (set_inputs
                    (formOf (fst (Controller.getSettings (inputs (dom a))))))
             a)
    end.
Proof.
  unfold saveSettings, getSettings, saved.
  destruct (getSettings_formOf (inputs (dom a))) as [_ Hf].
  destruct (Controller.getSettings (inputs (dom a))) as [s f].
  cbn [fst snd] in *. subst f.
  app_cases a. destruct st as [it md].
  destruct md; reflexivity.
Qed.

(** On a form that shows a configuration in range, [saveSettings()]
    changes the storage at most. *)
Lemma saveSettings_sanitised (s : Config) (a : App) :
  valid s -> inputs (dom a) = formOf s ->
  saveSettings a = set_storage (saved s (storage a)) a.
Proof.
  intros Hv Hin. rewrite saveSettings_spec, Hin.
  rewrite (getSettings_of_formOf s Hv). cbn [fst].
  app_cases a. cbn [dom inputs] in Hin. subst inp.
  destruct st as [it md]. destruct md; reflexivity.
Qed.

(** After the total time is updated and the settings are saved, the form
    shows a configuration in range, the total time is its time and the
    storage holds it if the host lets it; nothing else has changed. *)
Lemma refresh_spec (a : App) :
  exists s : Config,
    valid s /\ s = fst (Controller.getSettings (inputs (dom a))) /\
    saveSettings (updateTotalTime a)
    = set_storage (saved s (storage a))
        (onDom (set_totalTimeText (formatTime (totalSeconds s)))
           (onDom (set_inputs (formOf s)) a)).
Proof.
  exists (fst (Controller.getSettings (inputs (dom a)))).
  destruct (getSettings_formOf (inputs (dom a))) as [Hv _].
  split; [exact Hv|]. split; [reflexivity|].
  rewrite updateTotalTime_spec.
  set (s := fst (Controller.getSettings (inputs (dom a)))) in *.
  rewrite (saveSettings_sanitised s); [|exact Hv|].
  - app_cases a. reflexivity.
  - app_cases a. reflexivity.
Qed.

Lemma refresh_ok (a : App) :
  FormOk (saveSettings (updateTotalTime a)) /\
  (TimerOk a -> TimerOk (saveSettings (updateTotalTime a))).
Proof.
  destruct (refresh_spec a) as (s & Hv & _ & ->). split.
  - exists s. app_cases a. unfold_app_goal.
    split; [exact Hv|]. split; reflexivity.
  - app_cases a. unfold TimerOk, Agrees. unfold_app_goal. trivial.
Qed.

Lemma start_output (config : Config) :
  output config Start (createTimer config)
  = [OnPhaseChange COUNTDOWN; OnRoundChange 1 (rounds config);
     OnStateChange COUNTDOWN].
Proof. reflexivity. Qed.

Ltac unfold_settings :=
  cbv [handleStart handleInputChange handleStepper init boot loadSettings
       App.getSettings saveSettings updateTotalTime onDom
       set_inputs set_totalTimeText set_dom set_storage
       screen bodyPhase phaseLabel currentRoundText totalRoundsText
       timerSeconds warning pauseIconHidden playIconHidden playpauseLabel
       totalTimeText summaryText inputs
       dom storage timer isPaused shouldBeActive wakeLockSupported].

Lemma handleStart_ok (a : App) :
  FormOk a -> TimerOk a -> timer a = None ->
  FormOk (handleStart a) /\ TimerOk (handleStart a).
Proof.
  intros (s0 & Hv & Hin & Htt) Hok Hnone.
  app_cases a. cbn [dom inputs totalTimeText timer] in *. subst inp ttt tm.
  unfold TimerOk in Hok. cbn [timer dom screen isPaused shouldBeActive] in Hok.
  destruct Hok as (Hs & Hp & Hw). subst scr ip sba.
  pose proof (Inv_step s0 Start (createTimer s0) Hv
                (Inv_create s0 ltac:(destruct Hv as (_ & _ & ?); lia))) as HI.
  unfold handleStart, App.getSettings. cbn [dom inputs].
  rewrite (getSettings_of_formOf s0 Hv).
  rewrite (saveSettings_sanitised s0) by (exact Hv || reflexivity).
  cbn [storage onDom set_dom dom].
  generalize (saved s0 st). intros st'.
  unfold callTimer. cbn [timer set_timer showScreen
    showPauseIcon set_isPaused onDom set_dom set_storage]. rewrite start_output.
  split.
  - exists s0. split; [exact Hv|].
    destruct sup; unfold_app_goal; split; reflexivity.
  - unfold TimerOk.
    destruct sup; unfold_app_goal; cbv beta iota zeta;
      (split; [exact Hv|]); (split; [exact HI|]);
      unfold Agrees; unfold_timer_goal; unfold_app_goal; cbv beta iota zeta;
      repeat split; try reflexivity; discriminate.
Qed.

Lemma loadSettings_frame (a : App) :
  screen (dom (loadSettings a)) = screen (dom a) /\
  timer (loadSettings a) = timer a /\
  isPaused (loadSettings a) = isPaused a /\
  shouldBeActive (loadSettings a) = shouldBeActive a /\
  storage (loadSettings a) = storage a.
Proof.
  app_cases a. unfold loadSettings, getItem. cbn [storage].
  destruct st as [[s|] md]; destruct md; repeat split; reflexivity.
Qed.

Lemma boot_ok (d : Dom) (stored : LocalStorage) (supported : bool) :
  screen d = setup_screen ->
  FormOk (boot d stored supported) /\ TimerOk (boot d stored supported).
Proof.
  intros Hs. unfold boot, init. rewrite updateTotalTime_spec.
  set (a0 := mkApp d stored None false false supported).
  destruct (loadSettings_frame a0) as (H1 & H2 & H3 & H4 & _).
  destruct (getSettings_formOf (inputs (dom (loadSettings a0)))) as [Hv _].
  set (s := fst (Controller.getSettings (inputs (dom (loadSettings a0)))))
    in *.
  destruct (loadSettings a0) as [d1 st1 tm1 ip1 sba1 sup1].
  destruct d1. subst a0. cbn [dom screen timer isPaused shouldBeActive] in *.
  subst. split.
  - exists s. unfold_app_goal. split; [exact Hv|]. split; reflexivity.
  - unfold TimerOk. unfold_app_goal. repeat split; try reflexivity; exact Hs.
Qed.

(** Every reachable page has its form in order and agrees with its
    timer. *)
Lemma page_ok (a : App) : pageReachable a -> FormOk a /\ TimerOk a.
Proof.
  induction 1 as [d stored supported Hs|ev a Hr [Hf Ht] He].
  - apply boot_ok. exact Hs.
  - assert (Hsetup : screen (dom a) = setup_screen -> timer a = None).
    { intros Hscr. unfold TimerOk in Ht.
      destruct (timer a) as [[config m]|]; [|reflexivity].
      destruct Ht as (_ & _ & _ & _ & _ & _ & _ & Hsc & _).
      rewrite Hscr in Hsc. destruct (status_eqb (status m) COMPLETE);
        discriminate Hsc. }
    unfold enabled in He.
    destruct ev as [| | | | |click|field text|ts]; cbn [handle].
    + destruct (screen (dom a)) eqn:Hscr; try discriminate He.
      apply handleStart_ok; auto.
    + split; [|apply handlePlayPause_ok; exact Ht].
      destruct Hf as (s & Hv & Hin & Htt). exists s.
      unfold handlePlayPause.
      destruct (timer a) as [[config m]|] eqn:Et; [|auto].
      destruct (isPaused a); unfold callTimer; rewrite Et;
        match goal with
        | |- context [fold_left _ ?log ?a0] =>
            destruct (deliverAll_frame log a0) as (-> & -> & _)
        end; auto.
    + split; [|apply handleReset_ok; exact Ht].
      destruct Hf as (s & Hv & Hin & Htt). exists s.
      unfold handleReset.
      destruct (timer a) as [[config m]|] eqn:Et; [|auto].
      unfold callTimer; rewrite Et;
        match goal with
        | |- context [fold_left _ ?log ?a0] =>
            destruct (deliverAll_frame log a0) as (H1 & H2 & _)
        end. cbn [dom set_timer] in *. rewrite H1, H2. auto.
    + split; [|apply handleSkip_ok; exact Ht].
      destruct Hf as (s & Hv & Hin & Htt). exists s.
      unfold handleSkip.
      destruct (timer a) as [[config m]|] eqn:Et; [|auto].
      unfold callTimer.
      assert (Et' : timer (if isPaused a
                           then showPauseIcon (set_isPaused false a) else a)
                    = Some (config, m))
        by (destruct (isPaused a); exact Et).
      rewrite Et'.
      match goal with
      | |- context [fold_left _ ?log ?a0] =>
          destruct (deliverAll_frame log a0) as (-> & -> & _)
      end. destruct (isPaused a); auto.
    + destruct (screen (dom a)) eqn:Hscr; try discriminate He.
      split; [|apply handleDone_ok; assumption].
      destruct Hf as (s & Hv & Hin & Htt). exists s. auto.
    + destruct (screen (dom a)) eqn:Hscr; try discriminate He.
      unfold handleStepper.
      destruct click as [btn|]; [|auto].
      destruct (target btn); [|auto].
      match goal with
      | |- FormOk (saveSettings (updateTotalTime ?a0)) /\ _ =>
          destruct (refresh_ok a0) as [H1 H2]; split; [exact H1|apply H2]
      end.
      revert Ht. clear. app_cases a. unfold TimerOk.
      cbn [timer dom onDom set_dom set_inputs screen isPaused shouldBeActive
           wakeLockSupported pauseIconHidden playIconHidden playpauseLabel
           currentRoundText totalRoundsText phaseLabel bodyPhase summaryText].
      trivial.
    + destruct (screen (dom a)) eqn:Hscr; try discriminate He.
      unfold handleInputChange.
      match goal with
      | |- FormOk (saveSettings (updateTotalTime ?a0)) /\ _ =>
          destruct (refresh_ok a0) as [H1 H2]; split; [exact H1|apply H2]
      end.
      revert Ht. clear. app_cases a. unfold TimerOk. trivial.
    + split; [|apply frame_ok; exact Ht].
      destruct Hf as (s & Hv & Hin & Htt). exists s.
      unfold callTimer.
      destruct (timer a) as [[config m]|] eqn:Et; [|auto].
      match goal with
      | |- context [fold_left _ ?log ?a0] =>
          destruct (deliverAll_frame log a0) as (-> & -> & _)
      end. auto.
Qed.

Lemma reachable_freshPage : pageReachable freshPage.
Proof. apply page_boot. reflexivity. Defined.

Lemma reachable_tickingPage : pageReachable tickingPage.
Proof.
  unfold tickingPage.
  apply page_event; [|vm_compute; reflexivity].
  apply page_event; [|vm_compute; reflexivity].
  exact reachable_freshPage.
Defined.

Lemma reachable_busyPage : pageReachable busyPage.
Proof.
  unfold busyPage.
  apply page_event; [|vm_compute; reflexivity].
  apply page_event; [|vm_compute; reflexivity].
  exact reachable_tickingPage.
Defined.

(** ** What the page shows *)

(** X17: on every reachable page the form shows a configuration in range
    (the three inputs hold exactly the text of its numbers) and the total
    time shown is the time of that configuration. *)
Theorem form_in_order (a : App) :
  pageReachable a ->
  exists s : Config,
    valid s /\ inputs (dom a) = formOf s /\
    totalTimeText (dom a) = formatTime (totalSeconds s).
Proof. intros Hr. exact (proj1 (page_ok a Hr)). Qed.

Lemma form_in_order_witness :
  exists s : Config,
    valid s /\ inputs (dom busyPage) = formOf s /\
    totalTimeText (dom busyPage) = formatTime (totalSeconds s).
Proof. apply (form_in_order busyPage). exact reachable_busyPage. Defined.

(** X18: on every reachable page the setup screen is active exactly when
    the controller holds no timer; a timer it holds has a configuration
    in range and is never IDLE, the complete screen is active exactly
    when it is COMPLETE and the timer screen exactly while it is in a
    phase, running or paused. *)
Theorem screen_follows_timer (a : App) :
  pageReachable a ->
  (timer a = None <-> screen (dom a) = setup_screen) /\
  (forall (config : Config) (m : Machine),
     timer a = Some (config, m) ->
     valid config /\ status m <> IDLE /\
     (screen (dom a) = complete_screen <-> status m = COMPLETE) /\
     (screen (dom a) = timer_screen <-> active (phase m) = true)).
Proof.
  intros Hr. destruct (page_ok a Hr) as [_ Ht]. unfold TimerOk in Ht.
  destruct (timer a) as [[config m]|].
  - destruct Ht as (Hv & HI & Hag). split.
    + split; [discriminate|]. revert Hag. revert HI. app_cases a.
      inv_cases m; agrees_fields; cbn; intros; discriminate.
    + intros c m0 E. inversion E; subst c m0. split; [exact Hv|].
      revert Hag. revert HI. clear. app_cases a.
      inv_cases m; agrees_fields; unfold phase; cbn;
        repeat split; intros; try discriminate; try reflexivity;
        congruence.
  - destruct Ht as (Hs & _). split; [tauto|]. intros; discriminate.
Qed.

Lemma screen_follows_timer_witness :
  (timer busyPage = None <-> screen (dom busyPage) = setup_screen) /\
  (forall (config : Config) (m : Machine),
     timer busyPage = Some (config, m) ->
     valid config /\ status m <> IDLE /\
     (screen (dom busyPage) = complete_screen <-> status m = COMPLETE) /\
     (screen (dom busyPage) = timer_screen <-> active (phase m) = true)).
Proof. apply (screen_follows_timer busyPage). exact reachable_busyPage. Defined.

(** X19: on every reachable page [isPaused] is set exactly when the
    timer is PAUSED, the play icon is then shown and the button labelled
    "Resume workout", otherwise the pause icon and "Pause workout"; so a
    click on the button resumes a paused timer into the interrupted
    phase and pauses a running one. *)
Theorem playpause_button (a : App) (config : Config) (m : Machine) :
  pageReachable a -> timer a = Some (config, m) ->
  (isPaused a = true <-> status m = PAUSED) /\
  pauseIconHidden (dom a) = isPaused a /\
  playIconHidden (dom a) = negb (isPaused a) /\
  playpauseLabel (dom a)
  = (if isPaused a then js "Resume workout" else js "Pause workout") /\
  option_map (fun t => status (snd t)) (timer (handlePlayPause a))
  = Some (if isPaused a then phase m
          else if active (status m) then PAUSED else status m).
Proof.
  intros Hr Et. destruct (page_ok a Hr) as [_ Ht]. unfold TimerOk in Ht.
  rewrite Et in Ht. destruct Ht as (Hv & HI & Hag).
  assert (Hbtn : option_map (fun t => status (snd t))
                   (timer (handlePlayPause a))
                 = Some (status (step config
                                   (if isPaused a then Resume else Pause) m))).
  { unfold handlePlayPause. rewrite Et.
    destruct (isPaused a); unfold callTimer; rewrite Et;
      match goal with
      | |- context [fold_left _ ?log ?a0] =>
          destruct (deliverAll_frame log a0) as (_ & _ & _ & -> & _)
      end; reflexivity. }
  rewrite Hbtn. clear Hbtn Et Hr. revert Hag. revert HI. app_cases a.
  inv_cases m; agrees_fields; cbn [isPaused dom pauseIconHidden
    playIconHidden playpauseLabel];
    unfold_timer_goal; cbv beta iota zeta; split_ifs;
    repeat split; intros; try reflexivity; try discriminate.
Qed.

Lemma playpause_button_witness :
  (isPaused tickingPage = true <-> status tickingTimer = PAUSED) /\
  pauseIconHidden (dom tickingPage) = isPaused tickingPage /\
  playIconHidden (dom tickingPage) = negb (isPaused tickingPage) /\
  playpauseLabel (dom tickingPage)
  = (if isPaused tickingPage
     then js "Resume workout" else js "Pause workout") /\
  option_map (fun t => status (snd t)) (timer (handlePlayPause tickingPage))
  = Some (if isPaused tickingPage then phase tickingTimer
          else if active (status tickingTimer) then PAUSED
               else status tickingTimer).
Proof.
  apply (playpause_button tickingPage fallbacks tickingTimer).
  - exact reachable_tickingPage.
  - vm_compute. reflexivity.
Defined.

(** X20: on every reachable page the wake lock is wanted exactly while
    the timer screen is active, if the host has wake locks at all. *)
Theorem wake_lock_wanted (a : App) :
  pageReachable a ->
  shouldBeActive a
  = wakeLockSupported a
    && match screen (dom a) with timer_screen => true | _ => false end.
Proof.
  intros Hr. destruct (page_ok a Hr) as [_ Ht]. unfold TimerOk in Ht.
  destruct (timer a) as [[config m]|].
  - destruct Ht as (Hv & HI & Hag). revert Hag. revert HI. app_cases a.
    inv_cases m; agrees_fields; cbn; try reflexivity;
      exfalso; congruence.
  - destruct Ht as (Hs & _ & Hw). rewrite Hw, Hs. symmetry.
    apply andb_false_r.
Qed.

Lemma wake_lock_wanted_witness :
  shouldBeActive busyPage
  = wakeLockSupported busyPage
    && match screen (dom busyPage) with timer_screen => true | _ => false end.
Proof. apply (wake_lock_wanted busyPage). exact reachable_busyPage. Defined.

(** X21: on every reachable page with a timer the two round counters
    show the timer's current round and the configured number of
    rounds. *)
Theorem round_counters (a : App) (config : Config) (m : Machine) :
  pageReachable a -> timer a = Some (config, m) ->
  currentRoundText (dom a) = toString (currentRound m) /\
  totalRoundsText (dom a) = toString (rounds config).
Proof.
  intros Hr Et. destruct (page_ok a Hr) as [_ Ht]. unfold TimerOk in Ht.
  rewrite Et in Ht. destruct Ht as (Hv & HI & Hag).
  destruct HI as (Htot & _).
  destruct Hag as (_ & _ & _ & _ & _ & _ & _ & Hc & Ht & _).
  rewrite Hc, Ht, Htot. split; reflexivity.
Qed.

Lemma round_counters_witness :
  currentRoundText (dom tickingPage) = toString (currentRound tickingTimer) /\
  totalRoundsText (dom tickingPage) = toString (rounds fallbacks).
Proof.
  apply (round_counters tickingPage fallbacks tickingTimer).
  - exact reachable_tickingPage.
  - vm_compute. reflexivity.
Defined.

(** X22: on every reachable page with a timer in a phase, running or
    paused, the phase label and [data-phase] are those of that phase;
    once the timer is COMPLETE, [data-phase] is "idle" and the summary is
    the one of the timer's configuration. *)
Theorem phase_readout (a : App) (config : Config) (m : Machine) :
  pageReachable a -> timer a = Some (config, m) ->
  (active (phase m) = true ->
   phaseLabel (dom a) = labelOf (phase m) /\
   bodyPhase (dom a) = cssOf (phase m)) /\
  (status m = COMPLETE ->
   bodyPhase (dom a) = js "idle" /\ summaryText (dom a) = summaryOf config).
Proof.
  intros Hr Et. destruct (page_ok a Hr) as [_ Ht]. unfold TimerOk in Ht.
  rewrite Et in Ht. destruct Ht as (Hv & HI & Hag).
  clear Hr Et. revert Hag. revert HI. app_cases a.
  inv_cases m; agrees_fields; unfold phase, summaryOf; cbn;
    split; intros; try discriminate; split; reflexivity.
Qed.

Lemma phase_readout_witness :
  (active (phase tickingTimer) = true ->
   phaseLabel (dom tickingPage) = labelOf (phase tickingTimer) /\
   bodyPhase (dom tickingPage) = cssOf (phase tickingTimer)) /\
  (status tickingTimer = COMPLETE ->
   bodyPhase (dom tickingPage) = js "idle" /\
   summaryText (dom tickingPage) = summaryOf fallbacks).
Proof.
  apply (phase_readout tickingPage fallbacks tickingTimer).
  - exact reachable_tickingPage.
  - vm_compute. reflexivity.
Defined.

(** ** The seconds display *)

Lemma ceilDiv_le_3 (x : Z) : (ceilDiv x 1000 <=? 3) = (x <=? 3000).
Proof.
  unfold ceilDiv. destruct (x <=? 3000) eqn:E.
  - apply Z.leb_le in E. apply Z.leb_le. Z.div_mod_to_equations. lia.
  - apply Z.leb_gt in E. apply Z.leb_gt. Z.div_mod_to_equations. lia.
Qed.

(** X23: after a frame that leaves the phase running, the seconds
    display shows the time remaining in whole seconds, rounded up, and
    the warning class is set exactly in the last three seconds of a WORK
    or REST phase. *)
Theorem seconds_display (a : App) (config : Config) (m : Machine) (ts : Z) :
  pageReachable a -> timer a = Some (config, m) ->
  active (status m) = true -> expires m ts = false ->
  timerSeconds (dom (handle (AnimationFrame ts) a))
  = toString (ceilDiv (timeRemaining (step config (Frame ts) m)) 1000) /\
  warning (dom (handle (AnimationFrame ts) a))
  = ((timeRemaining (step config (Frame ts) m) <=? 3000)
     && negb (status_eqb (status m) COUNTDOWN)).
Proof.
  intros Hr Et Hrun Hx. destruct (page_ok a Hr) as [_ Ht].
  unfold TimerOk in Ht. rewrite Et in Ht. destruct Ht as (Hv & HI & _).
  cbn [handle]. unfold callTimer. rewrite Et.
  unfold step, output, exec, emitted.
  destruct (frame_cases config ts m HI) as
    [(Ha & _) | [(_ & He & _) | (_ & _ & ->)]]; try congruence.
  cbn [fst snd]. unfold countdownCue.
  assert (Hpos : 0 < timeRemaining m - elapsed m ts)
    by (unfold expires in Hx; apply Z.leb_gt in Hx; exact Hx).
  pose proof (ceilDiv_pos _ Hpos) as Hc.
  match goal with
  | |- context [timeRemaining (Timer.exec scheduleTick ?x)] =>
      change (timeRemaining (Timer.exec scheduleTick x))
        with (timeRemaining m - elapsed m ts)
  end.
  match goal with
  | |- context [if ?c then [OnSound cue_countdown] else []] => destruct c
  end; cbn [app fold_left deliver onSound]; unfold onTick, formatTimerDisplay;
    rewrite ceilDiv_le_3;
    replace (ceilDiv (timeRemaining m - elapsed m ts) 1000 <=? 0) with false
      by (symmetry; apply Z.leb_gt; lia);
    destruct ((timeRemaining m - elapsed m ts <=? 3000)
              && negb (status_eqb (status m) COUNTDOWN));
    split; reflexivity.
Qed.

Lemma seconds_display_witness :
  timerSeconds (dom (handle (AnimationFrame 400) tickingPage))
  = toString (ceilDiv (timeRemaining (step fallbacks (Frame 400) tickingTimer))
                1000) /\
  warning (dom (handle (AnimationFrame 400) tickingPage))
  = ((timeRemaining (step fallbacks (Frame 400) tickingTimer) <=? 3000)
     && negb (status_eqb (status tickingTimer) COUNTDOWN)).
Proof.
  apply (seconds_display tickingPage fallbacks tickingTimer 400).
  - exact reachable_tickingPage.
  - vm_compute. reflexivity.
  - reflexivity.
  - reflexivity.
Defined.

(** A skip calls no [onTick]: the seconds display keeps the text of the
    phase that was skipped until the next frame. Here "3" of the
    countdown is still shown in a work phase with 30 seconds to go. *)
Example skip_leaves_seconds_stale :
  timerSeconds (dom busyPage) = js "3" /\
  option_map (fun t => getState (snd t)) (timer busyPage)
  = Some (mkSnapshot WORK 1 8 30000 30000).
Proof. vm_compute. split; reflexivity. Qed.

(** ** Editing the form *)

Lemma saved_cases (s : Config) (ls : LocalStorage) :
  (mode ls = storage_works ->
   saved s ls = mkLocalStorage (Some s) storage_works) /\
  (mode ls <> storage_works -> saved s ls = ls).
Proof.
  destruct ls as [it md]. unfold saved, setItem. cbn [mode].
  destruct md; split; intros; try reflexivity; congruence.
Qed.

(** One field of the form gets a new text, then the total time is
    updated and the settings are saved. *)
Lemma edit_spec (f : Field) (text : JsString) (a : App) :
  exists s : Config,
    valid s /\
    inputs (dom (saveSettings (updateTotalTime
       (onDom (fun d => set_inputs (setFieldValue f text (inputs d)) d) a))))
    = formOf s /\
    totalTimeText (dom (saveSettings (updateTotalTime
       (onDom (fun d => set_inputs (setFieldValue f text (inputs d)) d) a))))
    = formatTime (totalSeconds s) /\
    storage (saveSettings (updateTotalTime
       (onDom (fun d => set_inputs (setFieldValue f text (inputs d)) d) a)))
    = saved s (storage a) /\
    fieldOf f s
    = match parseInt text with
      | Some v => clamp v (fieldMin f) (fieldMax f)
      | None => fieldFallback f
      end /\
    forall g : Field, g <> f ->
      fieldOf g s = fieldOf g (fst (Controller.getSettings (inputs (dom a)))).
Proof.
  destruct (refresh_spec
              (onDom (fun d => set_inputs (setFieldValue f text (inputs d)) d)
                 a)) as (s & Hv & Hs & ->).
  exists s. split; [exact Hv|].
  app_cases a. destruct inp as [w r n].
  split; [reflexivity|]. split; [reflexivity|]. split; [reflexivity|].
  subst s. unfold_app_goal.
  unfold Controller.getSettings, sanitizeNumericInput.
  destruct f; cbn; (split; [destruct (parseInt text); reflexivity|]);
    intros g Hg; destruct g; try congruence; reflexivity.
Qed.

(** X24: a change of one input leaves the form showing a configuration
    in range and shows its total time; the changed field holds the number
    typed, brought into the field's range, or the field's fallback (30,
    15, 8) when the text is no number; the other two fields keep their
    sanitised values. When [localStorage] works that configuration is
    stored; when it throws, the storage is left as it was. *)
Theorem input_change_result (f : Field) (text : JsString) (a : App) :
  exists s : Config,
    valid s /\
    inputs (dom (handle (InputChange f text) a)) = formOf s /\
    totalTimeText (dom (handle (InputChange f text) a))
    = formatTime (totalSeconds s) /\
    (mode (storage a) = storage_works ->
     storage (handle (InputChange f text) a)
     = mkLocalStorage (Some s) storage_works) /\
    (mode (storage a) <> storage_works ->
     storage (handle (InputChange f text) a) = storage a) /\
    fieldOf f s
    = match parseInt text with
      | Some v => clamp v (fieldMin f) (fieldMax f)
      | None => fieldFallback f
      end /\
    forall g : Field, g <> f ->
      fieldOf g s = fieldOf g (fst (Controller.getSettings (inputs (dom a)))).
Proof.
  destruct (edit_spec f text a) as (s & Hv & Hf & Htt & Hst & Hfield & Hoth).
  destruct (saved_cases s (storage a)) as [Hw Hn].
  exists s. cbn [handle]. unfold handleInputChange.
  split; [exact Hv|]. split; [exact Hf|]. split; [exact Htt|].
  split; [intros H; rewrite Hst; exact (Hw H)|].
  split; [intros H; rewrite Hst; exact (Hn H)|].
  split; [exact Hfield | exact Hoth].
Qed.

(** X25: a click on a stepper button whose input exists. When the
    button's delta, the input's [min] and [max] and the input's current
    number (0 when the text is no number) are safe integers, the field
    moves by the delta, within [min] and [max] and within the field's
    range; when the delta, [min] or [max] is no number the field ends at
    its fallback. In every case the form then shows a configuration in
    range with its total time and the other two fields keep their
    sanitised values; that configuration is stored when [localStorage]
    works, and the storage is left as it was when it throws. *)
Theorem stepper_result (btn : StepperClick) (f : Field) (a : App) :
  target btn = Some f ->
  exists s : Config,
    valid s /\
    inputs (dom (handle (FormClick (Some btn)) a)) = formOf s /\
    totalTimeText (dom (handle (FormClick (Some btn)) a))
    = formatTime (totalSeconds s) /\
    (mode (storage a) = storage_works ->
     storage (handle (FormClick (Some btn)) a)
     = mkLocalStorage (Some s) storage_works) /\
    (mode (storage a) <> storage_works ->
     storage (handle (FormClick (Some btn)) a) = storage a) /\
    (forall d lo hi : Z,
       parseInt (deltaText btn) = Some d ->
       parseInt (minText btn) = Some lo ->
       parseInt (maxText btn) = Some hi ->
       safeInteger d = true -> safeInteger lo = true ->
       safeInteger hi = true ->
       safeInteger (parseIntOr0 (fieldValue f (inputs (dom a)))) = true ->
       fieldOf f s
       = clamp (clamp (parseIntOr0 (fieldValue f (inputs (dom a))) + d) lo hi)
           (fieldMin f) (fieldMax f)) /\
    (parseInt (deltaText btn) = None \/ parseInt (minText btn) = None \/
     parseInt (maxText btn) = None ->
     fieldOf f s = fieldFallback f) /\
    forall g : Field, g <> f ->
      fieldOf g s = fieldOf g (fst (Controller.getSettings (inputs (dom a)))).
Proof.
  intros Ht. cbn [handle]. unfold handleStepper. rewrite Ht.
  destruct (edit_spec f
              (numToString
                 (clampNum
                    (numAdd (Some (parseIntOr0 (fieldValue f (inputs (dom a)))))
                       (parseInt (deltaText btn)))
                    (parseInt (minText btn)) (parseInt (maxText btn)))) a)
    as (s & Hv & Hf & Htt & Hst & Hfield & Hothers).
  destruct (saved_cases s (storage a)) as [Hw Hn].
  exists s. split; [exact Hv|]. split; [exact Hf|]. split; [exact Htt|].
  split; [intros H; rewrite Hst; exact (Hw H)|].
  split; [intros H; rewrite Hst; exact (Hn H)|].
  split; [|split; [|exact Hothers]].
  - intros d lo hi Hd Hlo Hhi _ _ _ _. rewrite Hfield, Hd, Hlo, Hhi.
    cbn [numAdd clampNum numMin numMax numToString].
    rewrite parse_of_print. reflexivity.
  - intros Hnan. rewrite Hfield.
    assert (Hnone : clampNum
                   (numAdd (Some (parseIntOr0 (fieldValue f (inputs (dom a)))))
                      (parseInt (deltaText btn)))
                   (parseInt (minText btn)) (parseInt (maxText btn)) = None).
    { destruct (parseInt (deltaText btn)), (parseInt (minText btn)),
        (parseInt (maxText btn)); try reflexivity;
        destruct Hnan as [H|[H|H]]; discriminate H. }
    rewrite Hnone. reflexivity.
Qed.

Lemma stepper_result_witness :
  exists s : Config,
    valid s /\
    inputs (dom (handle (FormClick (Some (mkStepperClick (Some rest_field)
                   (js "-5") (js "5") (js "300")))) freshPage)) = formOf s /\
    totalTimeText (dom (handle (FormClick (Some (mkStepperClick
                     (Some rest_field) (js "-5") (js "5") (js "300"))))
                          freshPage))
    = formatTime (totalSeconds s) /\
    (mode (storage freshPage) = storage_works ->
     storage (handle (FormClick (Some (mkStepperClick (Some rest_field)
                (js "-5") (js "5") (js "300")))) freshPage)
     = mkLocalStorage (Some s) storage_works) /\
    (mode (storage freshPage) <> storage_works ->
     storage (handle (FormClick (Some (mkStepperClick (Some rest_field)
                (js "-5") (js "5") (js "300")))) freshPage)
     = storage freshPage) /\
    (forall d lo hi : Z,
       parseInt (js "-5") = Some d ->
       parseInt (js "5") = Some lo ->
       parseInt (js "300") = Some hi ->
       safeInteger d = true -> safeInteger lo = true ->
       safeInteger hi = true ->
       safeInteger (parseIntOr0 (fieldValue rest_field
                                   (inputs (dom freshPage)))) = true ->
       fieldOf rest_field s
       = clamp (clamp (parseIntOr0 (fieldValue rest_field
                                      (inputs (dom freshPage))) + d) lo hi)
           (fieldMin rest_field) (fieldMax rest_field)) /\
    (parseInt (js "-5") = None \/ parseInt (js "5") = None \/
     parseInt (js "300") = None ->
     fieldOf rest_field s = fieldFallback rest_field) /\
    forall g : Field, g <> rest_field ->
      fieldOf g s
      = fieldOf g (fst (Controller.getSettings (inputs (dom freshPage)))).
Proof.
  apply (stepper_result
           (mkStepperClick (Some rest_field) (js "-5") (js "5") (js "300"))
           rest_field freshPage).
  reflexivity.
Defined.

(** The stepper of the witness takes the rest from 15 to 10 seconds, and
    the page stores it. *)
Example stepper_sample :
  inputs (dom (handle (FormClick (Some (mkStepperClick (Some rest_field)
                 (js "-5") (js "5") (js "300")))) freshPage))
  = formOf (mkConfig 30 10 8) /\
  storage (handle (FormClick (Some (mkStepperClick (Some rest_field)
             (js "-5") (js "5") (js "300")))) freshPage)
  = mkLocalStorage (Some (mkConfig 30 10 8)) storage_works.
Proof. vm_compute. split; reflexivity. Qed.

(** With a [localStorage] that throws, the same click changes the form
    and stores nothing. *)
Example stepper_unsaved_sample :
  inputs (dom (handle (FormClick (Some (mkStepperClick (Some rest_field)
                 (js "-5") (js "5") (js "300"))))
                 (boot blankDom (mkLocalStorage None setItem_throws) true)))
  = formOf (mkConfig 30 10 8) /\
  storage (handle (FormClick (Some (mkStepperClick (Some rest_field)
             (js "-5") (js "5") (js "300"))))
             (boot blankDom (mkLocalStorage None setItem_throws) true))
  = mkLocalStorage None setItem_throws.
Proof. vm_compute. split; reflexivity. Qed.

(** ** Saved settings *)

(** X26: saved settings come back. When [localStorage] works, on a
    document loaded later, whatever its inputs held, the script puts the
    configuration that [saveSettings] stored into the form and shows its
    total time. *)
Theorem saved_settings_come_back (a : App) (document : Dom)
    (supported : bool) :
  mode (storage a) = storage_works ->
  inputs (dom (boot document (storage (saveSettings a)) supported))
  = formOf (fst (Controller.getSettings (inputs (dom a)))) /\
  totalTimeText (dom (boot document (storage (saveSettings a)) supported))
  = formatTime (totalSeconds (fst (Controller.getSettings (inputs (dom a))))).
Proof.
  intros Hm. rewrite saveSettings_spec. rewrite Hm.
  destruct (getSettings_formOf (inputs (dom a))) as [Hv _].
  set (s := fst (Controller.getSettings (inputs (dom a)))) in *.
  destruct (saved_cases s (storage a)) as [Hw _]. rewrite (Hw Hm).
  unfold boot, init. rewrite updateTotalTime_spec.
  assert (Hl : inputs (dom (loadSettings
                 (mkApp document (storage (set_storage
                    (mkLocalStorage (Some s) storage_works)
                    (onDom (set_inputs (formOf s)) a))) None false false
                    supported)))
               = formOf s).
  { clear Hm Hw. app_cases a. destruct s as [w r n].
    unfold valid in Hv. cbn in Hv.
    unfold loadSettings, getItem. cbn [storage set_storage onDom set_dom dom
      workDuration restDuration rounds mode item].
    replace (w =? 0) with false by (symmetry; apply Z.eqb_neq; lia).
    replace (r =? 0) with false by (symmetry; apply Z.eqb_neq; lia).
    replace (n =? 0) with false by (symmetry; apply Z.eqb_neq; lia).
    unfold clamp, formOf. cbn.
    replace (Z.max 5 (Z.min 300 w)) with w by lia.
    replace (Z.max 5 (Z.min 300 r)) with r by lia.
    replace (Z.max 1 (Z.min 50 n)) with n by lia.
    reflexivity. }
  destruct (loadSettings _) as [d1 st1 tm1 ip1 sba1 sup1].
  destruct d1. cbn [dom inputs] in Hl. subst.
  unfold_app_goal. rewrite (getSettings_of_formOf s Hv).
  split; reflexivity.
Qed.

Lemma saved_settings_come_back_witness :
  inputs (dom (boot blankDom (storage (saveSettings tickingPage)) true))
  = formOf (fst (Controller.getSettings (inputs (dom tickingPage)))) /\
  totalTimeText (dom (boot blankDom (storage (saveSettings tickingPage)) true))
  = formatTime
      (totalSeconds (fst (Controller.getSettings (inputs (dom tickingPage))))).
Proof.
  apply (saved_settings_come_back tickingPage blankDom true).
  vm_compute. reflexivity.
Defined.

(** ** A workout left alone, on the page *)

Lemma onlyFrames_everySecond (count : nat) :
  forall first : Z, onlyFrames (everySecond first count) = true.
Proof.
  induction count as [|k IH]; intros first; [reflexivity|].
  cbn. apply IH.
Qed.

Lemma onlyFrames_waitOut (m : Machine) : onlyFrames (waitOut m) = true.
Proof.
  unfold waitOut. destruct (lastTimestamp m); [|cbn];
    apply onlyFrames_everySecond.
Qed.

Lemma onlyFrames_waitOutPhases (config : Config) (k : nat) :
  forall m : Machine, onlyFrames (concat (waitOutPhases config k m)) = true.
Proof.
  induction k as [|k IH]; intros m; [reflexivity|].
  cbn [waitOutPhases concat]. unfold onlyFrames. rewrite forallb_app.
  fold (onlyFrames (waitOut m)). rewrite onlyFrames_waitOut.
  apply IH.
Qed.

(** Frames handled by the page are the frames run by its timer. *)
Lemma frames_through_page (config : Config) (ops : list Op) :
  forall (a : App) (m : Machine),
    onlyFrames ops = true -> pageReachable a ->
    timer a = Some (config, m) ->
    pageReachable (handleAll (frameEvents ops) a) /\
    timer (handleAll (frameEvents ops) a)
    = Some (config, fst (run config ops m)).
Proof.
  induction ops as [|op ops IH]; intros a m Hf Hr Et.
  - split; [exact Hr | exact Et].
  - destruct op as [| | | | |ts]; try discriminate Hf.
    cbn in Hf. cbn [frameEvents flat_map app handleAll fold_left].
    destruct (run_cons config (Frame ts) ops m) as [-> _].
    apply IH; [exact Hf| |].
    + apply page_event; [exact Hr|]. unfold enabled.
      destruct (screen (dom a)); reflexivity.
    + cbn [handle]. unfold callTimer. rewrite Et.
      destruct (deliverAll_frame (output config (Frame ts) m)
                  (set_timer (Some (config, step config (Frame ts) m)) a))
        as (_ & _ & _ & -> & _).
      destruct a; reflexivity.
Qed.

(** On the setup screen there is no timer. *)
Lemma setup_has_no_timer (a : App) :
  pageReachable a -> screen (dom a) = setup_screen -> timer a = None.
Proof.
  intros Hr Hs. destruct (page_ok a Hr) as [_ Ht]. unfold TimerOk in Ht.
  destruct (timer a) as [[config m]|]; [|reflexivity].
  destruct Ht as (_ & _ & _ & _ & _ & _ & _ & Hsc & _).
  rewrite Hs in Hsc. destruct (status_eqb (status m) COMPLETE);
    discriminate Hsc.
Qed.

(** The timer a submit creates and starts. *)
Lemma handleStart_timer (a : App) :
  timer (handleStart a)
  = Some (fst (Controller.getSettings (inputs (dom a))),
          step (fst (Controller.getSettings (inputs (dom a)))) Start
            (createTimer (fst (Controller.getSettings (inputs (dom a)))))).
Proof.
  app_cases a. cbn [dom inputs].
  destruct (getSettings_formOf inp) as [Hv Hf].
  unfold handleStart, App.getSettings. cbn [dom inputs].
  destruct (Controller.getSettings inp) as [s f]. cbn [fst snd] in *. subst f.
  rewrite (saveSettings_sanitised s) by (exact Hv || reflexivity).
  cbn [storage onDom set_dom dom].
  generalize (saved s st). intros st'.
  unfold callTimer. cbn [timer set_timer showScreen
    showPauseIcon set_isPaused onDom set_dom set_storage].
  rewrite start_output.
  destruct sup; reflexivity.
Qed.

Lemma complete_phase (config : Config) (m : Machine) :
  Inv config m -> status m = COMPLETE -> phase m = COMPLETE.
Proof.
  intros HI. revert HI. inv_cases m; cbn; intros; congruence.
Qed.

(** X28: a workout left alone ends on the summary. From a reachable
    page showing the setup screen, a submit followed by a frame every
    second, for as long as the phases of the configuration read from the
    form last, leaves the complete screen active with the summary of
    that configuration, [data-phase] "idle", and no wake lock wanted. *)
Theorem workout_left_alone (a : App) :
  pageReachable a -> screen (dom a) = setup_screen ->
  let settings := fst (Controller.getSettings (inputs (dom a))) in
  let started := step settings Start (createTimer settings) in
  let frames :=
    frameEvents
      (concat (waitOutPhases settings (2 * Z.to_nat (rounds settings))
                 started)) in
  screen (dom (handleAll frames (handle Submit a))) = complete_screen /\
  summaryText (dom (handleAll frames (handle Submit a)))
  = summaryOf settings /\
  bodyPhase (dom (handleAll frames (handle Submit a))) = js "idle" /\
  shouldBeActive (handleAll frames (handle Submit a)) = false.
Proof.
  intros Hr Hs settings started frames.
  destruct (getSettings_formOf (inputs (dom a))) as [Hv _].
  fold settings in Hv.
  assert (Hr1 : pageReachable (handle Submit a)).
  { apply page_event; [exact Hr|]. unfold enabled. rewrite Hs. reflexivity. }
  assert (Et : timer (handle Submit a) = Some (settings, started))
    by apply handleStart_timer.
  destruct (frames_through_page settings
              (concat (waitOutPhases settings
                         (2 * Z.to_nat (rounds settings)) started))
              (handle Submit a) started
              (onlyFrames_waitOutPhases settings _ started) Hr1 Et)
    as [Hr2 Et2].
  fold frames in Hr2, Et2.
  destruct (left_alone_completes settings Hv) as (_ & _ & Hc).
  fold started in Hc.
  destruct (page_ok _ Hr2) as [_ Ht]. unfold TimerOk in Ht.
  rewrite Et2 in Ht. destruct Ht as (_ & HI & Hag).
  destruct Hag as (_ & _ & _ & _ & _ & Hscr & Hw & _ & _ & Hph).
  rewrite (complete_phase _ _ HI Hc) in Hw, Hph. rewrite Hc in Hscr.
  clear Hr2 Et2 Hc Hr1 Et HI.
  set (a' := handleAll frames (handle Submit a)) in *. clearbody a'.
  clearbody settings.
  change (status_eqb COMPLETE COMPLETE) with true in Hscr.
  change (active COMPLETE) with false in Hw, Hph.
  cbv beta iota in Hscr, Hph. destruct Hph as [Hb Hsum].
  rewrite andb_false_r in Hw.
  repeat split; assumption.
Qed.

Lemma workout_left_alone_witness :
  let settings := fst (Controller.getSettings (inputs (dom freshPage))) in
  let started := step settings Start (createTimer settings) in
  let frames :=
    frameEvents
      (concat (waitOutPhases settings (2 * Z.to_nat (rounds settings))
                 started)) in
  screen (dom (handleAll frames (handle Submit freshPage))) = complete_screen /\
  summaryText (dom (handleAll frames (handle Submit freshPage)))
  = summaryOf settings /\
  bodyPhase (dom (handleAll frames (handle Submit freshPage))) = js "idle" /\
  shouldBeActive (handleAll frames (handle Submit freshPage)) = false.
Proof.
  apply (workout_left_alone freshPage).
  - exact reachable_freshPage.
  - reflexivity.
Defined.

End AppFacts.
